(** * pbalign: [mask_aligned_reads.py]

    A shallow embedding of [pbalign/tools/mask_aligned_reads.py] and the
    properties of its masking pass, its alignment index, its output naming and
    its manifest handling.

    Python values are modelled as follows: [str] as [string] (byte strings),
    [int] as [Z], the dictionary [alignedReads] as a [gmap string (gset Z)],
    the file system as a finite map from normalised absolute paths to nodes,
    and exceptions as an explicit [Exc] outcome of a state-passing monad
    that also records every effectful call in a chronological trace. *)

From Stdlib Require Import ZArith Ascii String List.
From stdpp Require Import base option list gmap sets strings pretty.

Local Open Scope string_scope.
Local Open Scope Z_scope.

(** ** Python [str] methods *)

Module PyStr.

Definition NL : ascii := "010"%char.
Definition SLASH : ascii := "/"%char.
Definition DOT : ascii := "."%char.

Definition chars (s : string) : list ascii := list_ascii_of_string s.
Definition str (l : list ascii) : string := string_of_list_ascii l.

(** [string.whitespace] of a byte string: tab, newline, vertical tab, form
    feed, carriage return and space. *)
Definition isspace (c : ascii) : bool :=
  let n := nat_of_ascii c in
  ((9 <=? n)%nat && (n <=? 13)%nat) || (n =? 32)%nat.

Fixpoint lstrip_chars (l : list ascii) : list ascii :=
  match l with
  | c :: l' => if isspace c then lstrip_chars l' else l
  | [] => []
  end.

(** [s.strip()] *)
Definition strip (s : string) : string :=
  str (rev (lstrip_chars (rev (lstrip_chars (chars s))))).

Fixpoint startswith_chars (l p : list ascii) : bool :=
  match p, l with
  | [], _ => true
  | a :: p', b :: l' => Ascii.eqb a b && startswith_chars l' p'
  | _ :: _, [] => false
  end.

(** [s.startswith(p)] and [s.endswith(p)] *)
Definition startswith (s p : string) : bool :=
  startswith_chars (chars s) (chars p).
Definition endswith (s p : string) : bool :=
  startswith_chars (rev (chars s)) (rev (chars p)).

(** [s.split(sep)] for a one-character separator: the pieces between
    separators, empty pieces included. *)
Fixpoint split_chars (sep : ascii) (cur : list ascii) (l : list ascii)
  : list (list ascii) :=
  match l with
  | [] => [rev cur]
  | c :: l' =>
      if Ascii.eqb c sep then rev cur :: split_chars sep [] l'
      else split_chars sep (c :: cur) l'
  end.
Definition split (s : string) (sep : ascii) : list string :=
  str <$> split_chars sep [] (chars s).

(** [sep.join(parts)] for a one-character separator. *)
Fixpoint join (sep : ascii) (parts : list string) : string :=
  match parts with
  | [] => EmptyString
  | [p] => p
  | p :: ps => p ++ String sep (join sep ps)
  end.

(** [s.rfind(c)]: the index of the last occurrence of [c], or [-1]. *)
Fixpoint rfind_chars (c : ascii) (i : Z) (found : Z) (l : list ascii) : Z :=
  match l with
  | [] => found
  | a :: l' => rfind_chars c (i + 1) (if Ascii.eqb a c then i else found) l'
  end.
Definition rfind (s : string) (c : ascii) : Z := rfind_chars c 0 (-1) (chars s).

(** The slices [s[:i]], [s[i:]] and [s[i:j]] for indices [0 <= i <= j]. *)
Definition upto (s : string) (i : Z) : string := str (take (Z.to_nat i) (chars s)).
Definition from (s : string) (i : Z) : string := str (drop (Z.to_nat i) (chars s)).
Definition slice (s : string) (i j : Z) : string :=
  str (take (Z.to_nat (j - i)) (drop (Z.to_nat i) (chars s))).

(** Iterating over a text file yields its lines, each with its terminating
    newline; a last line without one is yielded as it is. *)
Fixpoint lines_chars (cur : list ascii) (l : list ascii) : list (list ascii) :=
  match l with
  | [] => match cur with [] => [] | _ => [rev cur] end
  | c :: l' =>
      if Ascii.eqb c NL then rev (c :: cur) :: lines_chars [] l'
      else lines_chars (c :: cur) l'
  end.
Definition lines (content : string) : list string :=
  str <$> lines_chars [] (chars content).

End PyStr.

(** ** [os.path] on POSIX *)

Module OsPath.
Import PyStr.

(** [os.path.basename(p)]: [p[p.rfind('/') + 1:]] *)
Definition basename (p : string) : string := from p (rfind p SLASH + 1).

(** [os.path.splitext(p)[0]]: the extension starts at the last dot of the
    last component, unless that component consists of leading dots up to
    there. *)
Definition splitext_root (p : string) : string :=
  let sepIndex := rfind p SLASH in
  let dotIndex := rfind p DOT in
  if (sepIndex <? dotIndex)
     && negb (forallb (Ascii.eqb DOT) (chars (slice p (sepIndex + 1) dotIndex)))
  then upto p dotIndex
  else p.

Definition isabs (p : string) : bool := startswith p "/".

(** [os.path.join(a, b)] *)
Definition join (a b : string) : string :=
  if startswith b "/" then b
  else if String.eqb a EmptyString || endswith a "/" then a ++ b
  else a ++ "/" ++ b.

(** The loop of [normpath] over the components of the path. *)
Fixpoint normpath_comps (initial_slashes : nat) (new_comps : list string)
    (comps : list string) : list string :=
  match comps with
  | [] => new_comps
  | comp :: rest =>
      if String.eqb comp EmptyString || String.eqb comp "." then
        normpath_comps initial_slashes new_comps rest
      else if negb (String.eqb comp "..")
              || ((initial_slashes =? 0)%nat && bool_decide (new_comps = []))
              || bool_decide (last new_comps = Some "..") then
        normpath_comps initial_slashes (new_comps ++ [comp]) rest
      else
        (* [new_comps.pop()] when [new_comps] is not empty *)
        normpath_comps initial_slashes (removelast new_comps) rest
  end.

(** [os.path.normpath(path)] *)
Definition normpath (path : string) : string :=
  if String.eqb path EmptyString then "." else
  let initial_slashes :=
    if startswith path "/" then
      if startswith path "//" && negb (startswith path "///") then 2%nat
      else 1%nat
    else 0%nat in
  let comps := normpath_comps initial_slashes [] (split path SLASH) in
  let path' := PyStr.join SLASH comps in
  let path'' := str (replicate initial_slashes SLASH) ++ path' in
  if String.eqb path'' EmptyString then "." else path''.

(** [os.path.abspath(path)], in a process whose working directory is [cwd]. *)
Definition abspath (cwd : string) (path : string) : string :=
  normpath (if isabs path then path else join cwd path).

End OsPath.

(** ** The two regular expressions of the tool

    Both patterns are sequences of one-character atoms without repetition, so
    a match is decided position by position. *)

Module Re.
Import PyStr.

Inductive atom : Type :=
| Lit (c : ascii)      (* an escaped or ordinary character *)
| Digit                (* [[0-9]] *)
| AnyChar.             (* an unescaped [.]: any character but a newline *)

Definition atom_matches (a : atom) (c : ascii) : bool :=
  match a with
  | Lit x => Ascii.eqb x c
  | Digit => let n := nat_of_ascii c in (48 <=? n)%nat && (n <=? 57)%nat
  | AnyChar => negb (Ascii.eqb c NL)
  end.

(** Does the pattern match at the start of [l]? *)
Fixpoint match_here (pat : list atom) (l : list ascii) : bool :=
  match pat, l with
  | [], _ => true
  | a :: pat', c :: l' => atom_matches a c && match_here pat' l'
  | _ :: _, [] => false
  end.

(** The start index of the leftmost match, as [re.search] finds it. *)
Fixpoint search_from (pat : list atom) (i : nat) (l : list ascii) : option nat :=
  if match_here pat l then Some i
  else match l with
       | [] => None
       | _ :: l' => search_from pat (S i) l'
       end.

(** [bool(rx.search(s))] *)
Definition search (pat : list atom) (s : string) : bool :=
  bool_decide (is_Some (search_from pat 0 (chars s))).

(** [re.split(pat, s)[0]]: the text before the leftmost match, or all of
    [s] when there is none. *)
Definition split_first (pat : list atom) (s : string) : string :=
  match search_from pat 0 (chars s) with
  | Some i => str (take i (chars s))
  | None => s
  end.

Definition lits (s : string) : list atom := Lit <$> chars s.

(** [rx = re.compile(r'\.[0-9].rgn\.h5')] *)
Definition rx : list atom := [Lit DOT; Digit; AnyChar] ++ lits "rgn.h5".

(** The pattern [r'.rgn\.h5'] given to [re.split]. *)
Definition rx_split : list atom := [AnyChar] ++ lits "rgn.h5".

End Re.

(** ** Region tables ([pbalign.utils.RgnH5IO])

    The module [RgnH5IO.py] of the repository is not among the sources; the
    record model, its accessors and the reader and the writer further down
    follow the spec. *)

Module RgnH5IO.

(** Modelled from the spec: one sub-region of a read ([RgnH5IO.py] is not
    among the sources), with its type tag, its two offsets and its score. *)
Record Region : Type := mkRegion {
  regionType : string;
  regionStart : Z;
  regionEnd : Z;
  regionScore : Z
}.

(** Modelled from the spec: the region record of one read ([RgnH5IO.py] is
    not among the sources), its hole number and the ordered list of its
    sub-regions. *)
Record RegionTable : Type := mkRegionTable {
  holeNumber : Z;
  regions : list Region
}.

(** Modelled from the spec: the scan metadata of a file ([RgnH5IO.py] is not
    among the sources), which declares the movie name; the rest of the block
    is opaque. *)
Record ScanData : Type := mkScanData {
  MovieName : string;
  provenance : string
}.

#[global] Instance Region_eq_dec : EqDecision Region.
Proof. solve_decision. Defined.
#[global] Instance RegionTable_eq_dec : EqDecision RegionTable.
Proof. solve_decision. Defined.
#[global] Instance ScanData_eq_dec : EqDecision ScanData.
Proof. solve_decision. Defined.

(** Modelled from the spec: the reserved type tag of the high-quality
    region ([RgnH5IO.py] is not among the sources). *)
Definition HQRegionType : string := "HQRegion".

Definition isHqRegion (r : Region) : bool := String.eqb (regionType r) HQRegionType.

(** Modelled from the spec: the lookup-by-type accessor of the region record
    model ([RgnH5IO.py] is not among the sources). It returns the HQRegion
    sub-region if there is one, whatever its position. *)
Definition hqRegion (rt : RegionTable) : option Region :=
  List.find isHqRegion (regions rt).

Definition setStartAndEnd (r : Region) (newStart newEnd : Z) : Region :=
  {| regionType := regionType r; regionStart := newStart;
     regionEnd := newEnd; regionScore := regionScore r |}.

Fixpoint setHQ (newStart newEnd : Z) (rs : list Region) : list Region :=
  match rs with
  | [] => []
  | r :: rs' =>
      if isHqRegion r then setStartAndEnd r newStart newEnd :: rs'
      else r :: setHQ newStart newEnd rs'
  end.

(** Modelled from the spec: [RegionTable.setHQRegion] ([RgnH5IO.py] is not
    among the sources). It replaces the start and the end of the HQRegion
    sub-region, leaves its score and every other sub-region as they are,
    and does nothing to a record without an HQRegion. *)
Definition setHQRegion (rt : RegionTable) (newStart newEnd : Z) : RegionTable :=
  {| holeNumber := holeNumber rt;
     regions := setHQ newStart newEnd (regions rt) |}.

(** The pair of offsets of the HQRegion, when there is one. *)
Definition hqSpan (rt : RegionTable) : option (Z * Z) :=
  (λ r, (regionStart r, regionEnd r)) <$> hqRegion rt.

(** The sub-regions other than the HQRegion that [hqRegion] returns. *)
Fixpoint otherRegions (rs : list Region) : list Region :=
  match rs with
  | [] => []
  | r :: rs' => if isHqRegion r then rs' else r :: otherRegions rs'
  end.

End RgnH5IO.

(** ** Exceptions, files and the trace of effects *)

Inductive exn : Type :=
| IndexError
| EmptyCmpH5Error
| KeyError (key : string)
| IOError (path : string)
| OSError (path : string).

#[global] Instance exn_eq_dec : EqDecision exn.
Proof. solve_decision. Defined.

(** What iterating over a [CmpH5Reader] yields next: an alignment record, of
    which the tool reads [movieInfo.Name] and [HoleNumber], or an exception
    raised while the record or one of these two fields is fetched. *)
Inductive alnItem : Type :=
| Aln (movieInfo_Name : string) (HoleNumber : Z)
| IterRaises (e : exn).

(** An alignment archive as [pbcore.io.CmpH5Reader] presents it. *)
Record CmpH5 : Type := mkCmpH5 {
  movieInfoTable_Name : list string;
  alignments : list alnItem
}.

Inductive node : Type :=
| Dir
| Text (content : string)
| RgnH5 (scanDataGroup : option RgnH5IO.ScanData)
        (regionTables : list RgnH5IO.RegionTable)
| CmpFile (opens : exn + CmpH5).

#[global] Instance alnItem_eq_dec : EqDecision alnItem.
Proof. solve_decision. Defined.
#[global] Instance CmpH5_eq_dec : EqDecision CmpH5.
Proof. solve_decision. Defined.
#[global] Instance node_eq_dec : EqDecision node.
Proof. solve_decision. Defined.

Inductive level : Type := DEBUG | INFO | WARNING | ERROR.

(** The effectful calls of the tool, in the order they are made. *)
Inductive event : Type :=
| Log (l : level) (msg : string)
| LogException (e : exn)
| StderrWrite (s : string)
| PrintExc (e : exn)
| Mkdir (path : string)
| OpenW (path : string)
| FileWrite (path : string) (s : string)
| FileClose (path : string)
| OpenR (path : string)
| CmpReaderOpen (path : string)
| CmpReaderClose (path : string)
| RgnReaderOpen (path : string)
| RgnReaderClose (path : string)
| RgnWriterOpen (path : string)
| WriteScanDataGroup (path : string) (sd : RgnH5IO.ScanData)
| AddRegionTable (path : string) (rt : RgnH5IO.RegionTable)
| RgnWriterClose (path : string).

#[global] Instance level_eq_dec : EqDecision level.
Proof. solve_decision. Defined.
#[global] Instance event_eq_dec : EqDecision event.
Proof. solve_decision. Defined.

(** The world a run acts on: the working directory of the process, the file
    system keyed by normalised absolute path, and the trace so far. File
    contents are those a reader would see once pending writes are flushed. *)
Record World : Type := mkWorld {
  cwd : string;
  fs : gmap string node;
  trace : list event
}.

(** ** The monad of Python computations: state and exceptions *)

Inductive outcome (A : Type) : Type :=
| Ret (a : A)
| Exc (e : exn).
Arguments Ret {A} a.
Arguments Exc {A} e.

Definition Py (A : Type) : Type := World → outcome A * World.

#[global] Instance Py_ret : MRet Py := λ A a w, (Ret a, w).
#[global] Instance Py_bind : MBind Py := λ A B k m w,
  match m w with
  | (Ret a, w') => k a w'
  | (Exc e, w') => (Exc e, w')
  end.

Definition raise {A : Type} (e : exn) : Py A := λ w, (Exc e, w).

(** The world after calls that leave the files [files] behind and are
    recorded as [evs] in the trace. *)
Definition step (files : gmap string node) (evs : list event) (w : World) : World :=
  {| cwd := cwd w; fs := files; trace := trace w ++ evs |}.

(** The world after calls that change no file. *)
Definition record (evs : list event) (w : World) : World := step (fs w) evs w.

Definition emit (e : event) : Py unit := λ w, (Ret tt, record [e] w).

Definition logging (l : level) (msg : string) : Py unit := emit (Log l msg).

(** ** The operating system and the two HDF5 libraries

    Every call acts on the node at the normalised absolute path of its
    argument. A file can be created only in an existing directory; the root
    directory always exists.

    The path is resolved as [os.path.abspath] resolves it, by its text. The
    system calls walk the path instead: the two agree when every directory
    that the path passes through exists and none is a symbolic link, as for
    a name without a directory part in the working directory; a path that
    leaves a missing directory by [..] (as [nodir/../out]) is refused by the
    system calls and resolved here. Access rights are not modelled. *)

Definition parent (k : string) : string :=
  let i := PyStr.rfind k PyStr.SLASH in
  if i <=? 0 then "/" else PyStr.upto k i.

Definition is_dir (files : gmap string node) (k : string) : bool :=
  String.eqb k "/" || bool_decide (files !! k = Some Dir).

Definition exists_node (files : gmap string node) (k : string) : bool :=
  String.eqb k "/" || bool_decide (is_Some (files !! k)).

(** [os.path.exists(path)] *)
Definition os_path_exists (path : string) : Py bool := λ w,
  (Ret (negb (String.eqb path EmptyString)
        && exists_node (fs w) (OsPath.abspath (cwd w) path)), w).

(** [os.mkdir(path)] *)
Definition os_mkdir (path : string) : Py unit := λ w,
  let k := OsPath.abspath (cwd w) path in
  if String.eqb path EmptyString || exists_node (fs w) k
     || negb (is_dir (fs w) (parent k))
  then (Exc (OSError path), w)
  else (Ret tt, step (<[k := Dir]> (fs w)) [Mkdir k] w).

(** [open(path, 'w')]: the file is created, or truncated if it exists. The
    file object is represented by the path it was opened at. *)
Definition open_w (path : string) : Py string := λ w,
  let k := OsPath.abspath (cwd w) path in
  if String.eqb path EmptyString || is_dir (fs w) k
     || negb (is_dir (fs w) (parent k))
  then (Exc (IOError path), w)
  else (Ret k, step (<[k := Text EmptyString]> (fs w)) [OpenW k] w).

(** The files after [s] is appended to the text file at [f]. *)
Definition appended (f : string) (s : string) (files : gmap string node)
  : gmap string node :=
  match files !! f with
  | Some (Text content) => <[f := Text (content ++ s)]> files
  | _ => files
  end.

(** [f.write(s)] on a file opened by [open_w]. The write is buffered: the
    text of the file is what the file object has been given, which is on
    disk once the object is flushed, at the latest when it is closed or
    released. *)
Definition file_write (f : string) (s : string) : Py unit := λ w,
  (Ret tt, step (appended f s (fs w)) [FileWrite f s] w).

(** [f.close()] *)
Definition file_close (f : string) : Py unit := emit (FileClose f).

(** [[line for line in open(path, 'r')]]; only text files are read this way. *)
Definition open_r_lines (path : string) : Py (list string) := λ w,
  let k := OsPath.abspath (cwd w) path in
  match fs w !! k with
  | Some (Text content) =>
      (Ret (PyStr.lines content), record [OpenR k] w)
  | _ => (Exc (IOError path), w)
  end.

(** [CmpH5Reader(path)]: a missing file, or one that is not an alignment
    archive, is an [IOError]; an archive may also refuse to open with an
    exception of its own, as one without any alignment does with
    [EmptyCmpH5Error]. *)
Definition CmpH5Reader (path : string) : Py (string * CmpH5) := λ w,
  let k := OsPath.abspath (cwd w) path in
  match fs w !! k with
  | Some (CmpFile (inr c)) =>
      (Ret (k, c), record [CmpReaderOpen k] w)
  | Some (CmpFile (inl e)) => (Exc e, w)
  | _ => (Exc (IOError path), w)
  end.

Definition CmpH5Reader_close (reader : string * CmpH5) : Py unit :=
  emit (CmpReaderClose reader.1).

(** Modelled from the spec: an open [RgnH5Reader] ([RgnH5IO.py] is not
    among the sources), holding the scan metadata and the ordered records of
    the file as they were when it was opened. *)
Record RgnReader : Type := mkRgnReader {
  readerPath : string;
  scanDataGroup : RgnH5IO.ScanData;
  readerTables : list RgnH5IO.RegionTable
}.

(** Modelled from the spec: [rgnReader.movieName] ([RgnH5IO.py] is not among
    the sources), the movie name declared in the metadata of the file. *)
Definition movieName (r : RgnReader) : string :=
  RgnH5IO.MovieName (scanDataGroup r).

(** Modelled from the spec: [RgnH5Reader(path)] ([RgnH5IO.py] is not among
    the sources) opens a region-table file for reading; anything else at
    [path], or nothing, is an [IOError]. *)
Definition RgnH5Reader (path : string) : Py RgnReader := λ w,
  let k := OsPath.abspath (cwd w) path in
  match fs w !! k with
  | Some (RgnH5 (Some sd) tables) =>
      (Ret {| readerPath := k; scanDataGroup := sd; readerTables := tables |},
       record [RgnReaderOpen k] w)
  | _ => (Exc (IOError path), w)
  end.

Definition RgnH5Reader_close (r : RgnReader) : Py unit :=
  emit (RgnReaderClose (readerPath r)).

(** Modelled from the spec: [RgnH5Writer(path)] ([RgnH5IO.py] is not among the
    sources) creates a new, empty region-table file. The writer is
    represented by the path of its file. *)
Definition RgnH5Writer (path : string) : Py string := λ w,
  let k := OsPath.abspath (cwd w) path in
  if String.eqb path EmptyString || is_dir (fs w) k
     || negb (is_dir (fs w) (parent k))
  then (Exc (IOError path), w)
  else (Ret k, step (<[k := RgnH5 None []]> (fs w)) [RgnWriterOpen k] w).

(** Modelled from the spec: [rgnWriter.writeScanDataGroup(sd)] ([RgnH5IO.py]
    is not among the sources) copies the scan metadata into the file. *)
Definition writeScanDataGroup (f : string) (sd : RgnH5IO.ScanData) : Py unit := λ w,
  (Ret tt, step (match fs w !! f with
                 | Some (RgnH5 _ tables) => <[f := RgnH5 (Some sd) tables]> (fs w)
                 | _ => fs w
                 end) [WriteScanDataGroup f sd] w).

(** Modelled from the spec: [rgnWriter.addRegionTable(rt)] ([RgnH5IO.py] is
    not among the sources) appends the record to the file. *)
Definition addRegionTable (f : string) (rt : RgnH5IO.RegionTable) : Py unit := λ w,
  (Ret tt, step (match fs w !! f with
                 | Some (RgnH5 sd tables) => <[f := RgnH5 sd (tables ++ [rt])]> (fs w)
                 | _ => fs w
                 end) [AddRegionTable f rt] w).

Definition RgnH5Writer_close (f : string) : Py unit := emit (RgnWriterClose f).

(** ** [class AlignedReadsMasker] *)

Record AlignedReadsMasker : Type := mkAlignedReadsMasker {
  inCmpFile : string;
  inRgnFofn : string;
  outRgnFofn : string
}.

(** The dictionary [{ Movie: set(HoleNumbers) }]. *)
Abbreviation AlignmentIndex := (gmap string (gset Z)).

(** [alignedReads.setdefault(movie, set())] *)
Definition setdefault (alignedReads : AlignmentIndex) (movie : string)
  : AlignmentIndex :=
  match alignedReads !! movie with
  | Some _ => alignedReads
  | None => <[movie := ∅]> alignedReads
  end.

(** [for i in reader: alignedReads[i.movieInfo.Name].add(i.HoleNumber)].
    The dictionary is updated in place, so when the loop is left by an
    exception the insertions made so far remain. *)
Fixpoint addAlignments (alignedReads : AlignmentIndex) (items : list alnItem)
  : AlignmentIndex * option exn :=
  match items with
  | [] => (alignedReads, None)
  | IterRaises e :: _ => (alignedReads, Some e)
  | Aln movie hole :: rest =>
      match alignedReads !! movie with
      | None => (alignedReads, Some (KeyError movie))
      | Some holes => addAlignments (<[movie := holes ∪ {[hole]}]> alignedReads) rest
      end
  end.

Definition newline : string := String PyStr.NL EmptyString.

Definition noAlignedReadsMsg (self : AlignedReadsMasker) : string :=
  "No aligned reads found in " ++ inCmpFile self.

(** The clause [except (IndexError, EmptyCmpH5Error)]. *)
Definition except_clause (self : AlignedReadsMasker) (e : exn)
    (alignedReads : AlignmentIndex) : Py AlignmentIndex :=
  match e with
  | IndexError | EmptyCmpH5Error =>
      emit (StderrWrite (noAlignedReadsMsg self ++ newline));;
      logging WARNING (noAlignedReadsMsg self);;
      mret alignedReads
  | _ => raise e
  end.

Definition _extractAlignedReads (self : AlignedReadsMasker) : Py AlignmentIndex :=
  λ w,
    let alignedReads : AlignmentIndex := ∅ in
    match CmpH5Reader (inCmpFile self) w with
    | (Exc e, w1) => except_clause self e alignedReads w1
    | (Ret reader, w1) =>
        let alignedReads :=
          foldl setdefault alignedReads (movieInfoTable_Name reader.2) in
        match addAlignments alignedReads (alignments reader.2) with
        | (alignedReads, Some e) => except_clause self e alignedReads w1
        | (alignedReads, None) =>
            (CmpH5Reader_close reader;; mret alignedReads) w1
        end
    end.

(** [movieName in alignedReads and rt.holeNumber in alignedReads[movieName]] *)
Definition isAligned (alignedReads : AlignmentIndex) (movieName : string)
    (hole : Z) : bool :=
  match alignedReads !! movieName with
  | Some holes => bool_decide (hole ∈ holes)
  | None => false
  end.

(** The body of [for rt in rgnReader] on one record: the record as it is
    handed to the writer. *)
Definition maskRegionTable (alignedReads : AlignmentIndex) (movieName : string)
    (rt : RgnH5IO.RegionTable) : RgnH5IO.RegionTable :=
  if isAligned alignedReads movieName (RgnH5IO.holeNumber rt)
  then RgnH5IO.setHQRegion rt 0 0
  else rt.

(** [for rt in rgnReader: ...; rgnWriter.addRegionTable(rt)] *)
Fixpoint maskRegionTables (alignedReads : AlignmentIndex) (movieName : string)
    (rgnWriter : string) (rts : list RgnH5IO.RegionTable) : Py unit :=
  match rts with
  | [] => mret tt
  | rt :: rest =>
      addRegionTable rgnWriter (maskRegionTable alignedReads movieName rt);;
      maskRegionTables alignedReads movieName rgnWriter rest
  end.

(** The name under which the output file is written: the file name up to the
    first match of [.rgn\.h5] when [rx] matches somewhere in it, and the
    declared movie name otherwise. *)
Definition movieId (basename movieName : string) : string :=
  if Re.search Re.rx basename then Re.split_first Re.rx_split basename
  else movieName.

(** [os.path.abspath(os.path.join(outDir, movieId + ".rgn.h5"))] *)
Definition outH5FN (cwd outDir movieId : string) : string :=
  OsPath.abspath cwd (OsPath.join outDir (movieId ++ ".rgn.h5")).

(** One round of the loop over the manifest, after the check of the suffix. *)
Definition maskRgnH5 (alignedReads : AlignmentIndex) (outDir : string)
    (outRgnFofn : string) (rgnH5FN : string) : Py unit :=
  rgnReader ← RgnH5Reader rgnH5FN;
  let basename := OsPath.basename rgnH5FN in
  let movieName := movieName rgnReader in
  let movieId := movieId basename movieName in
  outH5FN ← (λ w, (Ret (outH5FN (cwd w) outDir movieId), w));
  file_write outRgnFofn (outH5FN ++ newline);;
  rgnWriter ← RgnH5Writer outH5FN;
  writeScanDataGroup rgnWriter (scanDataGroup rgnReader);;
  logging INFO ("Processing " ++ rgnH5FN ++ "...");;
  maskRegionTables alignedReads movieName rgnWriter (readerTables rgnReader);;
  RgnH5Reader_close rgnReader;;
  RgnH5Writer_close rgnWriter.

Definition notRgnH5Msg (rgnH5FN : string) : string :=
  "Region table file " ++ rgnH5FN ++ " should be a rgn.h5 file.".

(** [for rgnH5FN in ...]: [Some 1] when the loop is left by [return 1],
    [None] when it runs to its end. *)
Fixpoint maskRgnH5s (alignedReads : AlignmentIndex) (outDir : string)
    (outRgnFofn : string) (rgnH5FNs : list string) : Py (option Z) :=
  match rgnH5FNs with
  | [] => mret None
  | rgnH5FN :: rest =>
      if negb (PyStr.endswith rgnH5FN "rgn.h5") then
        logging ERROR (notRgnH5Msg rgnH5FN);;
        mret (Some 1)
      else
        maskRgnH5 alignedReads outDir outRgnFofn rgnH5FN;;
        maskRgnH5s alignedReads outDir outRgnFofn rest
  end.

Definition nreads (alignedReads : AlignmentIndex) : nat :=
  sum_list (size <$> (map_to_list alignedReads).*2).

Definition extractedMsg (self : AlignedReadsMasker) (alignedReads : AlignmentIndex)
  : string :=
  "Extracted " ++ pretty (nreads alignedReads) ++ " reads ("
  ++ pretty (size alignedReads) ++ " movies) from " ++ inCmpFile self.

(** What [maskAlignedReads] does once the index is built. *)
Definition maskWith (self : AlignedReadsMasker) (alignedReads : AlignmentIndex)
  : Py Z :=
  logging INFO (extractedMsg self alignedReads);;
  let outDir := OsPath.splitext_root (outRgnFofn self) in
  outDirExists ← os_path_exists outDir;
  (if negb outDirExists then os_mkdir outDir else mret tt);;
  outRgnFofn ← open_w (outRgnFofn self);
  lines ← open_r_lines (inRgnFofn self);
  returned ← maskRgnH5s alignedReads outDir outRgnFofn (PyStr.strip <$> lines);
  match returned with
  | Some code => mret code
  | None => file_close outRgnFofn;; mret 0
  end.

Definition maskAlignedReads (self : AlignedReadsMasker) : Py Z :=
  logging INFO "Log level set to INFO";;
  logging DEBUG "Log Level set to DEBUG";;
  alignedReads ← _extractAlignedReads self;
  maskWith self alignedReads.

(** [run(inCmpFile, inRgnFofn, outRgnFofn)]: the value that
    [maskAlignedReads] returns is dropped. *)
Definition run (inCmpFile inRgnFofn outRgnFofn : string) : Py Z := λ w,
  let masker := mkAlignedReadsMasker inCmpFile inRgnFofn outRgnFofn in
  match maskAlignedReads masker w with
  | (Exc e, w') =>
      (emit (LogException e);; emit (PrintExc e);; mret 1) w'
  | (Ret _, w') => (Ret 0, w')
  end.

Definition __VERSION__ : string := "0.3.2".

(** ** Notions used to state the properties *)

(** The hole numbers of the alignment records of [movie] among [items]. *)
Definition holesOf (movie : string) (items : list alnItem) : gset Z :=
  list_to_set (omap (λ it, match it with
                           | Aln m h => if decide (m = movie) then Some h else None
                           | IterRaises _ => None
                           end) items).

(** An item is an alignment record of a movie of the movie table. *)
Definition alignmentOf (movies : list string) (it : alnItem) : Prop :=
  match it with
  | Aln m _ => m ∈ movies
  | IterRaises _ => False
  end.

(** The index that the movie table and the records [items] lead to. *)
Definition indexOf (movies : list string) (items : list alnItem) : AlignmentIndex :=
  (addAlignments (foldl setdefault ∅ movies) items).1.

(** The records of the region-table file at [k]. *)
Definition tablesAt (files : gmap string node) (k : string)
  : list RgnH5IO.RegionTable :=
  match files !! k with
  | Some (RgnH5 _ tables) => tables
  | _ => []
  end.

(** The trace of one round of the loop that runs to its end: the reader at
    [kin] is opened, the line [p] is written to the manifest [fofn], then the
    output file at [k] is created, filled with [out] and closed. *)
Definition roundTrace (fofn kin name p k : string) (sd : RgnH5IO.ScanData)
    (out : list RgnH5IO.RegionTable) : list event :=
  [RgnReaderOpen kin; FileWrite fofn (p ++ newline); RgnWriterOpen k;
   WriteScanDataGroup k sd; Log INFO ("Processing " ++ name ++ "...")]
  ++ (AddRegionTable k <$> out)
  ++ [RgnReaderClose kin; RgnWriterClose k].

(** The selectivity property in the words of the spec, for one record
    [rin] of a file of movie [movieName] and the record [rout] written for
    it: the HQRegion written is (0, 0) if and only if the read is in the
    index and the record has an HQRegion; otherwise the HQRegion is the one
    read; and the other sub-regions are the ones read. *)
Definition selective (alignedReads : AlignmentIndex) (movieName : string)
    (rin rout : RgnH5IO.RegionTable) : Prop :=
  (RgnH5IO.hqSpan rout = Some (0, 0)
   ↔ isAligned alignedReads movieName (RgnH5IO.holeNumber rin) = true
     ∧ is_Some (RgnH5IO.hqRegion rin))
  ∧ (¬ (isAligned alignedReads movieName (RgnH5IO.holeNumber rin) = true
        ∧ is_Some (RgnH5IO.hqRegion rin))
     → RgnH5IO.hqSpan rout = RgnH5IO.hqSpan rin)
  ∧ RgnH5IO.otherRegions (RgnH5IO.regions rout)
    = RgnH5IO.otherRegions (RgnH5IO.regions rin).

(** Conservation and selectivity in the words of the spec, for the records
    [inp] read from a file and the records [out] written for them. *)
Definition pointwiseSelective (alignedReads : AlignmentIndex) (movieName : string)
    (inp out : list RgnH5IO.RegionTable) : Prop :=
  length out = length inp
  ∧ RgnH5IO.holeNumber <$> out = RgnH5IO.holeNumber <$> inp
  ∧ Forall2 (selective alignedReads movieName) inp out.

(** What the masking pass does to one record: a record of an aligned read
    that has an HQRegion gets the offsets (0, 0), anything else of it being
    kept; every other record is written as it was read. So the HQRegion
    written is (0, 0) exactly for these records and for the records whose
    HQRegion was (0, 0) already. *)
Definition maskedAs (alignedReads : AlignmentIndex) (movieName : string)
    (rin rout : RgnH5IO.RegionTable) : Prop :=
  RgnH5IO.holeNumber rout = RgnH5IO.holeNumber rin
  ∧ RgnH5IO.otherRegions (RgnH5IO.regions rout)
    = RgnH5IO.otherRegions (RgnH5IO.regions rin)
  ∧ RgnH5IO.regionScore <$> RgnH5IO.hqRegion rout
    = RgnH5IO.regionScore <$> RgnH5IO.hqRegion rin
  ∧ (isAligned alignedReads movieName (RgnH5IO.holeNumber rin) = true
     → is_Some (RgnH5IO.hqRegion rin)
     → RgnH5IO.hqSpan rout = Some (0, 0))
  ∧ (¬ (isAligned alignedReads movieName (RgnH5IO.holeNumber rin) = true
        ∧ is_Some (RgnH5IO.hqRegion rin))
     → rout = rin)
  ∧ (RgnH5IO.hqSpan rout = Some (0, 0)
     ↔ (isAligned alignedReads movieName (RgnH5IO.holeNumber rin) = true
        ∧ is_Some (RgnH5IO.hqRegion rin))
       ∨ RgnH5IO.hqSpan rin = Some (0, 0)).

(** The text of a file made of the given lines, each ended by a newline. *)
Fixpoint catLines (ls : list string) : string :=
  match ls with
  | [] => EmptyString
  | l :: ls' => (l ++ newline) ++ catLines ls'
  end.

(** One completed round of the loop over the manifest: the line read, the
    scan metadata and the records written, and the output path planned. *)
Record Round : Type := mkRound {
  roundName : string;
  roundScan : RgnH5IO.ScanData;
  roundOut : list RgnH5IO.RegionTable;
  roundPath : string
}.

Definition roundEvents (cwd fofn : string) (r : Round) : list event :=
  roundTrace fofn (OsPath.abspath cwd (roundName r)) (roundName r) (roundPath r)
    (OsPath.abspath cwd (roundPath r)) (roundScan r) (roundOut r).






(** No file disappears from [w] to [w'], and the working directory stays. *)
Definition grows (w w' : World) : Prop :=
  cwd w' = cwd w ∧ ∀ k, is_Some (fs w !! k) → is_Some (fs w' !! k).

(** The naming rule in the words of the spec: a file name follows the
    multi-part convention when it ends in a literal dot, one digit and the
    suffix [.rgn.h5]; the stem is then the file name without that suffix, and
    the declared movie name otherwise. *)
Definition multiPart (basename : string) : bool :=
  let l := PyStr.chars basename in
  (9 <=? length l)%nat
  && PyStr.endswith basename ".rgn.h5"
  && Re.match_here [Re.Lit PyStr.DOT; Re.Digit] (drop (length l - 9) l).

Definition stemOf (basename movieName : string) : string :=
  if multiPart basename
  then PyStr.upto basename (Z.of_nat (length (PyStr.chars basename)) - 7)
  else movieName.

(** No output at all: no line written to a file, no region-table file
    created, no record added. *)
Definition noOutputProduced (tr : list event) : Prop :=
  Forall (λ e, match e with
               | FileWrite _ _ | RgnWriterOpen _ | AddRegionTable _ _ => False
               | _ => True
               end) tr.


(** The claim about a manifest with a line of the wrong suffix: the process
    exits with a code other than zero and the output manifest is not
    created. The exit code of the process is the value of [run], which
    [main] returns as it is and [sys.exit] is given. *)
Definition fatalOnBadManifest (inCmpFile inRgnFofn outRgnFofn : string)
    (w : World) : Prop :=
  (run inCmpFile inRgnFofn outRgnFofn w).1 ≠ Ret 0
  ∧ fs (run inCmpFile inRgnFofn outRgnFofn w).2
      !! OsPath.abspath (cwd w) outRgnFofn = None.

(** ** A sample run *)

Definition read7 : RgnH5IO.RegionTable :=
  RgnH5IO.mkRegionTable 7
    [RgnH5IO.mkRegion "Insert" 0 10 (-1); RgnH5IO.mkRegion "HQRegion" 5 90 800].
Definition read8 : RgnH5IO.RegionTable :=
  RgnH5IO.mkRegionTable 8
    [RgnH5IO.mkRegion "HQRegion" 0 50 700; RgnH5IO.mkRegion "Adapter" 10 20 600].
(** A read without any high-quality span, as the instrument reports it. *)
Definition read9 : RgnH5IO.RegionTable :=
  RgnH5IO.mkRegionTable 9
    [RgnH5IO.mkRegion "HQRegion" 0 0 0; RgnH5IO.mkRegion "Insert" 0 30 (-1)].
Definition read10 : RgnH5IO.RegionTable :=
  RgnH5IO.mkRegionTable 10 [RgnH5IO.mkRegion "Insert" 0 12 (-1)].

Definition scanM1 : RgnH5IO.ScanData := RgnH5IO.mkScanData "M1" "run 42".

Definition sampleArchive : CmpH5 :=
  mkCmpH5 ["M1"; "M2"] [Aln "M1" 7; Aln "M1" 7; Aln "M1" 10].

Definition sampleIndex : AlignmentIndex :=
  indexOf (movieInfoTable_Name sampleArchive) (alignments sampleArchive).

Definition sampleFiles : gmap string node :=
  list_to_map
    [("/work", Dir);
     ("/work/in.cmp.h5", CmpFile (inr sampleArchive));
     ("/work/a.rgn.h5", RgnH5 (Some scanM1) [read7; read8; read9; read10]);
     ("/work/b.rgn.h5", RgnH5 (Some scanM1) [read8])].

(** The sample files once the output directory and the output manifest
    exist, as they do when the loop over the manifest starts. *)
Definition openedFiles : gmap string node :=
  <["/work/out.fofn" := Text EmptyString]> (<["/work/out" := Dir]> sampleFiles).

Definition openedWorld : World :=
  {| cwd := "/work"; fs := openedFiles; trace := [] |}.



(** The sample files and an input manifest [in.fofn] of the given lines,
    seen from the directory [/work]. *)
Definition sampleWorld (manifest : list string) : World :=
  {| cwd := "/work";
     fs := <["/work/in.fofn" := Text (catLines manifest)]> sampleFiles;
     trace := [] |}.

Definition sampleMasker : AlignedReadsMasker :=
  mkAlignedReadsMasker "in.cmp.h5" "in.fofn" "out.fofn".

(** The sample world without the alignment archive. *)
Definition noArchiveWorld : World :=
  {| cwd := "/work";
     fs := delete "/work/in.cmp.h5" (fs (sampleWorld ["a.rgn.h5"]));
     trace := [] |}.

(** The sample world with an archive without any alignment, which
    [CmpH5Reader] refuses to open. *)
Definition emptyArchiveWorld : World :=
  {| cwd := "/work";
     fs := <["/work/in.cmp.h5" := CmpFile (inl EmptyCmpH5Error)]>
             (fs (sampleWorld ["a.rgn.h5"]));
     trace := [] |}.

(** The sample world with an archive whose iteration fails with
    [IndexError] after its first record. *)
Definition brokenArchive : CmpH5 :=
  mkCmpH5 ["M1"; "M2"] [Aln "M1" 7; IterRaises IndexError; Aln "M1" 10].

Definition brokenArchiveWorld : World :=
  {| cwd := "/work";
     fs := <["/work/in.cmp.h5" := CmpFile (inr brokenArchive)]>
             (fs (sampleWorld ["a.rgn.h5"]));
     trace := [] |}.

(** What [maskAlignedReads] logs before it builds the index. *)
Definition startLogs : list event :=
  [Log INFO "Log level set to INFO"; Log DEBUG "Log Level set to DEBUG"].

(** ** The command line of [mask_aligned_reads.py] *)

Module Cli.

(** The arguments as [getParser().parse_args()] returns them. *)
Record Namespace : Type := mkNamespace {
  logFile : option string;
  debug : bool;
  info : bool;
  inCmpFile : string;
  inRgnFofn : string;
  outRgnFofn : string
}.

(** What [logging.basicConfig] is called with: the level, and the file to log
    to ([None] for [sys.stderr]). *)
Record LogConfig : Type := mkLogConfig {
  logLevel : level;
  logDestination : option string;
  logFormat : string
}.

(** [configLog(isInfo, isDebug, logFile)] *)
Definition configLog (isInfo isDebug : bool) (logFile : option string) : LogConfig :=
  let logLevel := if isDebug then DEBUG else if isInfo then INFO else ERROR in
  let logFormat := "%(asctime)s [%(levelname)s] %(message)s" in
  match logFile with
  | Some file => {| logLevel := logLevel; logDestination := Some file;
                    logFormat := logFormat |}
  | None => {| logLevel := logLevel; logDestination := None;
               logFormat := logFormat |}
  end.

(** The numeric levels of the [logging] module. *)
Definition levelno (l : level) : Z :=
  match l with
  | DEBUG => 10
  | INFO => 20
  | WARNING => 30
  | ERROR => 40
  end.

(** A logging call at level [l] is handled when [l] is not below the
    configured level. *)
Definition isEnabledFor (cfg : LogConfig) (l : level) : bool :=
  levelno (logLevel cfg) <=? levelno l.

(** The logging calls of a trace that reach the log under [cfg]; an
    exception is logged at the level [ERROR]. *)
Definition emitted (cfg : LogConfig) (e : event) : bool :=
  match e with
  | Log l _ => isEnabledFor cfg l
  | LogException _ => isEnabledFor cfg ERROR
  | _ => false
  end.

(** What [main()] does with the parsed arguments [args]: the configuration
    that [configLog(args.debug, args.info, args.logFile)] hands to
    [logging.basicConfig], and what follows it (lines 188 to 191): [run] is
    called, and its value is logged and returned. *)
Definition mainWith (args : Namespace) : LogConfig * Py Z :=
  (configLog (debug args) (info args) (logFile args),
   rcode ← run (inCmpFile args) (inRgnFofn args) (outRgnFofn args);
   logging INFO ("Exiting mask_aligned_reads.py " ++ __VERSION__
                 ++ " with rturn code " ++ pretty rcode ++ ".");;
   mret rcode).

(** [main()]. The two library calls that it makes before [run] are
    parameters: [parse_args] is [getParser().parse_args()] on the command
    line of the process (lines 184 and 185), which gives the arguments or
    leaves by [SystemExit] with an exit code (2 for a command line that the
    parser rejects); [basicConfig] is [logging.basicConfig] on the
    configuration of [configLog] (line 186), which raises when the log file
    cannot be opened. The outcome is [inl code] when [main] is left by
    [SystemExit(code)], and else what [main] returns or raises. *)
Definition main (parse_args : World → (Z + Namespace) * World)
    (basicConfig : LogConfig → Py unit) : World → (Z + outcome Z) * World := λ w,
  match parse_args w with
  | (inl code, w1) => (inl code, w1)
  | (inr args, w1) =>
      match basicConfig (mainWith args).1 w1 with
      | (Exc e, w2) => (inr (Exc e), w2)
      | (Ret _, w2) => let (o, w3) := (mainWith args).2 w2 in (inr o, w3)
      end
  end.

End Cli.

(** The calls of a trace that are not a [close()] of a text file. *)
Definition notFileClose (e : event) : Prop :=
  match e with
  | FileClose _ => False
  | _ => True
  end.

(** The calls of a trace that change no file. *)
Definition readOnly (e : event) : Prop :=
  match e with
  | Mkdir _ | OpenW _ | FileWrite _ _ | RgnWriterOpen _
  | WriteScanDataGroup _ _ | AddRegionTable _ _ => False
  | _ => True
  end.

(** The sample world whose input manifest is also named as the output
    manifest, the output directory [/work/in] being there already. *)
Definition sameManifestWorld : World :=
  {| cwd := "/work";
     fs := <["/work/in" := Dir]> (fs (sampleWorld ["a.rgn.h5"]));
     trace := [] |}.

(** The sample world with an archive one record of which is of a movie that
    the movie table does not list. *)
Definition strayMovieArchive : CmpH5 :=
  mkCmpH5 ["M1"] [Aln "M1" 7; Aln "M9" 3; Aln "M1" 10].

Definition strayMovieWorld : World :=
  {| cwd := "/work";
     fs := <["/work/in.cmp.h5" := CmpFile (inr strayMovieArchive)]>
             (fs (sampleWorld ["a.rgn.h5"]));
     trace := [] |}.

(** ** [createChemistryHeader.py] *)

Module Chemistry.

Definition MOVIENAME_TAG : string := "PU".

(** The exceptions of this module: a [KeyError] of a dictionary, and
    [ChemistryLoadingException]. *)
Inductive error : Type :=
| KeyError (key : string)
| ChemistryLoadingException (msg : string).

#[global] Instance error_eq_dec : EqDecision error.
Proof. solve_decision. Defined.

(** A chemistry triple: binding kit, sequencing kit, software version. *)
Definition triple : Type := string * string * string.

(** One line of a SAM header, a dictionary from tags to values, and a header,
    a dictionary from record types to the lines of that type (a type with a
    single line, as [HD], having a list of one line). *)
Abbreviation tags := (gmap string string).
Abbreviation header := (gmap string (list (gmap string string))).

(** The [RG DS] string of a triple. *)
Definition rgds_string (t : triple) : string :=
  "BINDINGKIT=" ++ t.1.1 ++ ";SEQUENCINGKIT=" ++ t.1.2
  ++ ";SOFTWAREVERSION=" ++ t.2.

(** [format_rgds_entries(rgds_entries)]: the loop over the keys of the
    dictionary, in the order the dictionary yields them. *)
Definition format_rgds_entries (rgds_entries : gmap string triple)
  : gmap string string :=
  map_fold (λ rg_id t (rgds_strings : gmap string string),
              <[rg_id := rgds_string t]> rgds_strings)
    ∅ rgds_entries.

(** The body of the loop of [extend_header] on one [RG] line; a [KeyError]
    of [rg_entry['ID']] or of [new_rgds_strings[...]] leaves the line as it
    is. *)
Definition extend_rg_entry (new_rgds_strings : gmap string string)
    (rg_entry : tags) : tags :=
  match rg_entry !! "ID" with
  | None => rg_entry
  | Some rg_id =>
      match new_rgds_strings !! rg_id with
      | None => rg_entry
      | Some new_ds_string =>
          match rg_entry !! "DS" with
          | Some ds => <["DS" := ds ++ ";" ++ new_ds_string]> rg_entry
          | None => <["DS" := new_ds_string]> rg_entry
          end
      end
  end.

(** [for rg_entry in new_header['RG']: ...], each line being updated in
    place. *)
Fixpoint extend_rg_entries (new_rgds_strings : gmap string string)
    (rg_entries : list tags) : list tags :=
  match rg_entries with
  | [] => []
  | rg_entry :: rest =>
      extend_rg_entry new_rgds_strings rg_entry
      :: extend_rg_entries new_rgds_strings rest
  end.

(** [extend_header(old_header, new_rgds_strings)]: the copy of the header
    with its [RG] lines extended; [new_header['RG']] raises [KeyError] when
    the header has no [RG] line. *)
Definition extend_header (old_header : header)
    (new_rgds_strings : gmap string string) : error + header :=
  let new_header := old_header in
  match new_header !! "RG" with
  | None => inl (KeyError "RG")
  | Some rg_entries =>
      inr (<["RG" := extend_rg_entries new_rgds_strings rg_entries]> new_header)
  end.

(** The first loop of [get_chemistry_info], over the bas files as
    [BasH5Reader] presents them, each with its movie name and its chemistry
    triple: [triple_dict[movie_name] = chem_triple]. *)
Definition triple_dict_of (bas_files : list (string * triple)) : gmap string triple :=
  foldl (λ triple_dict bas_file, <[bas_file.1 := bas_file.2]> triple_dict)
    ∅ bas_files.

Definition err_msg (rg_movie_name : string) : string :=
  "Cannot find chemistry information for movie " ++ rg_movie_name ++ ".".

(** The second loop of [get_chemistry_info], over the [RG] lines of the
    header, with the entries collected and the warnings logged so far. *)
Fixpoint rg_loop (fail_on_missing : bool) (triple_dict : gmap string triple)
    (rg_entries : list tags) (rgds_entries : gmap string triple)
    (warnings : list string) : error + gmap string triple * list string :=
  match rg_entries with
  | [] => inr (rgds_entries, warnings)
  | rg_entry :: rest =>
      match rg_entry !! "ID" with
      | None => inl (KeyError "ID")
      | Some rg_id =>
          match rg_entry !! MOVIENAME_TAG with
          | None => inl (KeyError MOVIENAME_TAG)
          | Some rg_movie_name =>
              match triple_dict !! rg_movie_name with
              | Some rg_chem_triple =>
                  rg_loop fail_on_missing triple_dict rest
                    (<[rg_id := rg_chem_triple]> rgds_entries) warnings
              | None =>
                  if fail_on_missing
                  then inl (ChemistryLoadingException (err_msg rg_movie_name))
                  else rg_loop fail_on_missing triple_dict rest rgds_entries
                         (warnings ++ [err_msg rg_movie_name])
              end
          end
      end
  end.

(** [get_chemistry_info(sam_header, input_filenames, fail_on_missing)], for
    the bas files that the file names stand for: the strings by [RG] id,
    and the warnings logged. Without [RG] lines the result is empty. *)
Definition get_chemistry_info (sam_header : header)
    (bas_files : list (string * triple)) (fail_on_missing : bool)
  : error + gmap string string * list string :=
  let triple_dict := triple_dict_of bas_files in
  match sam_header !! "RG" with
  | None => inr (∅, [])
  | Some rg_entries =>
      match rg_loop fail_on_missing triple_dict rg_entries ∅ [] with
      | inl e => inl e
      | inr (rgds_entries, warnings) =>
          inr (format_rgds_entries rgds_entries, warnings)
      end
  end.

(** [sam_or_bam_filename(val)]: [None] stands for the
    [ArgumentTypeError]. *)
Definition sam_or_bam_filename (val : string) : option string :=
  if negb (PyStr.endswith val ".bam" || PyStr.endswith val ".sam")
  then None
  else Some val.

(** The mode in which [main] opens the output file; in neither branch
    [output_file] stays unbound. *)
Inductive mode : Type := wb | wh.

Definition output_mode (output_header_file : string) : option mode :=
  if PyStr.endswith output_header_file ".bam" then Some wb
  else if PyStr.endswith output_header_file ".sam" then Some wh
  else None.

(** The header that [main] writes, for the header read from the input file
    and the bas files given: [get_chemistry_info] is called without
    [fail_on_missing]. *)
Definition new_header_of (input_header : header)
    (bas_files : list (string * triple)) : error + header * list string :=
  match get_chemistry_info input_header bas_files false with
  | inl e => inl e
  | inr (chemistry_rgds_strings, warnings) =>
      match extend_header input_header chemistry_rgds_strings with
      | inl e => inl e
      | inr new_header => inr (new_header, warnings)
      end
  end.

(** *** Notions used to state the properties *)

(** An [RG] line that has the tags [ID] and [PU]. *)
Definition hasIdAndMovie (rg_entry : tags) : Prop :=
  is_Some (rg_entry !! "ID") ∧ is_Some (rg_entry !! MOVIENAME_TAG).

(** The movies of the [RG] lines for which [triple_dict] has no triple, one
    for each such line, in the order of the lines. *)
Definition missingMovies (triple_dict : gmap string triple)
    (rg_entries : list tags) : list string :=
  filter (λ movie, triple_dict !! movie = None)
    (omap (λ rg_entry : tags, rg_entry !! MOVIENAME_TAG) rg_entries).

(** An [RG] line with the chemistry of its own movie added to its [DS]
    tag, when [triple_dict] has a triple for that movie. *)
Definition withChemistry (triple_dict : gmap string triple)
    (rg_entry : tags) : tags :=
  match rg_entry !! MOVIENAME_TAG ≫= (triple_dict !!.) with
  | None => rg_entry
  | Some t =>
      match rg_entry !! "DS" with
      | Some ds => <["DS" := ds ++ ";" ++ rgds_string t]> rg_entry
      | None => <["DS" := rgds_string t]> rg_entry
      end
  end.

(** A sample header with two read groups, of the movies [M1] and [M7], and
    the bas file of [M1]. *)
Definition sampleHeader : header :=
  {[ "HD" := [ {[ "VN" := "1.4" ]} ];
     "RG" := [ {[ "ID" := "rg1"; "PU" := "M1"; "DS" := "READTYPE=SUBREAD" ]};
               {[ "ID" := "rg2"; "PU" := "M7" ]} ] ]}.

Definition sampleBas : list (string * triple) :=
  [("M1", ("100356300", "100356200", "2.1"))].

End Chemistry.

(** ** What a computation adds to the trace *)

(** The computation [m] only appends calls to the trace, all of them
    satisfying [P]. *)
Definition adds {A : Type} (P : event → Prop) (m : Py A) : Prop :=
  ∀ w, ∃ evs, trace (m w).2 = (trace w ++ evs)%list ∧ Forall P evs.

(** The computation [m] only appends calls to the trace, all of them
    satisfying [P] when the outcome satisfies [Q]. *)
Definition addsWhen {A : Type} (P : event → Prop) (Q : outcome A → Prop)
    (m : Py A) : Prop :=
  ∀ w, ∃ evs, trace (m w).2 = (trace w ++ evs)%list ∧ (Q (m w).1 → Forall P evs).

(** * Properties *)

(** ** The monad *)

Lemma bind_run {A B : Type} (m : Py A) (k : A → Py B) (w : World) :
  (m ≫= k) w = match m w with
               | (Ret a, w') => k a w'
               | (Exc e, w') => (Exc e, w')
               end.
Proof. reflexivity. Qed.

(** ** The alignment index *)

Lemma setdefault_lookup (d : AlignmentIndex) (movie m : string) :
  setdefault d movie !! m =
    match d !! m with
    | Some s => Some s
    | None => if decide (m = movie) then Some ∅ else None
    end.
Proof.
  unfold setdefault. destruct (d !! movie) as [s|] eqn:E.
  - destruct (d !! m) eqn:E'; [done|]. case_decide; [congruence|done].
  - destruct (decide (m = movie)) as [->|Hne].
    + by rewrite lookup_insert_eq, E.
    + rewrite lookup_insert_ne by done. by destruct (d !! m).
Qed.

Lemma seed_lookup (movies : list string) (d : AlignmentIndex) (m : string) :
  foldl setdefault d movies !! m =
    match d !! m with
    | Some s => Some s
    | None => if decide (m ∈ movies) then Some ∅ else None
    end.
Proof.
  revert d. induction movies as [|movie movies IH]; intros d; simpl.
  - by destruct (d !! m).
  - rewrite IH, setdefault_lookup. destruct (d !! m) as [s|]; [done|].
    destruct (decide (m = movie)) as [->|Hne].
    + rewrite decide_True by left. done.
    + destruct (decide (m ∈ movies)) as [Hin|Hnin].
      * rewrite decide_True by (by right). done.
      * rewrite decide_False; [done|]. intros [?|?]%elem_of_cons; done.
Qed.

Lemma holesOf_cons_Aln (movie m : string) (h : Z) (items : list alnItem) :
  holesOf movie (Aln m h :: items) =
    if decide (m = movie) then {[h]} ∪ holesOf movie items else holesOf movie items.
Proof. unfold holesOf. simpl. by case_decide. Qed.

Lemma elem_of_holesOf (movie : string) (h : Z) (items : list alnItem) :
  h ∈ holesOf movie items ↔ Aln movie h ∈ items.
Proof.
  unfold holesOf. rewrite elem_of_list_to_set, list_elem_of_omap. split.
  - intros ([m h'|e] & Hin & Heq); [|done].
    case_decide; [|done]. by simplify_eq.
  - intros Hin. exists (Aln movie h). split; [done|]. by rewrite decide_True.
Qed.

(** Adding the records of [items], all of movies that are keys already, keeps
    the keys and adds to each movie its hole numbers. *)
Lemma addAlignments_ok (items : list alnItem) (d : AlignmentIndex) :
  Forall (λ it, match it with
                | Aln m _ => is_Some (d !! m)
                | IterRaises _ => False
                end) items →
  ∃ d', addAlignments d items = (d', None)
        ∧ ∀ m, d' !! m = (λ s, s ∪ holesOf m items) <$> d !! m.
Proof.
  revert d. induction items as [|[m h|e] items IH]; intros d Hall.
  - exists d. split; [done|]. intros m. destruct (d !! m) as [s|]; simpl; [|done].
    f_equal. unfold holesOf. simpl. by rewrite (right_id_L ∅ (∪)).
  - apply Forall_cons in Hall as [[s Hs] Hall]. simpl. rewrite Hs.
    destruct (IH (<[m := s ∪ {[h]}]> d)) as (d' & Hrun & Hd').
    { eapply Forall_impl; [exact Hall|]. intros [m' h'|e'] H; [|done].
      destruct (decide (m = m')) as [->|Hne].
      - rewrite lookup_insert_eq. eauto.
      - by rewrite lookup_insert_ne. }
    exists d'. split; [done|]. intros m'. rewrite Hd', holesOf_cons_Aln.
    destruct (decide (m = m')) as [->|Hne].
    + rewrite lookup_insert_eq, Hs. simpl. f_equal.
      by rewrite (assoc_L (∪)).
    + by rewrite lookup_insert_ne.
  - apply Forall_cons in Hall as [[] _].
Qed.

Lemma step_step (f1 f2 : gmap string node) (evs1 evs2 : list event) (w : World) :
  step f2 evs2 (step f1 evs1 w) = step f2 (evs1 ++ evs2) w.
Proof. unfold step. simpl. by rewrite <- (assoc_L (++)). Qed.

Lemma record_step (f : gmap string node) (evs1 evs2 : list event) (w : World) :
  record evs2 (step f evs1 w) = step f (evs1 ++ evs2) w.
Proof. apply step_step. Qed.

Lemma record_record (evs1 evs2 : list event) (w : World) :
  record evs2 (record evs1 w) = record (evs1 ++ evs2) w.
Proof. apply step_step. Qed.

Lemma step_record (f : gmap string node) (evs1 evs2 : list event) (w : World) :
  step f evs2 (record evs1 w) = step f (evs1 ++ evs2) w.
Proof. apply step_step. Qed.

Lemma addAlignments_raises (pre post : list alnItem) (e : exn) (d : AlignmentIndex) :
  Forall (λ it, match it with
                | Aln m _ => is_Some (d !! m)
                | IterRaises _ => False
                end) pre →
  addAlignments d (pre ++ IterRaises e :: post)%list = ((addAlignments d pre).1, Some e).
Proof.
  revert d. induction pre as [|[m h|e'] pre IH]; intros d Hall; [done| |].
  - apply Forall_cons in Hall as [[s Hs] Hall]. simpl. rewrite Hs. apply IH.
    eapply Forall_impl; [exact Hall|]. intros [m' h'|?] H; [|done].
    destruct (decide (m = m')) as [->|Hne].
    + rewrite lookup_insert_eq. eauto.
    + by rewrite lookup_insert_ne.
  - apply Forall_cons in Hall as [[] _].
Qed.

Lemma alignmentOf_seeded (movies : list string) (items : list alnItem) :
  Forall (alignmentOf movies) items →
  Forall (λ it, match it with
                | Aln m _ => is_Some (foldl setdefault (∅ : AlignmentIndex) movies !! m)
                | IterRaises _ => False
                end) items.
Proof.
  intros H. eapply Forall_impl; [exact H|]. intros [m h|e] Hm; [|done].
  simpl in Hm. rewrite seed_lookup, lookup_empty, decide_True by done. eauto.
Qed.

(** The index built from a movie table and records of its movies. *)
Lemma indexOf_lookup (movies : list string) (items : list alnItem) (m : string) :
  Forall (alignmentOf movies) items →
  indexOf movies items !! m =
    if decide (m ∈ movies) then Some (holesOf m items) else None.
Proof.
  intros Hall. unfold indexOf.
  destruct (addAlignments_ok items (foldl setdefault ∅ movies)) as (d' & -> & Hd').
  { by apply alignmentOf_seeded. }
  simpl. rewrite Hd', seed_lookup, lookup_empty.
  case_decide; simpl; [|done]. f_equal. by rewrite (left_id_L ∅ (∪)).
Qed.

Lemma extract_returns (self : AlignedReadsMasker) (w : World) (c : CmpH5)
    (d : AlignmentIndex) :
  fs w !! OsPath.abspath (cwd w) (inCmpFile self) = Some (CmpFile (inr c)) →
  addAlignments (foldl setdefault ∅ (movieInfoTable_Name c)) (alignments c) = (d, None) →
  _extractAlignedReads self w =
    (Ret d, record [CmpReaderOpen (OsPath.abspath (cwd w) (inCmpFile self));
                    CmpReaderClose (OsPath.abspath (cwd w) (inCmpFile self))] w).
Proof.
  intros Hfile Hadd. unfold _extractAlignedReads, CmpH5Reader. rewrite Hfile.
  simpl. rewrite Hadd. unfold CmpH5Reader_close, emit. rewrite bind_run.
  by rewrite record_record.
Qed.

Lemma extract_caught (self : AlignedReadsMasker) (w : World) (c : CmpH5)
    (d : AlignmentIndex) (e : exn) :
  fs w !! OsPath.abspath (cwd w) (inCmpFile self) = Some (CmpFile (inr c)) →
  addAlignments (foldl setdefault ∅ (movieInfoTable_Name c)) (alignments c) = (d, Some e) →
  e = IndexError ∨ e = EmptyCmpH5Error →
  _extractAlignedReads self w =
    (Ret d, record [CmpReaderOpen (OsPath.abspath (cwd w) (inCmpFile self));
                    StderrWrite (noAlignedReadsMsg self ++ newline);
                    Log WARNING (noAlignedReadsMsg self)] w).
Proof.
  intros Hfile Hadd He. unfold _extractAlignedReads, CmpH5Reader. rewrite Hfile.
  simpl. rewrite Hadd.
  destruct He as [-> | ->]; simpl; unfold logging, emit;
    by rewrite !bind_run, !record_record.
Qed.

Lemma extract_open_caught (self : AlignedReadsMasker) (w : World) (e : exn) :
  fs w !! OsPath.abspath (cwd w) (inCmpFile self) = Some (CmpFile (inl e)) →
  e = IndexError ∨ e = EmptyCmpH5Error →
  _extractAlignedReads self w =
    (Ret ∅, record [StderrWrite (noAlignedReadsMsg self ++ newline);
                    Log WARNING (noAlignedReadsMsg self)] w).
Proof.
  intros Hfile He. unfold _extractAlignedReads, CmpH5Reader. rewrite Hfile.
  destruct He as [-> | ->]; simpl; unfold logging, emit;
    by rewrite !bind_run, !record_record.
Qed.

Lemma extract_missing (self : AlignedReadsMasker) (w : World) :
  fs w !! OsPath.abspath (cwd w) (inCmpFile self) = None →
  _extractAlignedReads self w = (Exc (IOError (inCmpFile self)), w).
Proof.
  intros Hfile. unfold _extractAlignedReads, CmpH5Reader. by rewrite Hfile.
Qed.

Lemma isAligned_true (d : AlignmentIndex) (movie : string) (h : Z) :
  isAligned d movie h = true ↔ ∃ holes, d !! movie = Some holes ∧ h ∈ holes.
Proof.
  unfold isAligned. destruct (d !! movie) as [s|]; split.
  - intros H%bool_decide_eq_true. eauto.
  - intros (s' & [= <-] & H). by apply bool_decide_eq_true.
  - done.
  - by intros (? & ? & _).
Qed.

(** C6: when the archive opens and yields its alignment records, each of a
    movie of the movie table, the index build returns a mapping whose keys are
    exactly the movie names of the movie table, a movie without aligned reads
    being mapped to the empty set, and in which each movie is mapped to the
    set of the hole numbers of its records, however often a hole number
    occurs. *)
Theorem extractAlignedReads_index (self : AlignedReadsMasker) (w : World) (c : CmpH5) :
  fs w !! OsPath.abspath (cwd w) (inCmpFile self) = Some (CmpFile (inr c)) →
  Forall (alignmentOf (movieInfoTable_Name c)) (alignments c) →
  ∃ (alignedReads : AlignmentIndex) (w' : World),
    _extractAlignedReads self w = (Ret alignedReads, w')
    ∧ fs w' = fs w
    ∧ (∀ movie, is_Some (alignedReads !! movie) ↔ movie ∈ movieInfoTable_Name c)
    ∧ (∀ movie, movie ∈ movieInfoTable_Name c →
         ∃ holes, alignedReads !! movie = Some holes
                  ∧ ∀ h, h ∈ holes ↔ Aln movie h ∈ alignments c)
    ∧ (∀ movie, movie ∈ movieInfoTable_Name c →
         (∀ h, Aln movie h ∉ alignments c) → alignedReads !! movie = Some ∅).
Proof.
  intros Hfile Hall.
  assert (Hlookup := λ m, indexOf_lookup (movieInfoTable_Name c) (alignments c) m Hall).
  exists (indexOf (movieInfoTable_Name c) (alignments c)). eexists.
  split; [|split; [|split; [|split]]].
  - apply (extract_returns _ _ c); [done|]. unfold indexOf.
    destruct (addAlignments_ok (alignments c)
                (foldl setdefault ∅ (movieInfoTable_Name c))) as (d' & -> & _);
      [by apply alignmentOf_seeded|done].
  - done.
  - intros movie. rewrite Hlookup. case_decide; split; try done; eauto.
  - intros movie Hin. rewrite Hlookup, decide_True by done.
    eexists. split; [done|]. intros h. apply elem_of_holesOf.
  - intros movie Hin Hnone. rewrite Hlookup, decide_True by done. f_equal.
    apply set_eq. intros h. rewrite elem_of_holesOf. split.
    + intros H. by apply Hnone in H.
    + by intros ?%not_elem_of_empty.
Qed.

(** ** [maskAlignedReads] and [run] around the index build *)

Lemma maskAlignedReads_extract (self : AlignedReadsMasker) (w : World) :
  maskAlignedReads self w =
    match _extractAlignedReads self (record startLogs w) with
    | (Ret alignedReads, w') => maskWith self alignedReads w'
    | (Exc e, w') => (Exc e, w')
    end.
Proof.
  unfold maskAlignedReads, logging, emit. rewrite !bind_run, record_record.
  reflexivity.
Qed.

Lemma run_maskAlignedReads (inCmp inFofn outFofn : string) (w : World) :
  run inCmp inFofn outFofn w =
    match maskAlignedReads (mkAlignedReadsMasker inCmp inFofn outFofn) w with
    | (Ret _, w') => (Ret 0, w')
    | (Exc e, w') => (Ret 1, record [LogException e; PrintExc e] w')
    end.
Proof.
  unfold run. destruct (maskAlignedReads _ w) as [[code|e] w']; [done|].
  unfold emit. by rewrite !bind_run, record_record.
Qed.

(** C9: when iterating over the archive raises [IndexError] after records
    have been inserted, the exception is caught, the message [No aligned
    reads found in ...] goes to the error stream and to the log, and the
    index built so far, which holds every read inserted before the exception
    and so is not empty, is returned and is the one the masking runs with. *)
Theorem extractAlignedReads_IndexError (self : AlignedReadsMasker) (w : World)
    (c : CmpH5) (pre post : list alnItem) :
  fs w !! OsPath.abspath (cwd w) (inCmpFile self) = Some (CmpFile (inr c)) →
  alignments c = (pre ++ IterRaises IndexError :: post)%list →
  Forall (alignmentOf (movieInfoTable_Name c)) pre →
  pre ≠ [] →
  _extractAlignedReads self w =
    (Ret (indexOf (movieInfoTable_Name c) pre),
     record [CmpReaderOpen (OsPath.abspath (cwd w) (inCmpFile self));
             StderrWrite (noAlignedReadsMsg self ++ newline);
             Log WARNING (noAlignedReadsMsg self)] w)
  ∧ (∀ movie h, Aln movie h ∈ pre →
       isAligned (indexOf (movieInfoTable_Name c) pre) movie h = true)
  ∧ indexOf (movieInfoTable_Name c) pre ≠ ∅
  ∧ maskAlignedReads self w =
      maskWith self (indexOf (movieInfoTable_Name c) pre)
        (record (startLogs ++
                 [CmpReaderOpen (OsPath.abspath (cwd w) (inCmpFile self));
                  StderrWrite (noAlignedReadsMsg self ++ newline);
                  Log WARNING (noAlignedReadsMsg self)]) w).
Proof.
  intros Hfile Hitems Hall Hne.
  assert (Hextract : ∀ w0, fs w0 = fs w → cwd w0 = cwd w →
    _extractAlignedReads self w0 =
      (Ret (indexOf (movieInfoTable_Name c) pre),
       record [CmpReaderOpen (OsPath.abspath (cwd w) (inCmpFile self));
               StderrWrite (noAlignedReadsMsg self ++ newline);
               Log WARNING (noAlignedReadsMsg self)] w0)).
  { intros w0 Hfs Hcwd. rewrite <- Hcwd.
    apply (extract_caught self w0 c _ IndexError); [by rewrite Hfs, Hcwd| |by left].
    rewrite Hitems. apply addAlignments_raises. by apply alignmentOf_seeded. }
  assert (Haligned : ∀ movie h, Aln movie h ∈ pre →
    isAligned (indexOf (movieInfoTable_Name c) pre) movie h = true).
  { intros movie h Hin. apply isAligned_true.
    rewrite indexOf_lookup by done.
    rewrite Forall_forall in Hall. specialize (Hall _ Hin). simpl in Hall.
    rewrite decide_True by done. eexists. split; [done|].
    by apply elem_of_holesOf. }
  split; [by apply Hextract|]. split; [done|]. split.
  - destruct pre as [|[movie h|e] pre']; [done| |].
    + intros Hempty. specialize (Haligned movie h ltac:(left)).
      rewrite Hempty in Haligned. unfold isAligned in Haligned.
      by rewrite lookup_empty in Haligned.
    + by apply Forall_cons in Hall as [[] _].
  - rewrite maskAlignedReads_extract, (Hextract (record startLogs w)) by done.
    by rewrite record_record.
Qed.

(** ** Masking one record *)

Section Records.
Import RgnH5IO.
Local Arguments isHqRegion : simpl never.

Lemma isHqRegion_setStartAndEnd (r : Region) (s e : Z) :
  isHqRegion (setStartAndEnd r s e) = isHqRegion r.
Proof. reflexivity. Qed.

Lemma find_setHQ (s e : Z) (rs : list Region) :
  List.find isHqRegion (setHQ s e rs)
  = (λ r, setStartAndEnd r s e) <$> List.find isHqRegion rs.
Proof.
  induction rs as [|r rs IH]; [done|]. simpl.
  destruct (isHqRegion r) eqn:E; simpl.
  - by rewrite ?isHqRegion_setStartAndEnd, E.
  - by rewrite E, IH.
Qed.

Lemma otherRegions_setHQ (s e : Z) (rs : list Region) :
  otherRegions (setHQ s e rs) = otherRegions rs.
Proof.
  induction rs as [|r rs IH]; [done|]. simpl.
  destruct (isHqRegion r) eqn:E; simpl.
  - by rewrite ?isHqRegion_setStartAndEnd, E.
  - by rewrite E, IH.
Qed.

Lemma setHQ_setHQ (s e s' e' : Z) (rs : list Region) :
  setHQ s e (setHQ s' e' rs) = setHQ s e rs.
Proof.
  induction rs as [|r rs IH]; [done|]. simpl.
  destruct (isHqRegion r) eqn:E; simpl.
  - by rewrite ?isHqRegion_setStartAndEnd, E.
  - by rewrite E, IH.
Qed.

Lemma setHQ_without (s e : Z) (rs : list Region) :
  List.find isHqRegion rs = None → setHQ s e rs = rs.
Proof.
  induction rs as [|r rs IH]; [done|]. simpl.
  destruct (isHqRegion r); [done|]. intros H. by rewrite IH.
Qed.

Lemma setHQ_types_scores (s e : Z) (rs : list Region) :
  regionType <$> setHQ s e rs = regionType <$> rs
  ∧ regionScore <$> setHQ s e rs = regionScore <$> rs.
Proof.
  induction rs as [|r rs [IH1 IH2]]; [done|]. simpl.
  destruct (isHqRegion r); [done|]. rewrite !fmap_cons. by rewrite IH1, IH2.
Qed.

Lemma hqRegion_setHQRegion (rt : RegionTable) (s e : Z) :
  hqRegion (setHQRegion rt s e) = (λ r, setStartAndEnd r s e) <$> hqRegion rt.
Proof. apply find_setHQ. Qed.

Lemma setHQRegion_without (rt : RegionTable) (s e : Z) :
  hqRegion rt = None → setHQRegion rt s e = rt.
Proof.
  intros H. destruct rt as [h rs]. unfold setHQRegion. simpl.
  by rewrite setHQ_without.
Qed.

(** C8: masking a masked record again gives the same record, and masking
    changes nothing but the start and the end of the HQRegion, which become
    zero: the hole number, the score of the HQRegion, the type and the score
    of every sub-region and all the other sub-regions are kept. The same
    holds of the masking step of the loop, whatever the index. *)
Theorem setHQRegion_idempotent (rt : RegionTable) :
  setHQRegion (setHQRegion rt 0 0) 0 0 = setHQRegion rt 0 0
  ∧ hqSpan (setHQRegion rt 0 0) = (λ _, (0, 0)) <$> hqRegion rt
  ∧ regionScore <$> hqRegion (setHQRegion rt 0 0) = regionScore <$> hqRegion rt
  ∧ regionScore <$> regions (setHQRegion rt 0 0) = regionScore <$> regions rt
  ∧ regionType <$> regions (setHQRegion rt 0 0) = regionType <$> regions rt
  ∧ otherRegions (regions (setHQRegion rt 0 0)) = otherRegions (regions rt)
  ∧ holeNumber (setHQRegion rt 0 0) = holeNumber rt
  ∧ ∀ (alignedReads : AlignmentIndex) (movieName : string),
      maskRegionTable alignedReads movieName
        (maskRegionTable alignedReads movieName rt)
      = maskRegionTable alignedReads movieName rt.
Proof.
  assert (Hidem : setHQRegion (setHQRegion rt 0 0) 0 0 = setHQRegion rt 0 0).
  { unfold setHQRegion. simpl. by rewrite setHQ_setHQ. }
  repeat split.
  - exact Hidem.
  - unfold hqSpan. rewrite hqRegion_setHQRegion. by destruct (hqRegion rt).
  - rewrite hqRegion_setHQRegion. by destruct (hqRegion rt).
  - apply setHQ_types_scores.
  - apply setHQ_types_scores.
  - apply otherRegions_setHQ.
  - intros alignedReads movieName. unfold maskRegionTable.
    destruct (isAligned alignedReads movieName (holeNumber rt)) eqn:E.
    + simpl. by rewrite E.
    + by rewrite E.
Qed.

(** What the loop hands to the writer for one record. *)
Lemma maskRegionTable_cases (alignedReads : AlignmentIndex) (movieName : string)
    (rt : RegionTable) :
  holeNumber (maskRegionTable alignedReads movieName rt) = holeNumber rt
  ∧ otherRegions (regions (maskRegionTable alignedReads movieName rt))
    = otherRegions (regions rt)
  ∧ regionScore <$> hqRegion (maskRegionTable alignedReads movieName rt)
    = regionScore <$> hqRegion rt
  ∧ (isAligned alignedReads movieName (holeNumber rt) = true →
     is_Some (hqRegion rt) →
     hqSpan (maskRegionTable alignedReads movieName rt) = Some (0, 0))
  ∧ (¬ (isAligned alignedReads movieName (holeNumber rt) = true
        ∧ is_Some (hqRegion rt)) →
     maskRegionTable alignedReads movieName rt = rt).
Proof.
  unfold maskRegionTable.
  destruct (isAligned alignedReads movieName (holeNumber rt)) eqn:E.
  - repeat split.
    + apply otherRegions_setHQ.
    + rewrite hqRegion_setHQRegion. by destruct (hqRegion rt).
    + intros _ [r Hr]. unfold hqSpan. by rewrite hqRegion_setHQRegion, Hr.
    + intros Hnot. apply setHQRegion_without.
      destruct (hqRegion rt) eqn:Hr; [|done]. destruct Hnot. eauto.
  - repeat split; try done. 
Qed.

End Records.

(** ** Files and directories *)

Lemma step_id (w : World) : step (fs w) [] w = w.
Proof. destruct w. unfold step. simpl. by rewrite app_nil_r. Qed.

Lemma abspath_nonempty (cwd path : string) :
  String.eqb (OsPath.abspath cwd path) EmptyString = false.
Proof.
  unfold OsPath.abspath, OsPath.normpath.
  destruct (String.eqb (if OsPath.isabs path then path else OsPath.join cwd path)
              EmptyString); [done|].
  match goal with |- context [if String.eqb ?s EmptyString then _ else _] =>
    destruct (String.eqb s EmptyString) eqn:E end; done.
Qed.

Lemma not_dir_lookup (files : gmap string node) (k : string) :
  is_dir files k = false → files !! k ≠ Some Dir.
Proof.
  unfold is_dir. intros [_ H%bool_decide_eq_false]%orb_false_iff. done.
Qed.

Lemma is_dir_insert (files : gmap string node) (k d : string) (n : node) :
  n ≠ Dir → files !! k ≠ Some Dir →
  is_dir (<[k := n]> files) d = is_dir files d.
Proof.
  intros Hn Hk. unfold is_dir. f_equal.
  destruct (decide (k = d)) as [->|Hne].
  - rewrite lookup_insert_eq.
    rewrite !bool_decide_eq_false_2; [done|done|congruence].
  - by rewrite lookup_insert_ne.
Qed.

Lemma is_dir_appended (files : gmap string node) (f s d : string) :
  is_dir (appended f s files) d = is_dir files d.
Proof.
  unfold appended. destruct (files !! f) as [[| c | |]|] eqn:E; try done.
  apply is_dir_insert; [done|congruence].
Qed.

Lemma appended_lookup_ne (files : gmap string node) (f s k : string) :
  f ≠ k → appended f s files !! k = files !! k.
Proof.
  intros Hne. unfold appended.
  destruct (files !! f) as [[| c | |]|]; try done. by rewrite lookup_insert_ne.
Qed.

Lemma appended_lookup_rgn (files : gmap string node) (f s k : string)
    (sd : option RgnH5IO.ScanData) (tables : list RgnH5IO.RegionTable) :
  files !! k = Some (RgnH5 sd tables) →
  appended f s files !! k = Some (RgnH5 sd tables).
Proof.
  intros Hk. destruct (decide (f = k)) as [->|Hne].
  - unfold appended. by rewrite Hk.
  - by rewrite appended_lookup_ne.
Qed.

Lemma appended_text (files : gmap string node) (f s content : string) :
  files !! f = Some (Text content) →
  appended f s files !! f = Some (Text (content ++ s)).
Proof. intros Hf. unfold appended. by rewrite Hf, lookup_insert_eq. Qed.

Lemma appended_is_Some (files : gmap string node) (f s k : string) :
  is_Some (files !! k) → is_Some (appended f s files !! k).
Proof.
  intros Hk. unfold appended. destruct (files !! f) as [[| c | |]|] eqn:E; try done.
  destruct (decide (f = k)) as [->|Hne].
  - rewrite lookup_insert_eq. eauto.
  - by rewrite lookup_insert_ne.
Qed.

Lemma cwd_step (f : gmap string node) (evs : list event) (w : World) :
  cwd (step f evs w) = cwd w.
Proof. reflexivity. Qed.

Lemma fs_step (f : gmap string node) (evs : list event) (w : World) :
  fs (step f evs w) = f.
Proof. reflexivity. Qed.

Lemma trace_step (f : gmap string node) (evs : list event) (w : World) :
  trace (step f evs w) = (trace w ++ evs)%list.
Proof. reflexivity. Qed.

Ltac py_step :=
  rewrite bind_run; cbn beta iota; unfold record;
  rewrite ?step_step, ?cwd_step, ?fs_step.

(** ** The loop over the records of one file *)

Lemma maskRegionTables_run (alignedReads : AlignmentIndex) (movieName k : string)
    (rts : list RgnH5IO.RegionTable) (w : World) :
  maskRegionTables alignedReads movieName k rts w =
    (Ret tt,
     step (match fs w !! k with
           | Some (RgnH5 sd tables) =>
               <[k := RgnH5 sd (tables ++ (maskRegionTable alignedReads movieName <$> rts))]>
                 (fs w)
           | _ => fs w
           end)
          (AddRegionTable k <$> (maskRegionTable alignedReads movieName <$> rts)) w).
Proof.
  revert w. induction rts as [|rt rts IH]; intros w.
  - simpl. f_equal. rewrite <- (step_id w) at 1. f_equal.
    destruct (fs w !! k) as [[| | sd tables |]|] eqn:E; try done.
    by rewrite app_nil_r, insert_id.
  - simpl. rewrite bind_run. unfold addRegionTable. rewrite IH.
    unfold step. simpl. rewrite <- (assoc_L (++)). do 2 f_equal.
    destruct (fs w !! k) as [[| | sd tables |]|] eqn:E; simpl; rewrite ?E; try done.
    rewrite lookup_insert_eq, insert_insert_eq. by rewrite <- (assoc_L (++)).
Qed.

(** ** One round of the loop over the manifest, in closed form *)

Lemma maskRgnH5_run (alignedReads : AlignmentIndex) (outDir fofn name : string)
    (w : World) :
  maskRgnH5 alignedReads outDir fofn name w =
    match fs w !! OsPath.abspath (cwd w) name with
    | Some (RgnH5 (Some sd) inp) =>
        let p := outH5FN (cwd w) outDir
                   (movieId (OsPath.basename name) (RgnH5IO.MovieName sd)) in
        let k := OsPath.abspath (cwd w) p in
        if is_dir (fs w) k || negb (is_dir (fs w) (parent k)) then
          (Exc (IOError p),
           step (appended fofn (p ++ newline) (fs w))
             [RgnReaderOpen (OsPath.abspath (cwd w) name);
              FileWrite fofn (p ++ newline)] w)
        else
          (Ret tt,
           step (<[k := RgnH5 (Some sd)
                          (maskRegionTable alignedReads (RgnH5IO.MovieName sd) <$> inp)]>
                   (appended fofn (p ++ newline) (fs w)))
             (roundTrace fofn (OsPath.abspath (cwd w) name) name p k sd
                (maskRegionTable alignedReads (RgnH5IO.MovieName sd) <$> inp)) w)
    | _ => (Exc (IOError name), w)
    end.
Proof.
  unfold maskRgnH5. rewrite bind_run. unfold RgnH5Reader.
  destruct (fs w !! OsPath.abspath (cwd w) name) as [[| | [sd|] inp |]|] eqn:Hin;
    try done.
  cbv zeta. unfold movieName. cbn [scanDataGroup readerTables readerPath].
  py_step. unfold file_write. py_step. unfold RgnH5Writer at 1. py_step.
  unfold outH5FN at 1. rewrite abspath_nonempty, !is_dir_appended.
  cbn [orb].
  set (p := outH5FN (cwd w) outDir _).
  set (k := OsPath.abspath (cwd w) p).
  destruct (is_dir (fs w) k || negb (is_dir (fs w) (parent k))); [done|].
  cbn beta iota. unfold writeScanDataGroup. py_step.
  unfold logging, emit. py_step.
  rewrite bind_run, maskRegionTables_run. cbn beta iota.
  rewrite ?step_step, ?cwd_step, ?fs_step.
  unfold RgnH5Reader_close, RgnH5Writer_close, emit.
  cbn [readerPath]. py_step.
  rewrite !lookup_insert_eq, !insert_insert_eq.
  unfold roundTrace. by rewrite <- !(assoc_L (++)).
Qed.

(** ** The loop over the manifest *)

Lemma maskRgnH5s_good (alignedReads : AlignmentIndex) (outDir fofn name : string)
    (rest : list string) (w : World) :
  PyStr.endswith name "rgn.h5" = true →
  maskRgnH5s alignedReads outDir fofn (name :: rest) w =
    match maskRgnH5 alignedReads outDir fofn name w with
    | (Ret _, w') => maskRgnH5s alignedReads outDir fofn rest w'
    | (Exc e, w') => (Exc e, w')
    end.
Proof. intros H. simpl. rewrite H. simpl. by rewrite bind_run. Qed.

Lemma maskRgnH5s_bad (alignedReads : AlignmentIndex) (outDir fofn name : string)
    (rest : list string) (w : World) :
  PyStr.endswith name "rgn.h5" = false →
  maskRgnH5s alignedReads outDir fofn (name :: rest) w =
    (Ret (Some 1), record [Log ERROR (notRgnH5Msg name)] w).
Proof. intros H. simpl. rewrite H. simpl. unfold logging, emit. by rewrite bind_run. Qed.

(** C3, as amended: the suffix [rgn.h5] of a line is checked when the loop
    reaches the line and not before. The lines before the first line of
    another suffix are processed exactly as they would be if the manifest
    ended there, their output files and manifest lines being written; then
    the error is logged and [maskAlignedReads] leaves the loop with 1,
    whatever follows the line. *)
Theorem manifest_checked_line_by_line (alignedReads : AlignmentIndex)
    (outDir fofn : string) (pre : list string) (bad : string)
    (post : list string) (w : World) :
  Forall (λ name, PyStr.endswith name "rgn.h5" = true) pre →
  PyStr.endswith bad "rgn.h5" = false →
  maskRgnH5s alignedReads outDir fofn (pre ++ bad :: post) w =
    match maskRgnH5s alignedReads outDir fofn pre w with
    | (Ret _, w') => (Ret (Some 1), record [Log ERROR (notRgnH5Msg bad)] w')
    | (Exc e, w') => (Exc e, w')
    end.
Proof.
  intros Hpre Hbad. revert w.
  induction Hpre as [|name pre Hname Hpre IH]; intros w.
  - simpl app. by rewrite maskRgnH5s_bad.
  - rewrite <- app_comm_cons, !maskRgnH5s_good by done.
    destruct (maskRgnH5 alignedReads outDir fofn name w) as [[[]|e] w1]; [|done].
    apply IH.
Qed.

(** ** The masking pass over one file *)

Lemma maskRegionTable_maskedAs (alignedReads : AlignmentIndex) (movieName : string)
    (rt : RgnH5IO.RegionTable) :
  maskedAs alignedReads movieName rt (maskRegionTable alignedReads movieName rt).
Proof.
  destruct (maskRegionTable_cases alignedReads movieName rt)
    as (Hhole & Hother & Hscore & Hmask & Hkeep).
  unfold maskedAs. repeat split; try done.
  - intros Hspan.
    destruct (isAligned alignedReads movieName (RgnH5IO.holeNumber rt)) eqn:Ea;
      [destruct (RgnH5IO.hqRegion rt) eqn:Eh|].
    + left. eauto.
    + right. rewrite Hkeep in Hspan; [done|]. by intros [_ [? ?]].
    + right. rewrite Hkeep in Hspan; [done|]. by intros [? _].
  - intros [[Ha Hhq]|Hspan]; [by apply Hmask|].
    destruct (isAligned alignedReads movieName (RgnH5IO.holeNumber rt)) eqn:Ea;
      [destruct (RgnH5IO.hqRegion rt) eqn:Eh|].
    + apply Hmask; eauto.
    + rewrite Hkeep; [done|]. by intros [_ [? ?]].
    + rewrite Hkeep; [done|]. by intros [? _].
Qed.

Lemma Forall2_fmap_self {A B : Type} (P : A → B → Prop) (f : A → B) (l : list A) :
  (∀ x, P x (f x)) → Forall2 P l (f <$> l).
Proof. intros H. induction l; constructor; auto. Qed.

(** C1, as amended: the masking pass over a region-table file that can be
    read, with an output file that can be created, writes one record for
    each record read, in the same order and with the same hole number. The
    record of a read that is in the index under the movie name of the file
    and has an HQRegion gets the HQRegion offsets (0, 0), its score and its
    other sub-regions being kept; every other record is written as it was
    read. So the HQRegion written is (0, 0) if and only if the read is in
    the index and has an HQRegion, or its HQRegion was (0, 0) already. *)
Theorem masking_pass_pointwise (alignedReads : AlignmentIndex)
    (outDir fofn name : string) (w : World) (sd : RgnH5IO.ScanData)
    (inp : list RgnH5IO.RegionTable) :
  fs w !! OsPath.abspath (cwd w) name = Some (RgnH5 (Some sd) inp) →
  is_dir (fs w)
    (OsPath.abspath (cwd w)
       (outH5FN (cwd w) outDir
          (movieId (OsPath.basename name) (RgnH5IO.MovieName sd)))) = false →
  is_dir (fs w)
    (parent (OsPath.abspath (cwd w)
       (outH5FN (cwd w) outDir
          (movieId (OsPath.basename name) (RgnH5IO.MovieName sd))))) = true →
  ∃ (w' : World) (out : list RgnH5IO.RegionTable),
    maskRgnH5 alignedReads outDir fofn name w = (Ret tt, w')
    ∧ fs w' !! OsPath.abspath (cwd w)
                 (outH5FN (cwd w) outDir
                    (movieId (OsPath.basename name) (RgnH5IO.MovieName sd)))
      = Some (RgnH5 (Some sd) out)
    ∧ length out = length inp
    ∧ RgnH5IO.holeNumber <$> out = RgnH5IO.holeNumber <$> inp
    ∧ Forall2 (maskedAs alignedReads (RgnH5IO.MovieName sd)) inp out.
Proof.
  intros Hin Hk Hparent.
  eexists. exists (maskRegionTable alignedReads (RgnH5IO.MovieName sd) <$> inp).
  split; [|split; [|split; [|split]]].
  - rewrite maskRgnH5_run, Hin. cbv zeta. rewrite Hk, Hparent. reflexivity.
  - rewrite fs_step. apply lookup_insert_eq.
  - apply length_fmap.
  - rewrite <- list_fmap_compose. apply list_fmap_ext. intros _ rt _.
    apply maskRegionTable_cases.
  - apply Forall2_fmap_self. apply maskRegionTable_maskedAs.
Qed.

Lemma masking_pass_pointwise_witness :
  ∃ (w' : World) (out : list RgnH5IO.RegionTable),
    maskRgnH5 sampleIndex "out" "/work/out.fofn" "a.rgn.h5" openedWorld = (Ret tt, w')
    ∧ fs w' !! "/work/out/M1.rgn.h5" = Some (RgnH5 (Some scanM1) out)
    ∧ length out = 4%nat
    ∧ RgnH5IO.holeNumber <$> out = [7; 8; 9; 10]
    ∧ Forall2 (maskedAs sampleIndex "M1") [read7; read8; read9; read10] out.
Proof.
  apply (masking_pass_pointwise sampleIndex "out" "/work/out.fofn" "a.rgn.h5"
           openedWorld scanM1 [read7; read8; read9; read10]);
    vm_compute; reflexivity.
Defined.

(** The claim C1 as it stands fails on a record whose HQRegion is (0, 0) in
    the input: the record of read 9 is written with the HQRegion (0, 0)
    although read 9 is not in the index. *)
Lemma selectivity_counterexample :
  isAligned sampleIndex "M1" 9 = false
  ∧ tablesAt (fs (run "in.cmp.h5" "in.fofn" "out.fofn" (sampleWorld ["a.rgn.h5"])).2)
      "/work/out/M1.rgn.h5"
    = [RgnH5IO.setHQRegion read7 0 0; read8; read9; read10]
  ∧ ¬ pointwiseSelective sampleIndex "M1"
        (tablesAt (fs (sampleWorld ["a.rgn.h5"])) "/work/a.rgn.h5")
        (tablesAt (fs (run "in.cmp.h5" "in.fofn" "out.fofn"
                         (sampleWorld ["a.rgn.h5"])).2)
           "/work/out/M1.rgn.h5").
Proof.
  assert (Hout : tablesAt (fs (run "in.cmp.h5" "in.fofn" "out.fofn"
                                 (sampleWorld ["a.rgn.h5"])).2)
                   "/work/out/M1.rgn.h5"
                 = [RgnH5IO.setHQRegion read7 0 0; read8; read9; read10])
    by (vm_compute; reflexivity).
  assert (Hnine : isAligned sampleIndex "M1" 9 = false) by (vm_compute; reflexivity).
  split; [exact Hnine|]. split; [exact Hout|].
  rewrite Hout.
  replace (tablesAt (fs (sampleWorld ["a.rgn.h5"])) "/work/a.rgn.h5")
    with [read7; read8; read9; read10] by (vm_compute; reflexivity).
  intros (_ & _ & HF).
  apply Forall2_cons_1 in HF as [_ HF]. apply Forall2_cons_1 in HF as [_ HF].
  apply Forall2_cons_1 in HF as [Hsel _]. destruct Hsel as [[Hiff _] _].
  destruct (Hiff eq_refl) as [Ha _].
  change (RgnH5IO.holeNumber read9) with 9 in Ha. congruence.
Qed.

(** ** Files are never removed *)

Lemma grows_refl (w : World) : grows w w.
Proof. by split. Qed.

Lemma grows_trans (w1 w2 w3 : World) : grows w1 w2 → grows w2 w3 → grows w1 w3.
Proof. intros [Hc1 H1] [Hc2 H2]. split; [congruence|auto]. Qed.

Lemma grows_record (evs : list event) (w : World) : grows w (record evs w).
Proof. by split. Qed.

Lemma grows_insert (k : string) (n : node) (evs : list event) (w : World) :
  grows w (step (<[k := n]> (fs w)) evs w).
Proof.
  split; [done|]. intros k' Hk'. rewrite fs_step.
  destruct (decide (k = k')) as [->|Hne].
  - rewrite lookup_insert_eq. eauto.
  - by rewrite lookup_insert_ne.
Qed.

Lemma grows_appended (f s : string) (evs : list event) (w : World) :
  grows w (step (appended f s (fs w)) evs w).
Proof. split; [done|]. intros k Hk. by apply appended_is_Some. Qed.

Create HintDb world.
#[local] Hint Resolve grows_refl grows_record grows_insert grows_appended : world.

Lemma maskRgnH5_grows (alignedReads : AlignmentIndex) (outDir fofn name : string)
    (w w' : World) (r : outcome unit) :
  maskRgnH5 alignedReads outDir fofn name w = (r, w') → grows w w'.
Proof.
  rewrite maskRgnH5_run.
  generalize (fs w !! OsPath.abspath (cwd w) name).
  intros [[| c | [sd|] inp | o]|];
    [intros [= <- <-]; auto with world..| |
     intros [= <- <-]; auto with world | intros [= <- <-]; auto with world
     | intros [= <- <-]; auto with world].
  cbv zeta.
  generalize (is_dir (fs w)
                (OsPath.abspath (cwd w)
                   (outH5FN (cwd w) outDir
                      (movieId (OsPath.basename name) (RgnH5IO.MovieName sd))))
              || negb (is_dir (fs w)
                         (parent (OsPath.abspath (cwd w)
                            (outH5FN (cwd w) outDir
                               (movieId (OsPath.basename name)
                                  (RgnH5IO.MovieName sd))))))).
  intros []; intros [= <- <-].
  - auto with world.
  - split; [done|]. intros k Hk. rewrite fs_step.
    match goal with |- is_Some (<[?k0 := _]> _ !! _) =>
      destruct (decide (k0 = k)) as [->|Hne] end.
    + rewrite lookup_insert_eq. eauto.
    + rewrite lookup_insert_ne by done. by apply appended_is_Some.
Qed.

(** A loop over lines one of which has the wrong suffix does not run to its
    end: if it returns, it returns 1, having logged the error last. *)
Lemma maskRgnH5s_with_bad (alignedReads : AlignmentIndex) (outDir fofn : string)
    (names : list string) (bad : string) (w w' : World) (r : option Z) :
  bad ∈ names → PyStr.endswith bad "rgn.h5" = false →
  maskRgnH5s alignedReads outDir fofn names w = (Ret r, w') →
  r = Some 1 ∧ grows w w'
  ∧ ∃ line, line ∈ names ∧ PyStr.endswith line "rgn.h5" = false
            ∧ last (trace w') = Some (Log ERROR (notRgnH5Msg line)).
Proof.
  intros Hin Hbad. revert w. induction names as [|name names IH]; intros w.
  - by apply elem_of_nil in Hin.
  - destruct (PyStr.endswith name "rgn.h5") eqn:Hname.
    + rewrite maskRgnH5s_good by done.
      destruct (maskRgnH5 alignedReads outDir fofn name w) as [[[]|e] w1] eqn:Hround;
        [|done].
      intros Hrest. apply elem_of_cons in Hin as [->|Hin]; [congruence|].
      destruct (IH Hin _ Hrest) as (-> & Hgrows & line & Hline & Hsuffix & Hlast).
      split; [done|]. split.
      * eapply grows_trans; [by eapply maskRgnH5_grows|done].
      * exists line. split; [by right|done].
    + rewrite maskRgnH5s_bad by done. intros [= <- <-].
      split; [done|]. split; [auto with world|].
      exists name. split; [by left|]. split; [done|].
      unfold record. rewrite trace_step. apply last_snoc.
Qed.

(** The index build touches no file. *)
Lemma extract_frame (self : AlignedReadsMasker) (w w' : World)
    (r : outcome AlignmentIndex) :
  _extractAlignedReads self w = (r, w') → fs w' = fs w ∧ cwd w' = cwd w.
Proof.
  unfold _extractAlignedReads, CmpH5Reader.
  destruct (fs w !! OsPath.abspath (cwd w) (inCmpFile self))
    as [[| c | sd tables | [e|c]]|].
  1-3, 6: by intros [= <- <-].
  - destruct e;
      cbv [except_clause logging emit raise mbind Py_bind mret Py_ret];
      by intros [= <- <-].
  - cbn beta iota.
    destruct (addAlignments _ _) as [d [e|]].
    + destruct e;
        cbv [except_clause logging emit raise mbind Py_bind mret Py_ret];
        by intros [= <- <-].
    + cbv [CmpH5Reader_close emit mbind Py_bind mret Py_ret].
      by intros [= <- <-].
Qed.

(** The index build only adds to the trace. *)
Lemma extract_trace (self : AlignedReadsMasker) (w w' : World)
    (r : outcome AlignmentIndex) :
  _extractAlignedReads self w = (r, w') → ∃ evs, trace w' = (trace w ++ evs)%list.
Proof.
  unfold _extractAlignedReads, CmpH5Reader.
  destruct (fs w !! OsPath.abspath (cwd w) (inCmpFile self))
    as [[| c | sd tables | [e|c]]|].
  1-3, 6: by intros [= <- <-]; exists []; rewrite app_nil_r.
  - destruct e;
      cbv [except_clause logging emit raise mbind Py_bind mret Py_ret];
      intros [= <- <-];
      solve [exists []; by rewrite app_nil_r
            |eexists; unfold record, step; simpl;
             rewrite <- ?(assoc_L (++)); reflexivity].
  - cbn beta iota.
    destruct (addAlignments _ _) as [d [e|]].
    + destruct e;
        cbv [except_clause logging emit raise mbind Py_bind mret Py_ret];
        intros [= <- <-];
        eexists; unfold record, step; simpl;
        rewrite <- ?(assoc_L (++)); reflexivity.
    + cbv [CmpH5Reader_close emit mbind Py_bind mret Py_ret].
      intros [= <- <-].
      eexists; unfold record, step; simpl;
        rewrite <- ?(assoc_L (++)); reflexivity.
Qed.

(** ** From the index to the loop *)

(** What [maskWith] does before the loop: when the output directory exists or
    can be made and the two manifests can be opened, the output manifest is
    opened for writing, which leaves it empty, then the input manifest is
    opened, and the loop runs over its stripped lines. *)
Lemma maskWith_opens (self : AlignedReadsMasker) (alignedReads : AlignmentIndex)
    (w w' : World) (code : Z) (content : string) :
  fs w !! OsPath.abspath (cwd w) (inRgnFofn self) = Some (Text content) →
  OsPath.abspath (cwd w) (inRgnFofn self) ≠ OsPath.abspath (cwd w) (outRgnFofn self) →
  maskWith self alignedReads w = (Ret code, w') →
  ∃ (w1 w2 : World) (returned : option Z) (before : list event),
    grows w w1
    ∧ fs w1 !! OsPath.abspath (cwd w) (outRgnFofn self) = Some (Text EmptyString)
    ∧ trace w1
      = (trace w ++ before
         ++ [OpenW (OsPath.abspath (cwd w) (outRgnFofn self));
             OpenR (OsPath.abspath (cwd w) (inRgnFofn self))])%list
    ∧ maskRgnH5s alignedReads (OsPath.splitext_root (outRgnFofn self))
        (OsPath.abspath (cwd w) (outRgnFofn self))
        (PyStr.strip <$> PyStr.lines content) w1 = (Ret returned, w2)
    ∧ match returned with
      | Some c => code = c ∧ w' = w2
      | None => code = 0
                ∧ w' = record [FileClose (OsPath.abspath (cwd w) (outRgnFofn self))] w2
      end.
Proof.
  intros Hin Hne. unfold maskWith, logging, emit. py_step. cbv zeta.
  rewrite bind_run. unfold os_path_exists at 1. cbn beta iota.
  rewrite cwd_step, fs_step.
  set (outDir := OsPath.splitext_root (outRgnFofn self)).
  set (kout := OsPath.abspath (cwd w) (outRgnFofn self)) in *.
  set (kin := OsPath.abspath (cwd w) (inRgnFofn self)) in *.
  assert (Hprep : ∀ (wa wb : World) (r : outcome unit),
    cwd wa = cwd w → fs wa = fs w →
    (if negb (negb (String.eqb outDir EmptyString)
              && exists_node (fs w) (OsPath.abspath (cwd w) outDir))
     then os_mkdir outDir else mret tt) wa = (r, wb) →
    cwd wb = cwd w ∧ fs wb !! kin = Some (Text content)
    ∧ (∀ k, is_Some (fs w !! k) → is_Some (fs wb !! k))
    ∧ ∃ evs, trace wb = (trace wa ++ evs)%list).
  { intros wa wb r Hc Hf. case_match eqn:Hex.
    - unfold os_mkdir. rewrite Hc, Hf. case_match eqn:Hcond.
      + intros [= <- <-]. rewrite Hc, Hf. split_and!; [done..|].
        exists []. by rewrite app_nil_r.
      + intros [= <- <-]. rewrite cwd_step, fs_step.
        apply orb_false_iff in Hcond as [Hcond _].
        apply orb_false_iff in Hcond as [_ Hnone].
        unfold exists_node in Hnone.
        apply orb_false_iff in Hnone as [_ Hnone%bool_decide_eq_false].
        assert (OsPath.abspath (cwd w) outDir ≠ kin) as Hk.
        { intros Heq. apply Hnone. rewrite Heq, Hin. eauto. }
        split; [done|]. split; [by rewrite lookup_insert_ne|]. split.
        * intros k Hk'.
          destruct (decide (OsPath.abspath (cwd w) outDir = k)) as [->|?].
          -- rewrite lookup_insert_eq. eauto.
          -- by rewrite lookup_insert_ne.
        * eexists. apply trace_step.
    - intros [= <- <-]. rewrite Hc, Hf. split_and!; [done..|].
      exists []. by rewrite app_nil_r. }
  rewrite bind_run.
  match goal with |- context [(if _ then os_mkdir outDir else mret tt) ?wa] =>
    destruct ((if negb (negb (String.eqb outDir EmptyString)
                        && exists_node (fs w) (OsPath.abspath (cwd w) outDir))
               then os_mkdir outDir else mret tt) wa) as [[[]|e] wb] eqn:Hmk;
    [apply Hprep in Hmk as (Hcb & Hinb & Hgb & evs & Htrb); [|done..]|done]
  end.
  rewrite trace_step in Htrb.
  rewrite bind_run. unfold open_w at 1. rewrite Hcb. fold kout.
  match goal with |- context [if ?b then (Exc _, _) else _] =>
    destruct b eqn:Hopen end; [by intros [=]|]. cbn beta iota.
  rewrite bind_run. unfold open_r_lines at 1. rewrite cwd_step, fs_step, Hcb.
  fold kin. rewrite lookup_insert_ne, Hinb by done.
  unfold record. rewrite fs_step, step_step, bind_run.
  match goal with |- context [maskRgnH5s _ _ _ _ ?w1] => set (w1' := w1) end.
  destruct (maskRgnH5s alignedReads outDir kout (PyStr.strip <$> PyStr.lines content) w1')
    as [[returned|e] w2] eqn:Hloop; [|done].
  intros Hret.
  exists w1', w2, returned,
    ([Log INFO (extractedMsg self alignedReads)] ++ evs)%list.
  split; [|split; [|split; [|split; [done|]]]].
  - split; [exact Hcb|]. intros k Hk. subst w1'. rewrite fs_step.
    destruct (decide (kout = k)) as [->|?].
    + rewrite lookup_insert_eq. eauto.
    + rewrite lookup_insert_ne by done. auto.
  - subst w1'. by rewrite fs_step, lookup_insert_eq.
  - subst w1'. rewrite trace_step, Htrb. by rewrite <- !(assoc_L (++)).
  - destruct returned as [c|].
    + by injection Hret as <- <-.
    + unfold file_close, emit in Hret. rewrite bind_run in Hret.
      by injection Hret as <- <-.
Qed.

Lemma maskWith_loop (self : AlignedReadsMasker) (alignedReads : AlignmentIndex)
    (w w' : World) (code : Z) (content : string) :
  fs w !! OsPath.abspath (cwd w) (inRgnFofn self) = Some (Text content) →
  OsPath.abspath (cwd w) (inRgnFofn self) ≠ OsPath.abspath (cwd w) (outRgnFofn self) →
  maskWith self alignedReads w = (Ret code, w') →
  ∃ (w1 w2 : World) (returned : option Z),
    grows w w1 ∧ is_Some (fs w1 !! OsPath.abspath (cwd w) (outRgnFofn self))
    ∧ maskRgnH5s alignedReads (OsPath.splitext_root (outRgnFofn self))
        (OsPath.abspath (cwd w) (outRgnFofn self))
        (PyStr.strip <$> PyStr.lines content) w1 = (Ret returned, w2)
    ∧ match returned with
      | Some c => code = c ∧ w' = w2
      | None => code = 0
                ∧ w' = record [FileClose (OsPath.abspath (cwd w) (outRgnFofn self))] w2
      end.
Proof.
  intros Hin Hne Hmask.
  destruct (maskWith_opens self alignedReads w w' code content Hin Hne Hmask)
    as (w1 & w2 & returned & before & Hgrows & Hout & _ & Hloop & Hret).
  exists w1, w2, returned. rewrite Hout. eauto.
Qed.

Lemma append_assoc (s1 s2 s3 : string) : (s1 ++ s2) ++ s3 = s1 ++ (s2 ++ s3).
Proof.
  induction s1 as [|c s1 IH]; [done|].
  change (String c ((s1 ++ s2) ++ s3) = String c (s1 ++ (s2 ++ s3))).
  by f_equal.
Qed.

Lemma append_nil_r (s : string) : s ++ EmptyString = s.
Proof.
  induction s as [|c s IH]; [done|].
  change (String c (s ++ EmptyString) = String c s). by f_equal.
Qed.

Lemma maskRegionTable_unaligned (alignedReads : AlignmentIndex) (movieName : string)
    (rt : RgnH5IO.RegionTable) :
  isAligned alignedReads movieName (RgnH5IO.holeNumber rt) = false →
  maskRegionTable alignedReads movieName rt = rt.
Proof. intros H. unfold maskRegionTable. by rewrite H. Qed.

Lemma maskRgnH5_returns (alignedReads : AlignmentIndex) (outDir fofn name : string)
    (w w' : World) :
  maskRgnH5 alignedReads outDir fofn name w = (Ret tt, w') →
  ∃ (sd : RgnH5IO.ScanData) (inp : list RgnH5IO.RegionTable),
    fs w !! OsPath.abspath (cwd w) name = Some (RgnH5 (Some sd) inp)
    ∧ is_dir (fs w)
        (OsPath.abspath (cwd w)
           (outH5FN (cwd w) outDir
              (movieId (OsPath.basename name) (RgnH5IO.MovieName sd)))) = false
    ∧ is_dir (fs w)
        (parent (OsPath.abspath (cwd w)
           (outH5FN (cwd w) outDir
              (movieId (OsPath.basename name) (RgnH5IO.MovieName sd))))) = true
    ∧ w' = step (<[OsPath.abspath (cwd w)
                     (outH5FN (cwd w) outDir
                        (movieId (OsPath.basename name) (RgnH5IO.MovieName sd))) :=
                   RgnH5 (Some sd)
                     (maskRegionTable alignedReads (RgnH5IO.MovieName sd) <$> inp)]>
                  (appended fofn
                     (outH5FN (cwd w) outDir
                        (movieId (OsPath.basename name) (RgnH5IO.MovieName sd))
                      ++ newline) (fs w)))
               (roundTrace fofn (OsPath.abspath (cwd w) name) name
                  (outH5FN (cwd w) outDir
                     (movieId (OsPath.basename name) (RgnH5IO.MovieName sd)))
                  (OsPath.abspath (cwd w)
                     (outH5FN (cwd w) outDir
                        (movieId (OsPath.basename name) (RgnH5IO.MovieName sd))))
                  sd (maskRegionTable alignedReads (RgnH5IO.MovieName sd) <$> inp))
               w.
Proof.
  rewrite maskRgnH5_run.
  destruct (fs w !! OsPath.abspath (cwd w) name) as [[| | [sd|] inp |]|]; try done.
  cbv zeta. case_match eqn:Hcond; [done|]. intros [= <-].
  apply orb_false_iff in Hcond as [Hk Hparent%negb_false_iff].
  by exists sd, inp.
Qed.

(** The loop over the manifest that returns 1: the rounds of the lines
    before the first line with the wrong suffix have run to their end, and
    the error naming that line is logged last. *)
Lemma maskRgnH5s_returns_1 (alignedReads : AlignmentIndex) (outDir fofn : string)
    (names : list string) :
  ∀ (w w' : World) (c : Z),
    maskRgnH5s alignedReads outDir fofn names w = (Ret (Some c), w') →
    c = 1
    ∧ ∃ (rounds : list Round) (line : string) (post : list string),
        names = ((roundName <$> rounds) ++ line :: post)%list
        ∧ Forall (λ name, PyStr.endswith name "rgn.h5" = true) (roundName <$> rounds)
        ∧ PyStr.endswith line "rgn.h5" = false
        ∧ Forall (λ r, roundPath r =
                       outH5FN (cwd w) outDir
                         (movieId (OsPath.basename (roundName r))
                            (RgnH5IO.MovieName (roundScan r)))) rounds
        ∧ trace w' = (trace w ++ concat (roundEvents (cwd w) fofn <$> rounds)
                      ++ [Log ERROR (notRgnH5Msg line)])%list
        ∧ (∀ c0, fs w !! fofn = Some (Text c0) →
                 Forall (λ r, OsPath.abspath (cwd w) (roundPath r) ≠ fofn) rounds →
                 fs w' !! fofn = Some (Text (c0 ++ catLines (roundPath <$> rounds)))).
Proof.
  induction names as [|name names IH]; intros w w' c; [done|].
  destruct (PyStr.endswith name "rgn.h5") eqn:Hname.
  - rewrite maskRgnH5s_good by done.
    destruct (maskRgnH5 alignedReads outDir fofn name w) as [[[]|e] w1] eqn:Hround;
      [|done].
    apply maskRgnH5_returns in Hround as (sd & inp & Hin & Hk & Hparent & ->).
    intros Hrest.
    destruct (IH _ _ _ Hrest)
      as (-> & rounds & line & post & -> & Hgood & Hbad & Hpaths & Htrace & Hfofn).
    rewrite cwd_step in *. rewrite trace_step in Htrace. rewrite fs_step in Hfofn.
    set (p := outH5FN (cwd w) outDir
                (movieId (OsPath.basename name) (RgnH5IO.MovieName sd))) in *.
    split; [done|].
    exists (mkRound name sd
              (maskRegionTable alignedReads (RgnH5IO.MovieName sd) <$> inp) p
            :: rounds), line, post.
    split_and!; [done|by constructor|done|by constructor| |].
    + rewrite Htrace, fmap_cons, concat_cons. unfold roundEvents at 1.
      cbn [roundName roundScan roundOut roundPath].
      by rewrite <- !(assoc_L (++)).
    + intros c0 Hc0 Hne. apply Forall_cons in Hne as [Hne1 Hne].
      simpl in Hne1. rewrite fmap_cons. simpl catLines.
      rewrite <- append_assoc. apply Hfofn; [|done].
      rewrite lookup_insert_ne by done. by apply appended_text.
  - rewrite maskRgnH5s_bad by done. intros [= <- <-]. split; [done|].
    exists [], name, names. split_and!; [done|by constructor|done|done|done|].
    intros c0 Hc0 _. simpl. by rewrite append_nil_r.
Qed.

(** C2, as amended: when the input manifest, a file other than the output
    manifest, has a line that does not end with [rgn.h5], [maskAlignedReads]
    returns nothing but 1. If no exception ends the run before, the output
    manifest is opened for writing, which creates it or empties it, just
    before the input manifest is opened; the lines before the first line
    with the wrong suffix are processed, each in a round that runs to its
    end; then the error naming that line is logged and 1 is returned. The
    output manifest exists by then, and the lines written to it are those of
    the files processed before the rejected line, in their order (no output
    file being planned at the path of the manifest itself). *)
Theorem bad_manifest_returns_1 (self : AlignedReadsMasker) (w w' : World)
    (content bad : string) (code : Z) :
  fs w !! OsPath.abspath (cwd w) (inRgnFofn self) = Some (Text content) →
  OsPath.abspath (cwd w) (inRgnFofn self) ≠ OsPath.abspath (cwd w) (outRgnFofn self) →
  bad ∈ PyStr.strip <$> PyStr.lines content →
  PyStr.endswith bad "rgn.h5" = false →
  maskAlignedReads self w = (Ret code, w') →
  code = 1
  ∧ ∃ (rounds : list Round) (line : string) (post : list string)
      (before : list event),
      PyStr.strip <$> PyStr.lines content
      = ((roundName <$> rounds) ++ line :: post)%list
      ∧ Forall (λ name, PyStr.endswith name "rgn.h5" = true) (roundName <$> rounds)
      ∧ PyStr.endswith line "rgn.h5" = false
      ∧ Forall (λ r, roundPath r =
                     outH5FN (cwd w) (OsPath.splitext_root (outRgnFofn self))
                       (movieId (OsPath.basename (roundName r))
                          (RgnH5IO.MovieName (roundScan r)))) rounds
      ∧ trace w'
        = (trace w ++ before
           ++ [OpenW (OsPath.abspath (cwd w) (outRgnFofn self));
               OpenR (OsPath.abspath (cwd w) (inRgnFofn self))]
           ++ concat (roundEvents (cwd w) (OsPath.abspath (cwd w) (outRgnFofn self))
                        <$> rounds)
           ++ [Log ERROR (notRgnH5Msg line)])%list
      ∧ is_Some (fs w' !! OsPath.abspath (cwd w) (outRgnFofn self))
      ∧ (Forall (λ r, OsPath.abspath (cwd w) (roundPath r)
                      ≠ OsPath.abspath (cwd w) (outRgnFofn self)) rounds →
         fs w' !! OsPath.abspath (cwd w) (outRgnFofn self)
         = Some (Text (catLines (roundPath <$> rounds)))).
Proof.
  intros Hin Hne Hbad Hsuffix. rewrite maskAlignedReads_extract.
  destruct (_extractAlignedReads self (record startLogs w))
    as [[alignedReads|e] w0] eqn:Hextract; [|done].
  destruct (extract_trace _ _ _ _ Hextract) as [evs0 Htr0].
  apply extract_frame in Hextract as [Hfs Hcwd]. simpl in Hfs, Hcwd.
  unfold record in Htr0. rewrite trace_step in Htr0.
  intros Hmask. rewrite <- Hcwd, <- Hfs in *.
  destruct (maskWith_opens self alignedReads w0 w' code content Hin Hne Hmask)
    as (w1 & w2 & returned & before & [Hc1 Hg1] & Hout & Htr1 & Hloop & Hret).
  destruct (maskRgnH5s_with_bad _ _ _ _ bad _ _ _ Hbad Hsuffix Hloop)
    as (-> & [Hc2 Hg2] & _).
  destruct Hret as [-> ->].
  destruct (maskRgnH5s_returns_1 _ _ _ _ _ _ _ Hloop)
    as (_ & rounds & line & post & Hnames & Hgood & Hline & Hpaths & Htr2 & Hfofn).
  rewrite Hc1 in Hpaths, Htr2, Hfofn.
  split; [done|]. exists rounds, line, post, (startLogs ++ evs0 ++ before)%list.
  split_and!; [done..| | |].
  - rewrite Htr2, Htr1, Htr0. by rewrite <- !(assoc_L (++)).
  - apply Hg2. by rewrite Hout.
  - intros Hfree. rewrite (Hfofn EmptyString Hout Hfree). done.
Qed.

Lemma bad_manifest_returns_1_witness :
  maskAlignedReads sampleMasker (sampleWorld ["a.rgn.h5"; "foo.txt"])
  = (Ret 1, (maskAlignedReads sampleMasker (sampleWorld ["a.rgn.h5"; "foo.txt"])).2)
  ∧ fs (maskAlignedReads sampleMasker (sampleWorld ["a.rgn.h5"; "foo.txt"])).2
      !! "/work/out.fofn"
    = Some (Text (catLines ["/work/out/M1.rgn.h5"]))
  ∧ 1 = 1
  ∧ ∃ (rounds : list Round) (line : string) (post : list string)
      (before : list event),
      PyStr.strip <$> PyStr.lines (catLines ["a.rgn.h5"; "foo.txt"])
      = ((roundName <$> rounds) ++ line :: post)%list
      ∧ Forall (λ name, PyStr.endswith name "rgn.h5" = true) (roundName <$> rounds)
      ∧ PyStr.endswith line "rgn.h5" = false
      ∧ Forall (λ r, roundPath r =
                     outH5FN (cwd (sampleWorld ["a.rgn.h5"; "foo.txt"]))
                       (OsPath.splitext_root (outRgnFofn sampleMasker))
                       (movieId (OsPath.basename (roundName r))
                          (RgnH5IO.MovieName (roundScan r)))) rounds
      ∧ trace (maskAlignedReads sampleMasker (sampleWorld ["a.rgn.h5"; "foo.txt"])).2
        = (trace (sampleWorld ["a.rgn.h5"; "foo.txt"]) ++ before
           ++ [OpenW (OsPath.abspath (cwd (sampleWorld ["a.rgn.h5"; "foo.txt"]))
                        (outRgnFofn sampleMasker));
               OpenR (OsPath.abspath (cwd (sampleWorld ["a.rgn.h5"; "foo.txt"]))
                        (inRgnFofn sampleMasker))]
           ++ concat (roundEvents (cwd (sampleWorld ["a.rgn.h5"; "foo.txt"]))
                        (OsPath.abspath (cwd (sampleWorld ["a.rgn.h5"; "foo.txt"]))
                           (outRgnFofn sampleMasker))
                        <$> rounds)
           ++ [Log ERROR (notRgnH5Msg line)])%list
      ∧ is_Some (fs (maskAlignedReads sampleMasker
                       (sampleWorld ["a.rgn.h5"; "foo.txt"])).2
                   !! OsPath.abspath (cwd (sampleWorld ["a.rgn.h5"; "foo.txt"]))
                        (outRgnFofn sampleMasker))
      ∧ (Forall (λ r, OsPath.abspath (cwd (sampleWorld ["a.rgn.h5"; "foo.txt"]))
                        (roundPath r)
                      ≠ OsPath.abspath (cwd (sampleWorld ["a.rgn.h5"; "foo.txt"]))
                          (outRgnFofn sampleMasker)) rounds →
         fs (maskAlignedReads sampleMasker (sampleWorld ["a.rgn.h5"; "foo.txt"])).2
           !! OsPath.abspath (cwd (sampleWorld ["a.rgn.h5"; "foo.txt"]))
                (outRgnFofn sampleMasker)
         = Some (Text (catLines (roundPath <$> rounds)))).
Proof.
  assert (Hrun : maskAlignedReads sampleMasker (sampleWorld ["a.rgn.h5"; "foo.txt"])
    = (Ret 1, (maskAlignedReads sampleMasker (sampleWorld ["a.rgn.h5"; "foo.txt"])).2))
    by (vm_compute; reflexivity).
  split; [exact Hrun|]. split; [vm_compute; reflexivity|].
  apply (bad_manifest_returns_1 sampleMasker (sampleWorld ["a.rgn.h5"; "foo.txt"])
           _ (catLines ["a.rgn.h5"; "foo.txt"]) "foo.txt" 1).
  - vm_compute; reflexivity.
  - vm_compute. discriminate.
  - vm_compute. right. left.
  - vm_compute; reflexivity.
  - exact Hrun.
Defined.

(** The claim C2 as it stands fails on the manifest of the single line
    [foo.txt]: [run] returns 0, which is the exit code of the process, and
    the output manifest exists, empty. *)
Lemma bad_manifest_counterexample :
  (run "in.cmp.h5" "in.fofn" "out.fofn" (sampleWorld ["foo.txt"])).1 = Ret 0
  ∧ fs (run "in.cmp.h5" "in.fofn" "out.fofn" (sampleWorld ["foo.txt"])).2
      !! "/work/out.fofn" = Some (Text EmptyString)
  ∧ ¬ fatalOnBadManifest "in.cmp.h5" "in.fofn" "out.fofn" (sampleWorld ["foo.txt"]).
Proof.
  assert (Hcode : (run "in.cmp.h5" "in.fofn" "out.fofn" (sampleWorld ["foo.txt"])).1
                  = Ret 0) by (vm_compute; reflexivity).
  split; [exact Hcode|]. split; [vm_compute; reflexivity|].
  intros [Hnonzero _]. by apply Hnonzero.
Qed.

Lemma manifest_checked_line_by_line_witness :
  Forall (λ name, PyStr.endswith name "rgn.h5" = true) ["a.rgn.h5"]
  ∧ PyStr.endswith "foo.txt" "rgn.h5" = false
  ∧ maskRgnH5s sampleIndex "out" "/work/out.fofn"
      (["a.rgn.h5"] ++ "foo.txt" :: ["b.rgn.h5"]) openedWorld =
    match maskRgnH5s sampleIndex "out" "/work/out.fofn" ["a.rgn.h5"] openedWorld with
    | (Ret _, w') => (Ret (Some 1), record [Log ERROR (notRgnH5Msg "foo.txt")] w')
    | (Exc e, w') => (Exc e, w')
    end.
Proof.
  assert (Hpre : Forall (λ name, PyStr.endswith name "rgn.h5" = true) ["a.rgn.h5"])
    by (repeat constructor).
  assert (Hbad : PyStr.endswith "foo.txt" "rgn.h5" = false) by reflexivity.
  split; [exact Hpre|]. split; [exact Hbad|].
  exact (manifest_checked_line_by_line sampleIndex "out" "/work/out.fofn"
           ["a.rgn.h5"] "foo.txt" ["b.rgn.h5"] openedWorld Hpre Hbad).
Defined.

(** The claim C3 as it stands fails on the manifest of the two lines
    [a.rgn.h5] and [foo.txt]: the output file of the first line is written,
    and so is its line of the output manifest, before the second line is
    rejected. *)
Lemma validation_counterexample :
  fs (run "in.cmp.h5" "in.fofn" "out.fofn" (sampleWorld ["a.rgn.h5"; "foo.txt"])).2
    !! "/work/out/M1.rgn.h5"
  = Some (RgnH5 (Some scanM1) [RgnH5IO.setHQRegion read7 0 0; read8; read9; read10])
  ∧ fs (run "in.cmp.h5" "in.fofn" "out.fofn" (sampleWorld ["a.rgn.h5"; "foo.txt"])).2
      !! "/work/out.fofn"
    = Some (Text (catLines ["/work/out/M1.rgn.h5"]))
  ∧ ¬ noOutputProduced
        (trace (run "in.cmp.h5" "in.fofn" "out.fofn"
                  (sampleWorld ["a.rgn.h5"; "foo.txt"])).2).
Proof.
  split; [vm_compute; reflexivity|]. split; [vm_compute; reflexivity|].
  intros Hnone. unfold noOutputProduced in Hnone. rewrite Forall_forall in Hnone.
  apply (Hnone (RgnWriterOpen "/work/out/M1.rgn.h5")).
  vm_compute. repeat constructor.
Qed.

(** ** An archive without alignments, and a missing archive *)

(** C5, as amended: when the archive holds no alignment, so that
    [CmpH5Reader] raises [EmptyCmpH5Error], the index build emits the warning
    and returns the empty index, the run goes on with it and ends as the
    masking with the empty index ends, and every record of every region table
    it processes is written as it was read. (This does not extend to an
    archive that is missing or cannot be read: the [IOError] is not caught.) *)
Theorem empty_archive_copies_through (self : AlignedReadsMasker) (w : World) :
  fs w !! OsPath.abspath (cwd w) (inCmpFile self)
    = Some (CmpFile (inl EmptyCmpH5Error)) →
  _extractAlignedReads self w =
    (Ret ∅, record [StderrWrite (noAlignedReadsMsg self ++ newline);
                    Log WARNING (noAlignedReadsMsg self)] w)
  ∧ maskAlignedReads self w =
      maskWith self ∅
        (record (startLogs ++ [StderrWrite (noAlignedReadsMsg self ++ newline);
                               Log WARNING (noAlignedReadsMsg self)]) w)
  ∧ run (inCmpFile self) (inRgnFofn self) (outRgnFofn self) w =
      match maskWith self ∅
              (record (startLogs ++ [StderrWrite (noAlignedReadsMsg self ++ newline);
                                     Log WARNING (noAlignedReadsMsg self)]) w) with
      | (Ret _, w') => (Ret 0, w')
      | (Exc e, w') => (Ret 1, record [LogException e; PrintExc e] w')
      end
  ∧ (∀ movieName rt, maskRegionTable ∅ movieName rt = rt)
  ∧ (∀ outDir fofn name w1 w2,
       maskRgnH5 ∅ outDir fofn name w1 = (Ret tt, w2) →
       ∃ (sd : RgnH5IO.ScanData) (inp : list RgnH5IO.RegionTable),
         fs w1 !! OsPath.abspath (cwd w1) name = Some (RgnH5 (Some sd) inp)
         ∧ fs w2 !! OsPath.abspath (cwd w1)
                      (outH5FN (cwd w1) outDir
                         (movieId (OsPath.basename name) (RgnH5IO.MovieName sd)))
           = Some (RgnH5 (Some sd) inp)).
Proof.
  intros Hfile.
  assert (Hid : ∀ movieName rt, maskRegionTable ∅ movieName rt = rt).
  { intros movieName rt. apply maskRegionTable_unaligned.
    unfold isAligned. by rewrite lookup_empty. }
  assert (Hmask : maskAlignedReads self w =
      maskWith self ∅
        (record (startLogs ++ [StderrWrite (noAlignedReadsMsg self ++ newline);
                               Log WARNING (noAlignedReadsMsg self)]) w)).
  { rewrite maskAlignedReads_extract.
    rewrite (extract_open_caught self (record startLogs w) EmptyCmpH5Error)
      by (done || by right).
    by rewrite record_record. }
  split; [apply (extract_open_caught self w EmptyCmpH5Error); [done|by right]|].
  split; [exact Hmask|]. split; [|split; [exact Hid|]].
  - rewrite run_maskAlignedReads. destruct self as [a b c]. simpl.
    simpl in Hmask. by rewrite Hmask.
  - intros outDir fofn name w1 w2 Hround.
    apply maskRgnH5_returns in Hround as (sd & inp & Hin & _ & _ & ->).
    exists sd, inp. split; [done|]. rewrite fs_step, lookup_insert_eq.
    do 2 f_equal. rewrite <- (list_fmap_id inp) at 2.
    apply list_fmap_ext. intros _ rt _. apply Hid.
Qed.

(** A missing archive ends the run: the [IOError] reaches [run], which
    reports it and returns 1, no file having been touched. *)
Lemma run_missing_archive (inCmp inFofn outFofn : string) (w : World) :
  fs w !! OsPath.abspath (cwd w) inCmp = None →
  run inCmp inFofn outFofn w =
    (Ret 1, record (startLogs ++ [LogException (IOError inCmp);
                                  PrintExc (IOError inCmp)]) w).
Proof.
  intros Hfile. rewrite run_maskAlignedReads, maskAlignedReads_extract.
  rewrite (extract_missing (mkAlignedReadsMasker inCmp inFofn outFofn)
             (record startLogs w)) by done.
  by rewrite record_record.
Qed.

Lemma empty_archive_copies_through_witness :
  fs emptyArchiveWorld !! OsPath.abspath (cwd emptyArchiveWorld) (inCmpFile sampleMasker)
    = Some (CmpFile (inl EmptyCmpH5Error))
  ∧ _extractAlignedReads sampleMasker emptyArchiveWorld =
      (Ret ∅, record [StderrWrite (noAlignedReadsMsg sampleMasker ++ newline);
                      Log WARNING (noAlignedReadsMsg sampleMasker)] emptyArchiveWorld)
  ∧ (run "in.cmp.h5" "in.fofn" "out.fofn" emptyArchiveWorld).1 = Ret 0
  ∧ tablesAt (fs (run "in.cmp.h5" "in.fofn" "out.fofn" emptyArchiveWorld).2)
      "/work/out/M1.rgn.h5"
    = [read7; read8; read9; read10].
Proof.
  assert (Hfile : fs emptyArchiveWorld
                    !! OsPath.abspath (cwd emptyArchiveWorld) (inCmpFile sampleMasker)
                  = Some (CmpFile (inl EmptyCmpH5Error))) by (vm_compute; reflexivity).
  split; [exact Hfile|].
  split; [exact (proj1 (empty_archive_copies_through sampleMasker emptyArchiveWorld Hfile))|].
  split; vm_compute; reflexivity.
Defined.

(** The claim C5 as it stands fails when the archive is missing: the
    [IOError] of [CmpH5Reader] is not caught by [_extractAlignedReads], the
    run ends with the code 1 and nothing is written. *)
Lemma missing_archive_counterexample :
  fs noArchiveWorld !! "/work/in.cmp.h5" = None
  ∧ (run "in.cmp.h5" "in.fofn" "out.fofn" noArchiveWorld).1 = Ret 1
  ∧ fs (run "in.cmp.h5" "in.fofn" "out.fofn" noArchiveWorld).2 = fs noArchiveWorld
  ∧ ¬ ((run "in.cmp.h5" "in.fofn" "out.fofn" noArchiveWorld).1 = Ret 0
       ∧ tablesAt (fs (run "in.cmp.h5" "in.fofn" "out.fofn" noArchiveWorld).2)
           "/work/out/M1.rgn.h5" = [read7; read8; read9; read10]).
Proof.
  assert (Hcode : (run "in.cmp.h5" "in.fofn" "out.fofn" noArchiveWorld).1 = Ret 1)
    by (vm_compute; reflexivity).
  split; [vm_compute; reflexivity|]. split; [exact Hcode|].
  split; [vm_compute; reflexivity|].
  intros [Hzero _]. rewrite Hcode in Hzero. discriminate.
Qed.

(** ** The output manifest *)





(** ** Two files of one movie under the old naming *)

(** C10: two distinct input files whose names do not match [rx] and which
    declare the same movie name are given the same output path. When both
    are processed, the path is written twice to the output manifest, the
    output file is created twice, and what it holds in the end is the masked
    copy of the second file alone. *)
Theorem legacy_names_collide (alignedReads : AlignmentIndex)
    (outDir fofn n1 n2 : string) (w : World) (sd1 sd2 : RgnH5IO.ScanData)
    (t1 t2 : list RgnH5IO.RegionTable) (c0 : string) :
  PyStr.endswith n1 "rgn.h5" = true →
  PyStr.endswith n2 "rgn.h5" = true →
  Re.search Re.rx (OsPath.basename n1) = false →
  Re.search Re.rx (OsPath.basename n2) = false →
  OsPath.abspath (cwd w) n1 ≠ OsPath.abspath (cwd w) n2 →
  fs w !! OsPath.abspath (cwd w) n1 = Some (RgnH5 (Some sd1) t1) →
  fs w !! OsPath.abspath (cwd w) n2 = Some (RgnH5 (Some sd2) t2) →
  RgnH5IO.MovieName sd1 = RgnH5IO.MovieName sd2 →
  is_dir (fs w)
    (OsPath.abspath (cwd w) (outH5FN (cwd w) outDir (RgnH5IO.MovieName sd1))) = false →
  is_dir (fs w)
    (parent (OsPath.abspath (cwd w)
               (outH5FN (cwd w) outDir (RgnH5IO.MovieName sd1)))) = true →
  OsPath.abspath (cwd w) (outH5FN (cwd w) outDir (RgnH5IO.MovieName sd1))
    ≠ OsPath.abspath (cwd w) n2 →
  fs w !! fofn = Some (Text c0) →
  fofn ≠ OsPath.abspath (cwd w) (outH5FN (cwd w) outDir (RgnH5IO.MovieName sd1)) →
  outH5FN (cwd w) outDir (movieId (OsPath.basename n1) (RgnH5IO.MovieName sd1))
    = outH5FN (cwd w) outDir (movieId (OsPath.basename n2) (RgnH5IO.MovieName sd2))
  ∧ ∃ w' : World,
      maskRgnH5s alignedReads outDir fofn [n1; n2] w = (Ret None, w')
      ∧ trace w' =
          (trace w
           ++ roundTrace fofn (OsPath.abspath (cwd w) n1) n1
                (outH5FN (cwd w) outDir (RgnH5IO.MovieName sd1))
                (OsPath.abspath (cwd w)
                   (outH5FN (cwd w) outDir (RgnH5IO.MovieName sd1)))
                sd1 (maskRegionTable alignedReads (RgnH5IO.MovieName sd1) <$> t1)
           ++ roundTrace fofn (OsPath.abspath (cwd w) n2) n2
                (outH5FN (cwd w) outDir (RgnH5IO.MovieName sd1))
                (OsPath.abspath (cwd w)
                   (outH5FN (cwd w) outDir (RgnH5IO.MovieName sd1)))
                sd2 (maskRegionTable alignedReads (RgnH5IO.MovieName sd2) <$> t2))%list
      ∧ fs w' !! OsPath.abspath (cwd w)
                   (outH5FN (cwd w) outDir (RgnH5IO.MovieName sd1))
        = Some (RgnH5 (Some sd2)
                  (maskRegionTable alignedReads (RgnH5IO.MovieName sd2) <$> t2))
      ∧ fs w' !! fofn
        = Some (Text (c0 ++ catLines
                              [outH5FN (cwd w) outDir (RgnH5IO.MovieName sd1);
                               outH5FN (cwd w) outDir (RgnH5IO.MovieName sd1)])).
Proof.
  intros Hn1 Hn2 Hrx1 Hrx2 _ Hin1 Hin2 Hmovie Hk Hparent Hkin2 Hfofn Hne.
  assert (Hid1 : movieId (OsPath.basename n1) (RgnH5IO.MovieName sd1)
                 = RgnH5IO.MovieName sd1) by (unfold movieId; by rewrite Hrx1).
  assert (Hid2 : movieId (OsPath.basename n2) (RgnH5IO.MovieName sd2)
                 = RgnH5IO.MovieName sd1) by (unfold movieId; by rewrite Hrx2).
  split; [by rewrite Hid1, Hid2|].
  set (p := outH5FN (cwd w) outDir (RgnH5IO.MovieName sd1)) in *.
  set (k := OsPath.abspath (cwd w) p) in *.
  eexists. split; [|split; [|split]].
  - rewrite maskRgnH5s_good, maskRgnH5_run, Hin1 by done. cbv zeta.
    rewrite Hid1. fold p k. rewrite Hk, Hparent. cbn [orb negb].
    rewrite maskRgnH5s_good, maskRgnH5_run by done.
    rewrite cwd_step, fs_step, lookup_insert_ne by done.
    rewrite (appended_lookup_rgn _ _ _ _ _ _ Hin2). cbv zeta.
    rewrite Hid2. fold p k.
    assert (Hnd : appended fofn (p ++ newline) (fs w) !! k ≠ Some Dir)
      by (apply not_dir_lookup; by rewrite is_dir_appended).
    rewrite !is_dir_insert by done. rewrite !is_dir_appended, Hk, Hparent.
    cbn [orb negb]. rewrite step_step. reflexivity.
  - reflexivity.
  - rewrite fs_step. apply lookup_insert_eq.
  - rewrite fs_step, lookup_insert_ne by done.
    simpl catLines. rewrite append_nil_r, <- append_assoc.
    apply appended_text. rewrite lookup_insert_ne by done. by apply appended_text.
Qed.

Lemma legacy_names_collide_witness :
  outH5FN (cwd openedWorld) "out"
    (movieId (OsPath.basename "a.rgn.h5") (RgnH5IO.MovieName scanM1))
  = outH5FN (cwd openedWorld) "out"
      (movieId (OsPath.basename "b.rgn.h5") (RgnH5IO.MovieName scanM1))
  ∧ ∃ w' : World,
      maskRgnH5s sampleIndex "out" "/work/out.fofn" ["a.rgn.h5"; "b.rgn.h5"] openedWorld
      = (Ret None, w')
      ∧ trace w' =
          (trace openedWorld
           ++ roundTrace "/work/out.fofn" (OsPath.abspath (cwd openedWorld) "a.rgn.h5")
                "a.rgn.h5"
                (outH5FN (cwd openedWorld) "out" (RgnH5IO.MovieName scanM1))
                (OsPath.abspath (cwd openedWorld)
                   (outH5FN (cwd openedWorld) "out" (RgnH5IO.MovieName scanM1)))
                scanM1
                (maskRegionTable sampleIndex (RgnH5IO.MovieName scanM1)
                   <$> [read7; read8; read9; read10])
           ++ roundTrace "/work/out.fofn" (OsPath.abspath (cwd openedWorld) "b.rgn.h5")
                "b.rgn.h5"
                (outH5FN (cwd openedWorld) "out" (RgnH5IO.MovieName scanM1))
                (OsPath.abspath (cwd openedWorld)
                   (outH5FN (cwd openedWorld) "out" (RgnH5IO.MovieName scanM1)))
                scanM1
                (maskRegionTable sampleIndex (RgnH5IO.MovieName scanM1) <$> [read8]))%list
      ∧ fs w' !! OsPath.abspath (cwd openedWorld)
                   (outH5FN (cwd openedWorld) "out" (RgnH5IO.MovieName scanM1))
        = Some (RgnH5 (Some scanM1)
                  (maskRegionTable sampleIndex (RgnH5IO.MovieName scanM1) <$> [read8]))
      ∧ fs w' !! "/work/out.fofn"
        = Some (Text (EmptyString ++ catLines
                        [outH5FN (cwd openedWorld) "out" (RgnH5IO.MovieName scanM1);
                         outH5FN (cwd openedWorld) "out" (RgnH5IO.MovieName scanM1)])).
Proof.
  apply (legacy_names_collide sampleIndex "out" "/work/out.fofn" "a.rgn.h5" "b.rgn.h5"
           openedWorld scanM1 scanM1 [read7; read8; read9; read10] [read8] EmptyString);
    vm_compute; (reflexivity || discriminate).
Defined.

Lemma extractAlignedReads_index_witness :
  ∃ (alignedReads : AlignmentIndex) (w' : World),
    _extractAlignedReads sampleMasker (sampleWorld ["a.rgn.h5"]) = (Ret alignedReads, w')
    ∧ fs w' = fs (sampleWorld ["a.rgn.h5"])
    ∧ (∀ movie, is_Some (alignedReads !! movie)
                ↔ movie ∈ movieInfoTable_Name sampleArchive)
    ∧ (∀ movie, movie ∈ movieInfoTable_Name sampleArchive →
         ∃ holes, alignedReads !! movie = Some holes
                  ∧ ∀ h, h ∈ holes ↔ Aln movie h ∈ alignments sampleArchive)
    ∧ (∀ movie, movie ∈ movieInfoTable_Name sampleArchive →
         (∀ h, Aln movie h ∉ alignments sampleArchive) →
         alignedReads !! movie = Some ∅).
Proof.
  apply (extractAlignedReads_index sampleMasker (sampleWorld ["a.rgn.h5"]) sampleArchive).
  - vm_compute; reflexivity.
  - repeat constructor.
Defined.

Lemma extractAlignedReads_IndexError_witness :
  _extractAlignedReads sampleMasker brokenArchiveWorld =
    (Ret (indexOf (movieInfoTable_Name brokenArchive) [Aln "M1" 7]),
     record [CmpReaderOpen (OsPath.abspath (cwd brokenArchiveWorld)
                              (inCmpFile sampleMasker));
             StderrWrite (noAlignedReadsMsg sampleMasker ++ newline);
             Log WARNING (noAlignedReadsMsg sampleMasker)] brokenArchiveWorld)
  ∧ (∀ movie h, Aln movie h ∈ [Aln "M1" 7] →
       isAligned (indexOf (movieInfoTable_Name brokenArchive) [Aln "M1" 7]) movie h
       = true)
  ∧ indexOf (movieInfoTable_Name brokenArchive) [Aln "M1" 7] ≠ ∅
  ∧ maskAlignedReads sampleMasker brokenArchiveWorld =
      maskWith sampleMasker (indexOf (movieInfoTable_Name brokenArchive) [Aln "M1" 7])
        (record (startLogs ++
                 [CmpReaderOpen (OsPath.abspath (cwd brokenArchiveWorld)
                                   (inCmpFile sampleMasker));
                  StderrWrite (noAlignedReadsMsg sampleMasker ++ newline);
                  Log WARNING (noAlignedReadsMsg sampleMasker)]) brokenArchiveWorld).
Proof.
  apply (extractAlignedReads_IndexError sampleMasker brokenArchiveWorld brokenArchive
           [Aln "M1" 7] [Aln "M1" 10]).
  - vm_compute; reflexivity.
  - reflexivity.
  - repeat constructor.
  - discriminate.
Defined.

(** The run on the archive whose iteration fails masks read 7, inserted
    before the failure, and ends with the code 0. *)
Example broken_archive_run :
  (run "in.cmp.h5" "in.fofn" "out.fofn" brokenArchiveWorld).1 = Ret 0
  ∧ tablesAt (fs (run "in.cmp.h5" "in.fofn" "out.fofn" brokenArchiveWorld).2)
      "/work/out/M1.rgn.h5"
    = [RgnH5IO.setHQRegion read7 0 0; read8; read9; read10].
Proof. split; vm_compute; reflexivity. Qed.

(** ** The name of the output file *)

(** The two names of the spec: a name with a part index keeps it, a name of
    the old form gives way to the declared movie name. *)
Example movieId_part_index :
  movieId "m130226_022844_..._s1_p0.3.rgn.h5" "M1" = "m130226_022844_..._s1_p0.3"
  ∧ stemOf "m130226_022844_..._s1_p0.3.rgn.h5" "M1" = "m130226_022844_..._s1_p0.3".
Proof. split; vm_compute; reflexivity. Qed.

Example movieId_old_format :
  movieId "m130226_022844_..._s1_p0.rgn.h5" "M1" = "M1"
  ∧ stemOf "m130226_022844_..._s1_p0.rgn.h5" "M1" = "M1".
Proof. split; vm_compute; reflexivity. Qed.

(** C4: the rule of the claim and the code part on file names that [rx]
    matches without their ending in a dot, a digit and [.rgn.h5]. The dot
    before [rgn] is not escaped in [rx], so [m130226_s1_p0.1_rgn.h5], which
    passes the check of the suffix [rgn.h5], is taken for a multi-part name
    and keeps its stem where the claim asks for the declared movie name; and
    [rx] is searched for anywhere in the name, the name being cut at the
    first match of [.rgn\.h5], so that [m.1.rgn.h5.bak.rgn.h5] and
    [a.rgn.h5.2.rgn.h5] get the stems [m.1] and [a]. *)
Theorem movieId_unescaped_dot :
  PyStr.endswith "m130226_s1_p0.1_rgn.h5" "rgn.h5" = true
  ∧ movieId "m130226_s1_p0.1_rgn.h5" "M1" = "m130226_s1_p0.1"
  ∧ stemOf "m130226_s1_p0.1_rgn.h5" "M1" = "M1"
  ∧ movieId "m.1.rgn.h5.bak.rgn.h5" "M1" = "m.1"
  ∧ stemOf "m.1.rgn.h5.bak.rgn.h5" "M1" = "M1"
  ∧ movieId "a.rgn.h5.2.rgn.h5" "M1" = "a"
  ∧ stemOf "a.rgn.h5.2.rgn.h5" "M1" = "a.rgn.h5.2".
Proof. repeat split; vm_compute; reflexivity. Qed.

(** * Further properties *)

(** ** The index build: exceptions that are not caught *)

Lemma addAlignments_app (l1 l2 : list alnItem) (d : AlignmentIndex) :
  addAlignments d (l1 ++ l2)%list =
    match addAlignments d l1 with
    | (d', None) => addAlignments d' l2
    | (d', Some e) => (d', Some e)
    end.
Proof.
  revert d. induction l1 as [|[m h|e] l1 IH]; intros d; simpl; [done| |done].
  destruct (d !! m); [apply IH|done].
Qed.

(** X1: an alignment record of a movie that the movie table does not list
    makes the index build fail with the [KeyError] of the dictionary, which
    the [except] clause does not catch: no warning is emitted, the reader
    stays open, no file is touched, and [run] reports the exception and
    returns 1. *)
Theorem extractAlignedReads_KeyError (self : AlignedReadsMasker) (w : World)
    (c : CmpH5) (pre post : list alnItem) (movie : string) (hole : Z) :
  fs w !! OsPath.abspath (cwd w) (inCmpFile self) = Some (CmpFile (inr c)) →
  alignments c = (pre ++ Aln movie hole :: post)%list →
  Forall (alignmentOf (movieInfoTable_Name c)) pre →
  movie ∉ movieInfoTable_Name c →
  _extractAlignedReads self w =
    (Exc (KeyError movie),
     record [CmpReaderOpen (OsPath.abspath (cwd w) (inCmpFile self))] w)
  ∧ run (inCmpFile self) (inRgnFofn self) (outRgnFofn self) w =
      (Ret 1,
       record (startLogs ++
               [CmpReaderOpen (OsPath.abspath (cwd w) (inCmpFile self));
                LogException (KeyError movie); PrintExc (KeyError movie)]) w).
Proof.
  intros Hfile Hitems Hpre Hmovie.
  assert (Hadd : ∃ d, addAlignments (foldl setdefault ∅ (movieInfoTable_Name c))
                        (alignments c) = (d, Some (KeyError movie))).
  { rewrite Hitems, addAlignments_app.
    destruct (addAlignments_ok pre (foldl setdefault ∅ (movieInfoTable_Name c)))
      as (d' & -> & Hd'); [by apply alignmentOf_seeded|].
    exists d'. simpl.
    by rewrite Hd', seed_lookup, lookup_empty, decide_False. }
  destruct Hadd as [d Hadd].
  assert (Hextract : ∀ w0, fs w0 = fs w → cwd w0 = cwd w →
    _extractAlignedReads self w0 =
      (Exc (KeyError movie),
       record [CmpReaderOpen (OsPath.abspath (cwd w) (inCmpFile self))] w0)).
  { intros w0 Hfs Hcwd. unfold _extractAlignedReads, CmpH5Reader.
    rewrite Hfs, Hcwd, Hfile. simpl. rewrite Hadd. reflexivity. }
  split; [by apply Hextract|].
  rewrite run_maskAlignedReads. destruct self as [a b c']. simpl in *.
  rewrite maskAlignedReads_extract, (Hextract (record startLogs w)) by done.
  by rewrite !record_record.
Qed.

Lemma extractAlignedReads_KeyError_witness :
  _extractAlignedReads sampleMasker strayMovieWorld =
    (Exc (KeyError "M9"),
     record [CmpReaderOpen (OsPath.abspath (cwd strayMovieWorld)
                              (inCmpFile sampleMasker))] strayMovieWorld)
  ∧ run (inCmpFile sampleMasker) (inRgnFofn sampleMasker) (outRgnFofn sampleMasker)
        strayMovieWorld =
      (Ret 1,
       record (startLogs ++
               [CmpReaderOpen (OsPath.abspath (cwd strayMovieWorld)
                                 (inCmpFile sampleMasker));
                LogException (KeyError "M9"); PrintExc (KeyError "M9")])
         strayMovieWorld).
Proof.
  apply (extractAlignedReads_KeyError sampleMasker strayMovieWorld strayMovieArchive
           [Aln "M1" 7] [Aln "M1" 10] "M9" 3).
  - vm_compute; reflexivity.
  - reflexivity.
  - repeat constructor.
  - vm_compute. intros H. inversion H as [|? ? ? H']; inversion H'.
Defined.

(** X2: the index build changes no file and not the working directory,
    whatever its outcome, and adds to the trace only calls that change no
    file. It closes the reader only when the iteration ran to its end: then
    opening and closing the reader is all it did, and an index is returned;
    when an exception was raised, caught or not, the reader is not closed. *)
Theorem extractAlignedReads_frame (self : AlignedReadsMasker) (w w' : World)
    (r : outcome AlignmentIndex) :
  _extractAlignedReads self w = (r, w') →
  fs w' = fs w ∧ cwd w' = cwd w
  ∧ ∃ evs, trace w' = (trace w ++ evs)%list
           ∧ Forall readOnly evs
           ∧ (CmpReaderClose (OsPath.abspath (cwd w) (inCmpFile self)) ∈ evs →
              evs = [CmpReaderOpen (OsPath.abspath (cwd w) (inCmpFile self));
                     CmpReaderClose (OsPath.abspath (cwd w) (inCmpFile self))]
              ∧ ∃ alignedReads, r = Ret alignedReads)
           ∧ (∀ f, CmpReaderClose f ∈ evs →
              f = OsPath.abspath (cwd w) (inCmpFile self)).
Proof.
  unfold _extractAlignedReads, CmpH5Reader.
  set (k := OsPath.abspath (cwd w) (inCmpFile self)).
  assert (Hno : ∀ (evs tr : list event),
    tr = (trace w ++ evs)%list →
    Forall (λ e, match e with CmpReaderClose _ => False | _ => True end) evs →
    Forall readOnly evs →
    ∀ r0, ∃ evs0, tr = (trace w ++ evs0)%list
      ∧ Forall readOnly evs0
      ∧ (CmpReaderClose k ∈ evs0 →
         evs0 = [CmpReaderOpen k; CmpReaderClose k]
         ∧ ∃ alignedReads : AlignmentIndex, r0 = Ret alignedReads)
      ∧ (∀ f, CmpReaderClose f ∈ evs0 → f = k)).
  { intros evs tr -> Hnc Hro r0. exists evs. split; [done|]. split; [done|].
    rewrite Forall_forall in Hnc. split.
    - intros Hin. by apply Hnc in Hin.
    - intros f Hin. by apply Hnc in Hin. }
  destruct (fs w !! k) as [[| c | sd tables | [e|c]]|].
  1-3, 6: intros [= <- <-]; split; [done|]; split; [done|];
    apply (Hno []); [by rewrite app_nil_r|done..].
  - destruct e;
      cbv [except_clause logging emit raise mbind Py_bind mret Py_ret];
      intros [= <- <-]; (split; [done|]; split; [done|]);
      first [ apply (Hno []); [by rewrite app_nil_r|done..]
            | unfold record; rewrite ?step_step, trace_step;
              eapply Hno; [done|repeat constructor..] ].
  - cbn beta iota.
    destruct (addAlignments _ _) as [d [e|]].
    + destruct e;
        cbv [except_clause logging emit raise mbind Py_bind mret Py_ret];
        intros [= <- <-]; (split; [done|]; split; [done|]);
        unfold record; rewrite ?step_step, trace_step;
        eapply Hno; [done|repeat constructor..].
    + cbv [CmpH5Reader_close emit mbind Py_bind mret Py_ret].
      intros [= <- <-]. split; [done|]. split; [done|].
      unfold record. rewrite step_step, trace_step.
      eexists. split; [done|]. split; [repeat constructor|]. split.
      * intros _. split; [done|]. eauto.
      * intros f Hin. simpl in Hin.
        apply elem_of_cons in Hin as [Hin|Hin]; [done|].
        apply elem_of_cons in Hin as [[= ->]|Hin]; [done|].
        by apply elem_of_nil in Hin.
Qed.

Lemma extractAlignedReads_frame_witness :
  fs (_extractAlignedReads sampleMasker brokenArchiveWorld).2 = fs brokenArchiveWorld
  ∧ cwd (_extractAlignedReads sampleMasker brokenArchiveWorld).2 = cwd brokenArchiveWorld
  ∧ ∃ evs, trace (_extractAlignedReads sampleMasker brokenArchiveWorld).2
           = (trace brokenArchiveWorld ++ evs)%list
           ∧ Forall readOnly evs
           ∧ (CmpReaderClose (OsPath.abspath (cwd brokenArchiveWorld)
                                (inCmpFile sampleMasker)) ∈ evs →
              evs = [CmpReaderOpen (OsPath.abspath (cwd brokenArchiveWorld)
                                      (inCmpFile sampleMasker));
                     CmpReaderClose (OsPath.abspath (cwd brokenArchiveWorld)
                                       (inCmpFile sampleMasker))]
              ∧ ∃ alignedReads,
                  (_extractAlignedReads sampleMasker brokenArchiveWorld).1
                  = Ret alignedReads)
           ∧ (∀ f, CmpReaderClose f ∈ evs →
              f = OsPath.abspath (cwd brokenArchiveWorld) (inCmpFile sampleMasker)).
Proof.
  apply (extractAlignedReads_frame sampleMasker brokenArchiveWorld).
  by destruct (_extractAlignedReads sampleMasker brokenArchiveWorld).
Defined.

(** ** What the run adds to the trace *)

Section Adds.
Context (P : event → Prop) (HP : ∀ e, notFileClose e → P e).

Lemma adds_ret {A : Type} (a : A) : adds P (mret a).
Proof. intros w. exists []. split; [by rewrite app_nil_r|done]. Qed.

Lemma adds_raise {A : Type} (e : exn) : adds P (raise e : Py A).
Proof. intros w. exists []. split; [simpl; by rewrite app_nil_r|done]. Qed.

Lemma adds_bind {A B : Type} (m : Py A) (k : A → Py B) :
  adds P m → (∀ a, adds P (k a)) → adds P (m ≫= k).
Proof.
  intros Hm Hk w. rewrite bind_run. destruct (Hm w) as (evs1 & Htr1 & HP1).
  destruct (m w) as [[a|e] w1]; simpl in Htr1.
  - destruct (Hk a w1) as (evs2 & Htr2 & HP2). exists (evs1 ++ evs2)%list.
    split; [by rewrite Htr2, Htr1, (assoc_L (++))|by apply Forall_app].
  - by exists evs1.
Qed.

Lemma adds_step {A : Type} (o : outcome A) (files : gmap string node)
    (evs : list event) (w : World) :
  Forall notFileClose evs →
  ∃ evs0, trace (o, step files evs w).2 = (trace w ++ evs0)%list ∧ Forall P evs0.
Proof.
  intros Hevs. exists evs. split; [done|].
  eapply Forall_impl; [exact Hevs|exact HP].
Qed.

Lemma adds_same {A : Type} (o : outcome A) (w : World) :
  ∃ evs0, trace (o, w).2 = (trace w ++ evs0)%list ∧ Forall P evs0.
Proof. exists []. split; [simpl; by rewrite app_nil_r|done]. Qed.

Lemma adds_emit (e : event) : notFileClose e → adds P (emit e).
Proof. intros He w. apply adds_step. by constructor. Qed.

Lemma adds_logging (l : level) (msg : string) : adds P (logging l msg).
Proof. by apply adds_emit. Qed.

Lemma adds_os_path_exists (path : string) : adds P (os_path_exists path).
Proof. intros w. apply adds_same. Qed.

Lemma adds_os_mkdir (path : string) : adds P (os_mkdir path).
Proof.
  intros w. unfold os_mkdir. case_match; [apply adds_same|].
  apply adds_step. by repeat constructor.
Qed.

Lemma adds_open_w (path : string) : adds P (open_w path).
Proof.
  intros w. unfold open_w. case_match; [apply adds_same|].
  apply adds_step. by repeat constructor.
Qed.

Lemma adds_open_r_lines (path : string) : adds P (open_r_lines path).
Proof.
  intros w. unfold open_r_lines.
  destruct (fs w !! OsPath.abspath (cwd w) path) as [[| c | sd tables | o]|];
    try apply adds_same.
  apply adds_step. by repeat constructor.
Qed.

Lemma adds_maskRgnH5 (alignedReads : AlignmentIndex) (outDir fofn name : string) :
  adds P (maskRgnH5 alignedReads outDir fofn name).
Proof.
  intros w. rewrite maskRgnH5_run.
  destruct (fs w !! OsPath.abspath (cwd w) name) as [[| c | [sd|] inp | o]|];
    try apply adds_same.
  cbv zeta.
  match goal with |- context [if ?b then _ else _] => destruct b end;
    apply adds_step.
  - by repeat constructor.
  - unfold roundTrace. repeat (apply Forall_app; split);
      try (by repeat constructor).
    apply Forall_fmap, Forall_true. by intros rt.
Qed.

Lemma adds_maskRgnH5s (alignedReads : AlignmentIndex) (outDir fofn : string)
    (names : list string) :
  adds P (maskRgnH5s alignedReads outDir fofn names).
Proof.
  induction names as [|name names IH]; [apply adds_ret|].
  simpl. case_match.
  - apply adds_bind; [apply adds_logging|intros _; apply adds_ret].
  - apply adds_bind; [apply adds_maskRgnH5|by intros _].
Qed.

Lemma adds_extract (self : AlignedReadsMasker) : adds P (_extractAlignedReads self).
Proof.
  intros w. unfold _extractAlignedReads, CmpH5Reader.
  destruct (fs w !! OsPath.abspath (cwd w) (inCmpFile self))
    as [[| c | sd tables | [e|c]]|]; try apply adds_same.
  - destruct e; try apply adds_same;
      (apply adds_bind; [by apply adds_emit|intros _];
       apply adds_bind; [apply adds_logging|intros _; apply adds_ret]).
  - cbn beta iota. destruct (addAlignments _ _) as [d [e|]].
    + assert (Hclause : adds P (except_clause self e d)).
      { destruct e; try apply adds_raise;
          (apply adds_bind; [by apply adds_emit|intros _];
           apply adds_bind; [apply adds_logging|intros _; apply adds_ret]). }
      destruct (Hclause (record [CmpReaderOpen (OsPath.abspath (cwd w) (inCmpFile self))] w))
        as (evs & Htr & Hevs).
      rewrite Htr. eexists. unfold record. rewrite trace_step, <- (assoc_L (++)).
      split; [done|]. apply Forall_cons. split; [by apply HP|done].
    + assert (Hclose : adds P (CmpH5Reader_close
                 (OsPath.abspath (cwd w) (inCmpFile self), c) ≫= λ _, mret d)).
      { apply adds_bind; [by apply adds_emit|intros _; apply adds_ret]. }
      destruct (Hclose (record [CmpReaderOpen (OsPath.abspath (cwd w) (inCmpFile self))] w))
        as (evs & Htr & Hevs).
      rewrite Htr. eexists. unfold record. rewrite trace_step, <- (assoc_L (++)).
      split; [done|]. apply Forall_cons. split; [by apply HP|done].
Qed.

Lemma addsWhen_bind {A B : Type} (Q : outcome B → Prop) (m : Py A) (k : A → Py B) :
  adds P m → (∀ a, addsWhen P Q (k a)) → addsWhen P Q (m ≫= k).
Proof.
  intros Hm Hk w. rewrite bind_run. destruct (Hm w) as (evs1 & Htr1 & HP1).
  destruct (m w) as [[a|e] w1]; simpl in Htr1.
  - destruct (Hk a w1) as (evs2 & Htr2 & HP2). exists (evs1 ++ evs2)%list.
    split; [by rewrite Htr2, Htr1, (assoc_L (++))|].
    intros HQ. apply Forall_app. auto.
  - by exists evs1.
Qed.

(** Until it leaves the loop, [maskWith] adds no [close()] of a text file;
    it adds one when the loop has run to its end, and then returns 0. *)
Lemma addsWhen_maskWith (self : AlignedReadsMasker) (alignedReads : AlignmentIndex) :
  addsWhen P (λ r, r = Ret 1) (maskWith self alignedReads).
Proof.
  unfold maskWith.
  apply addsWhen_bind; [apply adds_logging|intros _]. cbv zeta.
  apply addsWhen_bind; [apply adds_os_path_exists|intros ex].
  apply addsWhen_bind;
    [destruct (negb ex); [apply adds_os_mkdir|apply adds_ret]|intros _].
  apply addsWhen_bind; [apply adds_open_w|intros f].
  apply addsWhen_bind; [apply adds_open_r_lines|intros lines].
  apply addsWhen_bind; [apply adds_maskRgnH5s|intros [code|]].
  - intros w. exists []. split; [simpl; by rewrite app_nil_r|done].
  - intros w. exists [FileClose f]. split; [done|]. by intros [=].
Qed.

Lemma addsWhen_maskAlignedReads (self : AlignedReadsMasker) :
  addsWhen P (λ r, r = Ret 1) (maskAlignedReads self).
Proof.
  unfold maskAlignedReads.
  apply addsWhen_bind; [apply adds_logging|intros _].
  apply addsWhen_bind; [apply adds_logging|intros _].
  apply addsWhen_bind; [apply adds_extract|intros alignedReads].
  apply addsWhen_maskWith.
Qed.

End Adds.

Lemma last_app_nonempty {A : Type} (l1 l2 : list A) :
  l2 ≠ [] → last (l1 ++ l2) = last l2.
Proof.
  destruct l2 as [|x l2 _] using rev_ind; [done|]. intros _.
  by rewrite (assoc_L (++)), !last_snoc.
Qed.

(** How the loop over the manifest ends when it returns. *)
Lemma maskRgnH5s_outcome (alignedReads : AlignmentIndex) (outDir fofn : string)
    (names : list string) (w w' : World) (r : option Z) :
  maskRgnH5s alignedReads outDir fofn names w = (Ret r, w') →
  (r = None ∧ Forall (λ name, PyStr.endswith name "rgn.h5" = true) names)
  ∨ (r = Some 1 ∧ ∃ bad, bad ∈ names ∧ PyStr.endswith bad "rgn.h5" = false).
Proof.
  revert w. induction names as [|name names IH]; intros w.
  - intros [= <- <-]. by left.
  - destruct (PyStr.endswith name "rgn.h5") eqn:Hname.
    + rewrite maskRgnH5s_good by done.
      destruct (maskRgnH5 alignedReads outDir fofn name w) as [[[]|e] w1]; [|done].
      intros Hrest. destruct (IH _ Hrest) as [[-> Hall]|[-> (bad & Hin & Hbad)]].
      * left. split; [done|by constructor].
      * right. split; [done|]. exists bad. split; [by right|done].
    + rewrite maskRgnH5s_bad by done. intros [= <- <-].
      right. split; [done|]. exists name. split; [by left|done].
Qed.

(** X3: [maskAlignedReads] returns nothing but 0 and 1, and closes the
    output manifest exactly when it returns 0. It returns 0 when every line
    of the input manifest ends with [rgn.h5], closing the output manifest
    being the last thing it does; it returns 1 when some line does not, and
    then no text file has been closed: the early [return 1] leaves the
    output manifest open. *)
Theorem manifest_closed_iff_0 (self : AlignedReadsMasker) (w w' : World)
    (content : string) (code : Z) :
  fs w !! OsPath.abspath (cwd w) (inRgnFofn self) = Some (Text content) →
  OsPath.abspath (cwd w) (inRgnFofn self) ≠ OsPath.abspath (cwd w) (outRgnFofn self) →
  maskAlignedReads self w = (Ret code, w') →
  ∃ evs, trace w' = (trace w ++ evs)%list
    ∧ ((code = 0
        ∧ Forall (λ name, PyStr.endswith name "rgn.h5" = true)
            (PyStr.strip <$> PyStr.lines content)
        ∧ last evs = Some (FileClose (OsPath.abspath (cwd w) (outRgnFofn self))))
       ∨ (code = 1
          ∧ (∃ bad, bad ∈ PyStr.strip <$> PyStr.lines content
                    ∧ PyStr.endswith bad "rgn.h5" = false)
          ∧ Forall notFileClose evs)).
Proof.
  intros Hin Hne Hrun.
  destruct (addsWhen_maskAlignedReads notFileClose (λ e H, H) self w)
    as (evs & Htr & Hevs).
  rewrite Hrun in Htr, Hevs. simpl in Htr, Hevs.
  exists evs. split; [done|].
  rewrite maskAlignedReads_extract in Hrun.
  destruct (adds_extract (λ _, True) (λ e H, I) self (record startLogs w))
    as (evs1 & Htr1 & _).
  destruct (_extractAlignedReads self (record startLogs w))
    as [[alignedReads|e] w0] eqn:Hextract; [|done].
  simpl in Htr1.
  apply extract_frame in Hextract as [Hfs Hcwd]. simpl in Hfs, Hcwd.
  rewrite <- Hfs, <- Hcwd in Hin. rewrite <- Hcwd in Hne.
  destruct (maskWith_loop self alignedReads w0 w' code content Hin Hne Hrun)
    as (w1 & w2 & returned & Hgrows & Hout & Hloop & Hret).
  rewrite Hcwd in Hret.
  destruct (maskRgnH5s_outcome _ _ _ _ _ _ _ Hloop)
    as [[-> Hall]|[-> Hbad]]; simpl in Hret.
  - left. destruct Hret as [-> Hw']. split; [done|]. split; [done|].
    assert (Hlast : last (trace w ++ evs)%list
                    = Some (FileClose (OsPath.abspath (cwd w) (outRgnFofn self)))).
    { rewrite <- Htr, Hw'. unfold record. rewrite trace_step. apply last_snoc. }
    destruct (addsWhen_maskWith (λ _, True) (λ e H, I) self alignedReads w0)
      as (evs2 & Htr2 & _).
    rewrite Hrun in Htr2. simpl in Htr2.
    rewrite Htr2, Htr1 in Htr. unfold record in Htr.
    rewrite ?trace_step, <- !(assoc_L (++)) in Htr.
    apply app_inv_head in Htr. subst evs.
    by rewrite last_app_nonempty in Hlast.
  - right. destruct Hret as [-> ->]. split; [done|]. split; [done|]. by apply Hevs.
Qed.

Lemma manifest_closed_iff_0_witness :
  ∃ evs, trace (maskAlignedReads sampleMasker (sampleWorld ["a.rgn.h5"])).2
         = (trace (sampleWorld ["a.rgn.h5"]) ++ evs)%list
    ∧ ((0 = 0
        ∧ Forall (λ name, PyStr.endswith name "rgn.h5" = true)
            (PyStr.strip <$> PyStr.lines (catLines ["a.rgn.h5"]))
        ∧ last evs = Some (FileClose (OsPath.abspath (cwd (sampleWorld ["a.rgn.h5"]))
                                        (outRgnFofn sampleMasker))))
       ∨ (0 = 1
          ∧ (∃ bad, bad ∈ PyStr.strip <$> PyStr.lines (catLines ["a.rgn.h5"])
                    ∧ PyStr.endswith bad "rgn.h5" = false)
          ∧ Forall notFileClose evs)).
Proof.
  apply (manifest_closed_iff_0 sampleMasker (sampleWorld ["a.rgn.h5"]) _
           (catLines ["a.rgn.h5"]) 0).
  - vm_compute; reflexivity.
  - vm_compute. discriminate.
  - vm_compute; reflexivity.
Defined.

(** ** Lines of the manifest that are blank *)

Lemma lstrip_chars_spaces (l : list ascii) :
  Forall (λ c, PyStr.isspace c = true) l → PyStr.lstrip_chars l = [].
Proof.
  induction 1 as [|c l Hc _ IH]; [done|]. simpl. by rewrite Hc.
Qed.

(** X4: a line of the input manifest that holds nothing but white space, as
    an empty line does, is stripped to the empty string, which does not end
    with [rgn.h5]: when the loop reaches it, the error is logged and 1 is
    returned, and the lines after it are not processed. *)
Theorem blank_line_rejected (alignedReads : AlignmentIndex) (outDir fofn : string)
    (line : string) (rest : list string) (w : World) :
  Forall (λ c, PyStr.isspace c = true) (PyStr.chars line) →
  PyStr.strip line = EmptyString
  ∧ maskRgnH5s alignedReads outDir fofn (PyStr.strip <$> line :: rest) w =
      (Ret (Some 1), record [Log ERROR (notRgnH5Msg EmptyString)] w).
Proof.
  intros Hspaces.
  assert (Hstrip : PyStr.strip line = EmptyString).
  { unfold PyStr.strip. by rewrite (lstrip_chars_spaces _ Hspaces). }
  split; [done|]. rewrite fmap_cons, Hstrip. by apply maskRgnH5s_bad.
Qed.

Lemma blank_line_rejected_witness :
  PyStr.strip newline = EmptyString
  ∧ maskRgnH5s sampleIndex "out" "/work/out.fofn"
      (PyStr.strip <$> newline :: ["a.rgn.h5"]) openedWorld =
      (Ret (Some 1), record [Log ERROR (notRgnH5Msg EmptyString)] openedWorld).
Proof.
  apply (blank_line_rejected sampleIndex "out" "/work/out.fofn" newline
           ["a.rgn.h5"] openedWorld).
  repeat constructor.
Defined.

(** ** One file named as both manifests *)

Lemma ret_bind {A B : Type} (a : A) (k : A → Py B) (w : World) :
  (mret a ≫= k) w = k a w.
Proof. reflexivity. Qed.

(** X5: when the input manifest and the output manifest are the same file,
    the file is emptied when it is opened for writing, before it is read: no
    line is seen, no region table is processed, and 0 is returned. (The
    output directory is taken to exist and the manifest to be writable.) *)
Theorem same_manifest_emptied (self : AlignedReadsMasker)
    (alignedReads : AlignmentIndex) (w : World) :
  outRgnFofn self ≠ EmptyString →
  (os_path_exists (OsPath.splitext_root (outRgnFofn self)) w).1 = Ret true →
  is_dir (fs w) (OsPath.abspath (cwd w) (outRgnFofn self)) = false →
  is_dir (fs w) (parent (OsPath.abspath (cwd w) (outRgnFofn self))) = true →
  OsPath.abspath (cwd w) (inRgnFofn self) = OsPath.abspath (cwd w) (outRgnFofn self) →
  maskWith self alignedReads w =
    (Ret 0,
     step (<[OsPath.abspath (cwd w) (outRgnFofn self) := Text EmptyString]> (fs w))
       [Log INFO (extractedMsg self alignedReads);
        OpenW (OsPath.abspath (cwd w) (outRgnFofn self));
        OpenR (OsPath.abspath (cwd w) (outRgnFofn self));
        FileClose (OsPath.abspath (cwd w) (outRgnFofn self))] w).
Proof.
  intros Hname Hex Hk Hparent Hsame.
  unfold os_path_exists in Hex. simpl in Hex. injection Hex as Hex.
  apply String.eqb_neq in Hname.
  unfold maskWith, logging, emit. py_step. cbv zeta.
  rewrite bind_run. unfold os_path_exists at 1. cbn beta iota.
  rewrite ?cwd_step, ?fs_step, Hex. cbn [negb]. rewrite ret_bind, bind_run.
  unfold open_w at 1. rewrite ?cwd_step, ?fs_step, Hname, Hk, Hparent.
  cbn [orb negb]. py_step.
  unfold open_r_lines at 1. rewrite ?cwd_step, ?fs_step, Hsame, lookup_insert_eq.
  py_step. change (PyStr.strip <$> PyStr.lines EmptyString) with (@nil string).
  simpl maskRgnH5s. unfold file_close, emit, record.
  cbv [mret Py_ret mbind Py_bind]. rewrite step_step. reflexivity.
Qed.

Lemma same_manifest_emptied_witness :
  maskWith (mkAlignedReadsMasker "in.cmp.h5" "in.fofn" "in.fofn") sampleIndex
    sameManifestWorld =
    (Ret 0,
     step (<[OsPath.abspath (cwd sameManifestWorld) "in.fofn" := Text EmptyString]>
             (fs sameManifestWorld))
       [Log INFO (extractedMsg (mkAlignedReadsMasker "in.cmp.h5" "in.fofn" "in.fofn")
                    sampleIndex);
        OpenW (OsPath.abspath (cwd sameManifestWorld) "in.fofn");
        OpenR (OsPath.abspath (cwd sameManifestWorld) "in.fofn");
        FileClose (OsPath.abspath (cwd sameManifestWorld) "in.fofn")]
       sameManifestWorld).
Proof.
  apply (same_manifest_emptied (mkAlignedReadsMasker "in.cmp.h5" "in.fofn" "in.fofn")
           sampleIndex sameManifestWorld).
  - discriminate.
  - vm_compute; reflexivity.
  - vm_compute; reflexivity.
  - vm_compute; reflexivity.
  - reflexivity.
Defined.

(** ** The exit code and the logging level *)

Lemma maskAlignedReads_trace (self : AlignedReadsMasker) (w : World) :
  ∃ evs, trace (maskAlignedReads self w).2 = (trace w ++ startLogs ++ evs)%list.
Proof.
  rewrite maskAlignedReads_extract.
  destruct (adds_extract (λ _, True) (λ e H, I) self (record startLogs w))
    as (evs1 & Htr1 & _).
  destruct (_extractAlignedReads self (record startLogs w)) as [[d|e] w0];
    simpl in Htr1.
  - destruct (addsWhen_maskWith (λ _, True) (λ e H, I) self d w0) as (evs2 & Htr2 & _).
    exists (evs1 ++ evs2)%list. by rewrite Htr2, Htr1, <- !(assoc_L (++)).
  - exists evs1. simpl. by rewrite Htr1, <- !(assoc_L (++)).
Qed.

(** X6: [main()] is left by an exception only before [run] is called: by
    the [SystemExit] of [parse_args], with the exit code of the parser, or
    by what [logging.basicConfig] raises. Once both have returned, [main]
    raises nothing and returns 0 or 1: it returns 1 exactly when
    [maskAlignedReads] raised an exception, and 0 whenever it returned,
    whatever it returned. The last thing logged is then the exit code. *)
Theorem main_exit_code (parse_args : World → (Z + Cli.Namespace) * World)
    (basicConfig : Cli.LogConfig → Py unit) (w : World) :
  match parse_args w with
  | (inl code, w1) => Cli.main parse_args basicConfig w = (inl code, w1)
  | (inr args, w1) =>
      match basicConfig
              (Cli.configLog (Cli.debug args) (Cli.info args) (Cli.logFile args))
              w1 with
      | (Exc e, w2) => Cli.main parse_args basicConfig w = (inr (Exc e), w2)
      | (Ret _, w2) =>
          ∃ code, (Cli.main parse_args basicConfig w).1 = inr (Ret code)
            ∧ (code = 0 ∨ code = 1)
            ∧ (code = 1
               ↔ ∃ e, (maskAlignedReads
                         (mkAlignedReadsMasker (Cli.inCmpFile args)
                            (Cli.inRgnFofn args) (Cli.outRgnFofn args)) w2).1
                      = Exc e)
            ∧ (code = 0
               ↔ ∃ returned,
                   (maskAlignedReads
                      (mkAlignedReadsMasker (Cli.inCmpFile args)
                         (Cli.inRgnFofn args) (Cli.outRgnFofn args)) w2).1
                   = Ret returned)
            ∧ last (trace (Cli.main parse_args basicConfig w).2)
              = Some (Log INFO ("Exiting mask_aligned_reads.py " ++ __VERSION__
                                ++ " with rturn code " ++ pretty code ++ "."))
      end
  end.
Proof.
  unfold Cli.main. destruct (parse_args w) as [[code|args] w1]; [done|].
  cbn [Cli.mainWith fst snd].
  destruct (basicConfig _ w1) as [[[]|e] w2]; [|done].
  rewrite bind_run, run_maskAlignedReads.
  destruct (maskAlignedReads _ w2) as [[returned|e] w'] eqn:Hrun; simpl.
  - exists 0. split; [done|]. split; [by left|]. split; [|split].
    + split; [done|]. by intros [e [=]].
    + split; [eauto|done].
    + apply last_snoc.
  - exists 1. split; [done|]. split; [by right|]. split; [|split].
    + split; [eauto|done].
    + split; [done|]. by intros [r [=]].
    + apply last_snoc.
Qed.

(** X7: [main] hands [args.debug] to the parameter [isInfo] of [configLog]
    and [args.info] to its parameter [isDebug]. So the level is [DEBUG] with
    [--info], [INFO] with [--debug] alone and [ERROR] with neither: of the
    two records that every run logs first, the one at level [DEBUG] reaches
    the log if and only if [--info] is given, and the one at level [INFO]
    if and only if [--info] or [--debug] is. *)
Theorem configLog_levels (args : Cli.Namespace) (w : World) :
  Cli.logLevel (Cli.mainWith args).1
    = (if Cli.info args then DEBUG else if Cli.debug args then INFO else ERROR)
  ∧ ∃ evs, trace ((Cli.mainWith args).2 w).2 = (trace w ++ startLogs ++ evs)%list
      ∧ (Log DEBUG "Log Level set to DEBUG"
           ∈ List.filter (Cli.emitted (Cli.mainWith args).1) (startLogs ++ evs)
         ↔ Cli.info args = true)
      ∧ (Log INFO "Log level set to INFO"
           ∈ List.filter (Cli.emitted (Cli.mainWith args).1) (startLogs ++ evs)
         ↔ Cli.info args || Cli.debug args = true).
Proof.
  assert (Hlevel : Cli.logLevel (Cli.mainWith args).1
    = (if Cli.info args then DEBUG else if Cli.debug args then INFO else ERROR)).
  { unfold Cli.mainWith, Cli.configLog. simpl. by destruct (Cli.logFile args). }
  split; [exact Hlevel|].
  assert (Htrace : ∃ evs, trace ((Cli.mainWith args).2 w).2
                          = (trace w ++ startLogs ++ evs)%list).
  { unfold Cli.mainWith. simpl. rewrite bind_run, run_maskAlignedReads.
    destruct (maskAlignedReads_trace
                (mkAlignedReadsMasker (Cli.inCmpFile args) (Cli.inRgnFofn args)
                   (Cli.outRgnFofn args)) w) as (evs & Htr).
    destruct (maskAlignedReads _ w) as [[returned|e] w']; simpl in Htr;
      unfold logging, emit, record, step; simpl;
      rewrite Htr, <- !(assoc_L (++)); eauto. }
  destruct Htrace as (evs & Htr). exists evs. split; [exact Htr|].
  rewrite !list_elem_of_In, !filter_In, <- !list_elem_of_In.
  unfold Cli.emitted, Cli.isEnabledFor. rewrite Hlevel. split.
  - split.
    + intros [_ Hen]. by destruct (Cli.info args), (Cli.debug args).
    + intros ->. split; [|done]. apply elem_of_app. left. by right; left.
  - split.
    + intros [_ Hen]. by destruct (Cli.info args), (Cli.debug args).
    + intros Hor. split; [apply elem_of_app; left; by left|].
      by destruct (Cli.info args), (Cli.debug args).
Qed.
(** ** [createChemistryHeader.py] *)

Section ChemistryFacts.
Import Chemistry.

Lemma format_rgds_entries_fmap (rgds_entries : gmap string triple) :
  format_rgds_entries rgds_entries = rgds_string <$> rgds_entries.
Proof.
  unfold format_rgds_entries.
  apply (map_fold_weak_ind (λ r m, r = rgds_string <$> m)).
  - by rewrite fmap_empty.
  - intros i x m r _ ->. by rewrite fmap_insert.
Qed.

(** X8: [format_rgds_entries] returns a dictionary with the keys of its
    argument, whatever the order in which the dictionary yields them: each
    read-group id is mapped to the string built from its own triple, and an
    id that the argument lacks is not a key of the result. *)
Theorem format_rgds_entries_lookup (rgds_entries : gmap string triple) (rg_id : string) :
  format_rgds_entries rgds_entries !! rg_id
  = (λ t : triple, "BINDINGKIT=" ++ t.1.1 ++ ";SEQUENCINGKIT=" ++ t.1.2
                   ++ ";SOFTWAREVERSION=" ++ t.2) <$> rgds_entries !! rg_id.
Proof.
  unfold format_rgds_entries. revert rg_id.
  apply (map_fold_weak_ind
           (λ r m, ∀ rg_id, r !! rg_id = rgds_string <$> m !! rg_id)).
  - intros rg_id. by rewrite !lookup_empty.
  - intros i x m r _ IH rg_id. destruct (decide (i = rg_id)) as [->|Hne].
    + by rewrite !lookup_insert_eq.
    + by rewrite !lookup_insert_ne, IH.
Qed.

Lemma extend_rg_entry_other (s : gmap string string) (e : tags) (t : string) :
  t ≠ "DS" → extend_rg_entry s e !! t = e !! t.
Proof.
  intros Ht. unfold extend_rg_entry.
  repeat case_match; by rewrite ?lookup_insert_ne.
Qed.

Lemma extend_rg_entry_DS (s : gmap string string) (e : tags) :
  extend_rg_entry s e !! "DS"
  = match e !! "ID" ≫= (s !!.) with
    | None => e !! "DS"
    | Some new_ds_string =>
        Some (match e !! "DS" with
              | Some ds => ds ++ ";" ++ new_ds_string
              | None => new_ds_string
              end)
    end.
Proof.
  unfold extend_rg_entry. destruct (e !! "ID") as [rg_id|]; simpl; [|done].
  destruct (s !! rg_id) as [new|]; [|done].
  destruct (e !! "DS"); by rewrite lookup_insert_eq.
Qed.

Lemma extend_rg_entries_fmap (s : gmap string string) (rgs : list tags) :
  extend_rg_entries s rgs = extend_rg_entry s <$> rgs.
Proof. induction rgs as [|e rgs IH]; simpl; by f_equal. Qed.

(** X9: [extend_header] raises nothing but the [KeyError] of a header
    without [RG] lines. Otherwise the new header has the lines of the old
    one of every other type, and as many [RG] lines in the same order; in an
    [RG] line every tag but [DS] is as it was, and [DS] is changed only in a
    line whose [ID] is a key of [new_rgds_strings]: the new string is
    appended after a semicolon to a [DS] that was there, and becomes the
    [DS] otherwise. *)
Theorem extend_header_lines (old_header : header) (new_rgds_strings : gmap string string) :
  match extend_header old_header new_rgds_strings with
  | inl e => e = KeyError "RG" ∧ old_header !! "RG" = None
  | inr new_header =>
      (∀ k, k ≠ "RG" → new_header !! k = old_header !! k)
      ∧ ∃ rgs rgs', old_header !! "RG" = Some rgs ∧ new_header !! "RG" = Some rgs'
          ∧ length rgs' = length rgs
          ∧ ∀ i e e', rgs !! i = Some e → rgs' !! i = Some e' →
              (∀ t, t ≠ "DS" → e' !! t = e !! t)
              ∧ e' !! "DS"
                = match e !! "ID" ≫= (new_rgds_strings !!.) with
                  | None => e !! "DS"
                  | Some new_ds_string =>
                      Some (match e !! "DS" with
                            | Some ds => ds ++ ";" ++ new_ds_string
                            | None => new_ds_string
                            end)
                  end
  end.
Proof.
  unfold extend_header. destruct (old_header !! "RG") as [rgs|] eqn:Hrg; [|done].
  split.
  - intros k Hk. by rewrite lookup_insert_ne.
  - exists rgs, (extend_rg_entries new_rgds_strings rgs).
    rewrite lookup_insert_eq, extend_rg_entries_fmap, length_fmap.
    do 3 (split; [done|]).
    intros i e e' He He'. rewrite list_lookup_fmap, He in He'.
    injection He' as <-. split.
    + intros t Ht. by apply extend_rg_entry_other.
    + apply extend_rg_entry_DS.
Qed.

(** X10: when no [RG] line has an [ID] that is a key of
    [new_rgds_strings], as when no chemistry was found at all,
    [extend_header] returns a header equal to the old one. *)
Theorem extend_header_no_match (old_header : header) (rgs : list tags)
    (new_rgds_strings : gmap string string) :
  old_header !! "RG" = Some rgs →
  (∀ e rg_id, e ∈ rgs → e !! "ID" = Some rg_id → new_rgds_strings !! rg_id = None) →
  extend_header old_header new_rgds_strings = inr old_header.
Proof.
  intros Hrg Hnone. unfold extend_header. rewrite Hrg. f_equal.
  rewrite <- (insert_id old_header "RG" rgs Hrg) at 2. f_equal.
  clear Hrg. induction rgs as [|e rgs IH]; [done|]. simpl. f_equal.
  - unfold extend_rg_entry. destruct (e !! "ID") as [rg_id|] eqn:Hid; [|done].
    by rewrite (Hnone e rg_id (list_elem_of_here _ _) Hid).
  - apply IH. intros e' rg_id He'. apply Hnone. by apply list_elem_of_further.
Qed.

Lemma extend_header_no_match_witness :
  extend_header sampleHeader {[ "rg9" := "BINDINGKIT=b;SEQUENCINGKIT=s;SOFTWAREVERSION=v" ]}
  = inr sampleHeader.
Proof.
  apply (extend_header_no_match sampleHeader
           [ {[ "ID" := "rg1"; "PU" := "M1"; "DS" := "READTYPE=SUBREAD" ]};
             {[ "ID" := "rg2"; "PU" := "M7" ]} ]).
  - vm_compute; reflexivity.
  - intros e rg_id He Hid.
    apply elem_of_cons in He as [->|He];
      [|apply elem_of_cons in He as [->|He]; [|by apply not_elem_of_nil in He]];
      vm_compute in Hid; injection Hid as <-; vm_compute; reflexivity.
Defined.

(** X11: for an input file whose header has no [RG] line, [main] ends with
    the [KeyError] of [new_header['RG']], whatever the bas files:
    [get_chemistry_info] returns its empty result, and [extend_header] then
    looks up the [RG] lines of the copy. *)
Theorem no_read_group_KeyError (input_header : header) (bas_files : list (string * triple)) :
  input_header !! "RG" = None →
  get_chemistry_info input_header bas_files false = inr (∅, [])
  ∧ new_header_of input_header bas_files = inl (KeyError "RG").
Proof.
  intros Hrg. unfold new_header_of, get_chemistry_info, extend_header.
  by rewrite !Hrg.
Qed.

Lemma no_read_group_KeyError_witness :
  get_chemistry_info {[ "HD" := [ {[ "VN" := "1.4" ]} ] ]} sampleBas false = inr (∅, [])
  ∧ new_header_of {[ "HD" := [ {[ "VN" := "1.4" ]} ] ]} sampleBas = inl (KeyError "RG").
Proof.
  apply (no_read_group_KeyError {[ "HD" := [ {[ "VN" := "1.4" ]} ] ]} sampleBas).
  vm_compute; reflexivity.
Defined.

Lemma rg_loop_strict (d : gmap string triple) (rgs : list tags) :
  ∀ acc ws r ws',
    rg_loop true d rgs acc ws = inr (r, ws') →
    ws' = ws ∧ rg_loop false d rgs acc ws = inr (r, ws').
Proof.
  induction rgs as [|e rgs IH]; intros acc ws r ws'; simpl.
  - by intros [= <- <-].
  - destruct (e !! "ID") as [rg_id|]; [|done].
    destruct (e !! MOVIENAME_TAG) as [movie|]; [|done].
    destruct (d !! movie) as [t|]; [|done]. apply IH.
Qed.

(** X12: whenever [get_chemistry_info] returns with [fail_on_missing] set,
    it logs no warning, and it returns the same strings without
    [fail_on_missing]. *)
Theorem strict_agrees_with_lenient (sam_header : header)
    (bas_files : list (string * triple)) (rgds_strings : gmap string string)
    (warnings : list string) :
  get_chemistry_info sam_header bas_files true = inr (rgds_strings, warnings) →
  warnings = []
  ∧ get_chemistry_info sam_header bas_files false = inr (rgds_strings, []).
Proof.
  unfold get_chemistry_info. destruct (sam_header !! "RG") as [rgs|].
  - destruct (rg_loop true _ rgs ∅ []) as [e|[r ws]] eqn:Hloop; [done|].
    intros [= <- <-]. apply rg_loop_strict in Hloop as [-> Hloop].
    by rewrite Hloop.
  - by intros [= <- <-].
Qed.

Lemma strict_agrees_with_lenient_witness :
  get_chemistry_info sampleHeader (sampleBas ++ [("M7", ("b7", "s7", "2.3"))])%list false
  = inr ({[ "rg1" := "BINDINGKIT=100356300;SEQUENCINGKIT=100356200;SOFTWAREVERSION=2.1";
            "rg2" := "BINDINGKIT=b7;SEQUENCINGKIT=s7;SOFTWAREVERSION=2.3" ]}, []).
Proof.
  apply (strict_agrees_with_lenient sampleHeader
           (sampleBas ++ [("M7", ("b7", "s7", "2.3"))])%list _ []).
  vm_compute; reflexivity.
Defined.

Lemma rg_loop_lenient (d : gmap string triple) (rgs : list tags) :
  ∀ acc ws,
    Forall hasIdAndMovie rgs →
    NoDup ((λ e : tags, e !! "ID") <$> rgs) →
    ∃ r, rg_loop false d rgs acc ws
         = inr (r, (ws ++ (err_msg <$> missingMovies d rgs))%list)
       ∧ (∀ e rg_id movie, e ∈ rgs → e !! "ID" = Some rg_id →
            e !! MOVIENAME_TAG = Some movie →
            r !! rg_id = match d !! movie with
                         | Some t => Some t
                         | None => acc !! rg_id
                         end)
       ∧ (∀ rg_id, Some rg_id ∉ (λ e : tags, e !! "ID") <$> rgs →
            r !! rg_id = acc !! rg_id).
Proof.
  induction rgs as [|e rgs IH]; intros acc ws Hwf Hnd.
  - exists acc. simpl. rewrite (right_id_L [] (++)). split; [done|].
    split; [|done]. intros e rg_id movie He. by apply not_elem_of_nil in He.
  - apply Forall_cons in Hwf as [[[rg_id Hid] [movie Hmovie]] Hwf].
    rewrite fmap_cons in Hnd. apply NoDup_cons in Hnd as [Hfresh Hnd].
    rewrite Hid in Hfresh.
    simpl rg_loop. rewrite Hid, Hmovie.
    unfold missingMovies. simpl omap. rewrite Hmovie. fold (missingMovies d rgs).
    destruct (d !! movie) as [t|] eqn:Hd.
    + destruct (IH (<[rg_id:=t]> acc) ws Hwf Hnd) as (r & Hr & Hin & Hout).
      exists r. rewrite filter_cons_False by (rewrite Hd; done).
      fold (missingMovies d rgs). split; [exact Hr|]. split.
      * intros e' rg_id' movie' He' Hid' Hmovie'.
        apply elem_of_cons in He' as [->|He'].
        -- rewrite Hid in Hid'. rewrite Hmovie in Hmovie'.
           injection Hid' as <-. injection Hmovie' as <-.
           by rewrite Hd, (Hout rg_id Hfresh), lookup_insert_eq.
        -- rewrite (Hin e' rg_id' movie' He' Hid' Hmovie').
           assert (rg_id ≠ rg_id').
           { intros ->. apply Hfresh. rewrite <- Hid'.
             by apply (list_elem_of_fmap_2 (λ e : tags, e !! "ID")). }
           by rewrite lookup_insert_ne.
      * intros rg_id' Hfresh'. apply not_elem_of_cons in Hfresh' as [Hne Hfresh'].
        rewrite (Hout rg_id' Hfresh'), lookup_insert_ne; [done|].
        intros ->. by rewrite Hid in Hne.
    + destruct (IH acc (ws ++ [err_msg movie])%list Hwf Hnd) as (r & Hr & Hin & Hout).
      exists r. rewrite filter_cons_True by done.
      fold (missingMovies d rgs). rewrite fmap_cons.
      split; [by rewrite Hr, <- (assoc_L (++))|]. split.
      * intros e' rg_id' movie' He' Hid' Hmovie'.
        apply elem_of_cons in He' as [->|He'].
        -- rewrite Hid in Hid'. rewrite Hmovie in Hmovie'.
           injection Hid' as <-. injection Hmovie' as <-.
           by rewrite Hd, (Hout rg_id Hfresh).
        -- apply (Hin e' rg_id' movie' He' Hid' Hmovie').
      * intros rg_id' Hfresh'. apply not_elem_of_cons in Hfresh' as [_ Hfresh'].
        apply (Hout rg_id' Hfresh').
Qed.

(** X13: for a header whose [RG] lines all have an [ID] and a [PU] tag,
    the [ID]s pairwise distinct, [main] writes the header in which each
    [RG] line of a movie that some bas file is of has the chemistry of that
    movie added to its [DS], every other line being as it was; it logs one
    warning for each [RG] line of a movie that no bas file is of, in the
    order of the lines, and raises nothing. *)
Theorem main_new_header (input_header : header) (rgs : list tags)
    (bas_files : list (string * triple)) :
  input_header !! "RG" = Some rgs →
  Forall hasIdAndMovie rgs →
  NoDup ((λ e : tags, e !! "ID") <$> rgs) →
  new_header_of input_header bas_files
  = inr (<["RG" := withChemistry (triple_dict_of bas_files) <$> rgs]> input_header,
         err_msg <$> missingMovies (triple_dict_of bas_files) rgs).
Proof.
  intros Hrg Hwf Hnd. unfold new_header_of, get_chemistry_info. rewrite Hrg.
  destruct (rg_loop_lenient (triple_dict_of bas_files) rgs ∅ [] Hwf Hnd)
    as (r & -> & Hin & _).
  unfold extend_header. rewrite Hrg. simpl. do 3 f_equal.
  rewrite extend_rg_entries_fmap, format_rgds_entries_fmap.
  apply Forall_fmap_ext_1. apply Forall_forall. intros e He.
  destruct (proj1 (Forall_forall _ _) Hwf e He) as [[rg_id Hid] [movie Hmovie]].
  unfold extend_rg_entry, withChemistry. rewrite Hid, Hmovie. simpl.
  rewrite lookup_fmap, (Hin e rg_id movie He Hid Hmovie), lookup_empty.
  by destruct (triple_dict_of bas_files !! movie).
Qed.

Lemma main_new_header_witness :
  new_header_of sampleHeader sampleBas
  = inr ({[ "HD" := [ {[ "VN" := "1.4" ]} ];
            "RG" := [ {[ "ID" := "rg1"; "PU" := "M1";
                         "DS" := "READTYPE=SUBREAD;BINDINGKIT=100356300;SEQUENCINGKIT=100356200;SOFTWAREVERSION=2.1" ]};
                      {[ "ID" := "rg2"; "PU" := "M7" ]} ] ]},
         ["Cannot find chemistry information for movie M7."]).
Proof.
  etrans;
    [apply (main_new_header sampleHeader
              [ {[ "ID" := "rg1"; "PU" := "M1"; "DS" := "READTYPE=SUBREAD" ]};
                {[ "ID" := "rg2"; "PU" := "M7" ]} ] sampleBas)|].
  - vm_compute; reflexivity.
  - repeat constructor; vm_compute; eauto.
  - apply (bool_decide_unpack _). vm_compute; reflexivity.
  - vm_compute; reflexivity.
Defined.

Lemma triple_dict_foldl (movie : string) (bas_files : list (string * triple)) :
  ∀ acc : gmap string triple,
    foldl (λ triple_dict bas_file, <[bas_file.1 := bas_file.2]> triple_dict)
      acc bas_files !! movie
    = match last (filter (λ bas_file, bas_file.1 = movie) bas_files) with
      | Some bas_file => Some bas_file.2
      | None => acc !! movie
      end.
Proof.
  induction bas_files as [|[name t] rest IH]; intros acc; [done|].
  simpl foldl. rewrite IH. destruct (decide (name = movie)) as [->|Hne].
  - rewrite filter_cons_True by done. rewrite last_cons.
    destruct (last _); [done|]. by rewrite lookup_insert_eq.
  - rewrite filter_cons_False by done.
    destruct (last _); [done|]. by rewrite lookup_insert_ne.
Qed.

(** X14: the triple that [get_chemistry_info] uses for a movie is the one of
    the last bas file of that movie, when several files are of the same
    movie; a movie that no bas file is of has none. *)
Theorem triple_dict_last_wins (bas_files : list (string * triple)) (movie : string) :
  triple_dict_of bas_files !! movie
  = snd <$> last (filter (λ bas_file, bas_file.1 = movie) bas_files).
Proof.
  unfold triple_dict_of. rewrite triple_dict_foldl, lookup_empty.
  by destruct (last _).
Qed.

Lemma rg_loop_fails (d : gmap string triple) (rgs : list tags) :
  ∀ acc ws,
    Forall hasIdAndMovie rgs →
    rg_loop true d rgs acc ws
    = match missingMovies d rgs with
      | [] => rg_loop false d rgs acc ws
      | movie :: _ => inl (ChemistryLoadingException (err_msg movie))
      end.
Proof.
  induction rgs as [|e rgs IH]; intros acc ws Hwf; [done|].
  apply Forall_cons in Hwf as [[[rg_id Hid] [movie Hmovie]] Hwf].
  simpl rg_loop. rewrite Hid, Hmovie.
  unfold missingMovies. simpl omap. rewrite Hmovie.
  destruct (d !! movie) as [t|] eqn:Hd.
  - rewrite filter_cons_False by (rewrite Hd; done). by apply IH.
  - by rewrite filter_cons_True.
Qed.

(** X15: with [fail_on_missing], for a header whose [RG] lines all have an
    [ID] and a [PU] tag, [get_chemistry_info] raises
    [ChemistryLoadingException] exactly when some [RG] line is of a movie
    that no bas file is of, the message naming the movie of the first such
    line; when there is none it returns what it returns without
    [fail_on_missing]. *)
Theorem fail_on_missing_first_movie (sam_header : header) (rgs : list tags)
    (bas_files : list (string * triple)) :
  sam_header !! "RG" = Some rgs →
  Forall hasIdAndMovie rgs →
  get_chemistry_info sam_header bas_files true
  = match missingMovies (triple_dict_of bas_files) rgs with
    | [] => get_chemistry_info sam_header bas_files false
    | movie :: _ =>
        inl (ChemistryLoadingException
               ("Cannot find chemistry information for movie " ++ movie ++ "."))
    end.
Proof.
  intros Hrg Hwf. unfold get_chemistry_info. rewrite Hrg.
  rewrite (rg_loop_fails _ rgs ∅ [] Hwf).
  by destruct (missingMovies _ rgs).
Qed.

Lemma fail_on_missing_first_movie_witness :
  get_chemistry_info sampleHeader sampleBas true
  = inl (ChemistryLoadingException "Cannot find chemistry information for movie M7.").
Proof.
  etrans;
    [apply (fail_on_missing_first_movie sampleHeader
              [ {[ "ID" := "rg1"; "PU" := "M1"; "DS" := "READTYPE=SUBREAD" ]};
                {[ "ID" := "rg2"; "PU" := "M7" ]} ] sampleBas)|].
  - vm_compute; reflexivity.
  - repeat constructor; vm_compute; eauto.
  - vm_compute; reflexivity.
Defined.

End ChemistryFacts.
(** ** Suffixes and the names of the output files *)

Lemma chars_app (a b : string) :
  PyStr.chars (a ++ b) = (PyStr.chars a ++ PyStr.chars b)%list.
Proof.
  unfold PyStr.chars. induction a as [|c a IH]; [done|].
  change (String c a ++ b) with (String c (a ++ b)). simpl. by rewrite IH.
Qed.

Lemma str_chars (s : string) : PyStr.str (PyStr.chars s) = s.
Proof. apply string_of_list_ascii_of_string. Qed.

Lemma chars_str (l : list ascii) : PyStr.chars (PyStr.str l) = l.
Proof. apply list_ascii_of_string_of_list_ascii. Qed.

Lemma str_app (l k : list ascii) :
  PyStr.str (l ++ k) = PyStr.str l ++ PyStr.str k.
Proof.
  rewrite <- (chars_str l) at 1. rewrite <- (chars_str k) at 1.
  by rewrite <- chars_app, str_chars.
Qed.

Lemma startswith_chars_spec (p : list ascii) :
  ∀ l, PyStr.startswith_chars l p = true ↔ ∃ r, l = (p ++ r)%list.
Proof.
  induction p as [|a p IH]; intros l.
  - split; [by exists l|by destruct l].
  - destruct l as [|b l]; simpl; [split; [done|intros [r [=]]]|].
    rewrite andb_true_iff, IH, Ascii.eqb_eq. split.
    + intros [-> [r ->]]. eauto.
    + intros [r [= -> ->]]. eauto.
Qed.

Lemma endswith_spec (s p : string) :
  PyStr.endswith s p = true ↔ ∃ stem, s = stem ++ p.
Proof.
  unfold PyStr.endswith. rewrite startswith_chars_spec. split.
  - intros [r Hr]. exists (PyStr.str (rev r)).
    apply (f_equal (@rev ascii)) in Hr.
    rewrite rev_involutive, rev_app_distr, rev_involutive in Hr.
    by rewrite <- (str_chars s), Hr, str_app, !str_chars.
  - intros [stem ->]. exists (rev (PyStr.chars stem)).
    by rewrite chars_app, rev_app_distr.
Qed.

(** X16: the type that the parser gives to the two file arguments accepts
    exactly the names that end with [.bam] or [.sam], and returns them as
    they are; so for a name that the parser accepted, one of the two
    branches of [main] opens the output file, in binary mode exactly when
    the name ends with [.bam]. *)
Theorem accepted_name_has_mode (val : string) :
  (Chemistry.sam_or_bam_filename val = Some val
   ↔ ∃ stem, val = stem ++ ".bam" ∨ val = stem ++ ".sam")
  ∧ (Chemistry.sam_or_bam_filename val = None ↔ Chemistry.output_mode val = None)
  ∧ (Chemistry.output_mode val = Some Chemistry.wb ↔ ∃ stem, val = stem ++ ".bam").
Proof.
  unfold Chemistry.sam_or_bam_filename, Chemistry.output_mode.
  split; [|split].
  - split.
    + intros Hacc. destruct (PyStr.endswith val ".bam") eqn:Eb.
      * apply endswith_spec in Eb as [stem ->]. eauto.
      * destruct (PyStr.endswith val ".sam") eqn:Es; [|done].
        apply endswith_spec in Es as [stem ->]. eauto.
    + intros [stem [H|H]].
      * by rewrite (proj2 (endswith_spec val ".bam") (ex_intro _ stem H)).
      * by rewrite (proj2 (endswith_spec val ".sam") (ex_intro _ stem H)),
          orb_true_r.
  - by destruct (PyStr.endswith val ".bam"), (PyStr.endswith val ".sam").
  - rewrite <- endswith_spec.
    by destruct (PyStr.endswith val ".bam"), (PyStr.endswith val ".sam").
Qed.

(** *** The two regular expressions *)

Lemma match_here_app (pat : list Re.atom) :
  ∀ l k, Re.match_here pat l = true → Re.match_here pat (l ++ k) = true.
Proof.
  induction pat as [|a pat IH]; intros l k; [done|].
  destruct l as [|c l]; [done|]. simpl.
  rewrite !andb_true_iff. intros [Ha Hl]. eauto.
Qed.

Lemma match_here_long (pat : list Re.atom) :
  ∀ l k, (length pat ≤ length l)%nat →
    Re.match_here pat (l ++ k) = Re.match_here pat l.
Proof.
  induction pat as [|a pat IH]; intros l k Hlen; [done|].
  destruct l as [|c l]; simpl in Hlen; [lia|]. simpl.
  f_equal. apply IH. lia.
Qed.

Lemma search_from_unfold (pat : list Re.atom) (i : nat) (l : list ascii) :
  Re.search_from pat i l
  = if Re.match_here pat l then Some i
    else match l with
         | [] => None
         | _ :: l' => Re.search_from pat (S i) l'
         end.
Proof. by destruct l. Qed.

Lemma search_from_is_Some (pat : list Re.atom) (l : list ascii) :
  Re.match_here pat l = true →
  ∀ pre i, is_Some (Re.search_from pat i (pre ++ l)).
Proof.
  intros Hl pre. induction pre as [|c pre IH]; intros i.
  - rewrite search_from_unfold. simpl. by rewrite Hl.
  - rewrite search_from_unfold.
    change ((c :: pre) ++ l)%list with (c :: (pre ++ l))%list.
    destruct (Re.match_here pat (c :: pre ++ l)); [by eexists|apply IH].
Qed.

Lemma search_from_Some (pat : list Re.atom) :
  ∀ l i n, Re.search_from pat i l = Some n →
    ∃ j, n = (i + j)%nat ∧ (j ≤ length l)%nat
      ∧ Re.match_here pat (drop j l) = true
      ∧ ∀ k, (k < j)%nat → Re.match_here pat (drop k l) = false.
Proof.
  induction l as [|c l IH]; intros i n; rewrite search_from_unfold.
  - destruct (Re.match_here pat []) eqn:Hm; [|done]. intros [= <-].
    exists 0%nat. split_and!; [lia|done|done|lia].
  - destruct (Re.match_here pat (c :: l)) eqn:Hm.
    + intros [= <-]. exists 0%nat. split_and!; [lia|simpl; lia|done|lia].
    + intros Hs. destruct (IH _ _ Hs) as (j & -> & Hj & Hmatch & Hmin).
      exists (S j). split_and!; [lia|simpl; lia|done|].
      intros [|k] Hk; [done|]. apply Hmin. lia.
Qed.

Lemma search_from_None (pat : list Re.atom) :
  ∀ l i, (∀ k, (k ≤ length l)%nat → Re.match_here pat (drop k l) = false) →
    Re.search_from pat i l = None.
Proof.
  induction l as [|c l IH]; intros i Hno; rewrite search_from_unfold.
  - pose proof (Hno 0%nat (le_n _)) as H0. simpl in H0. by rewrite H0.
  - pose proof (Hno 0%nat (Nat.le_0_l _)) as H0. simpl in H0. rewrite H0.
    apply IH.
    intros k Hk. apply (Hno (S k)). simpl. lia.
Qed.

Lemma match_here_lits (p : list ascii) :
  ∀ l, Re.match_here (Re.Lit <$> p) l = true → ∃ r, l = (p ++ r)%list.
Proof.
  induction p as [|a p IH]; intros l; simpl; [eauto|].
  destruct l as [|c l]; [done|]. rewrite andb_true_iff, Ascii.eqb_eq.
  intros [-> Hl]. destruct (IH _ Hl) as [r ->]. eauto.
Qed.

Lemma rx_rx_split (l : list ascii) (i i' : nat) :
  is_Some (Re.search_from Re.rx i l) → is_Some (Re.search_from Re.rx_split i' l).
Proof.
  revert i i'. induction l as [|c l IH]; intros i i'; rewrite search_from_unfold.
  - simpl. by intros [? [=]].
  - destruct (Re.match_here Re.rx (c :: l)) eqn:Hm.
    + intros _.
      change Re.rx with ([Re.Lit PyStr.DOT; Re.Digit] ++ Re.rx_split)%list in Hm.
      simpl app in Hm. cbn [Re.match_here] in Hm.
      destruct l as [|c2 l]; [by rewrite andb_false_r in Hm|].
      apply andb_true_iff in Hm as [_ Hm]. apply andb_true_iff in Hm as [_ Hm].
      by apply (search_from_is_Some Re.rx_split l Hm [c; c2]).
    + intros Hs. rewrite search_from_unfold.
      destruct (Re.match_here Re.rx_split (c :: l)); [by eexists|].
      by apply (IH (S i)).
Qed.

(** X17: when [rx] matches somewhere in the name of the input file, the
    [movieId] is the part of that name before the first place where
    [.rgn\.h5] matches: the name is the [movieId] followed by one character
    that is not a newline, then [rgn.h5], then the rest of the name, and
    [.rgn\.h5] matches nowhere inside the [movieId]. When [rx] matches
    nowhere, the [movieId] is the movie name that the file declares. *)
Theorem movieId_cut (basename movieName : string) :
  if Re.search Re.rx basename
  then ∃ c tail, c ≠ PyStr.NL
         ∧ basename = movieId basename movieName ++ String c ("rgn.h5" ++ tail)
         ∧ Re.search Re.rx_split (movieId basename movieName) = false
  else movieId basename movieName = movieName.
Proof.
  unfold movieId. destruct (Re.search Re.rx basename) eqn:Hrx; [|done].
  unfold Re.search in Hrx. apply bool_decide_eq_true in Hrx.
  apply (rx_rx_split _ _ 0%nat) in Hrx as [n Hn].
  unfold Re.split_first, Re.search. rewrite Hn.
  apply search_from_Some in Hn as (j & -> & Hj & Hmatch & Hmin). simpl.
  change Re.rx_split with (Re.AnyChar :: (Re.Lit <$> PyStr.chars "rgn.h5")) in Hmatch.
  destruct (drop j (PyStr.chars basename)) as [|c rest] eqn:Hdrop; [done|].
  cbn [Re.match_here Re.atom_matches] in Hmatch.
  apply andb_true_iff in Hmatch as [Hc Hrest].
  apply match_here_lits in Hrest as [tail ->].
  exists c, (PyStr.str tail). split; [|split].
  - intros ->. by rewrite Ascii.eqb_refl in Hc.
  - assert (Hl : PyStr.str (PyStr.chars basename)
                 = PyStr.str (take j (PyStr.chars basename)
                              ++ [c] ++ PyStr.chars "rgn.h5" ++ tail)).
    { f_equal. rewrite <- (take_drop j (PyStr.chars basename)) at 1.
      by rewrite Hdrop. }
    rewrite str_chars in Hl. rewrite Hl at 1.
    by rewrite !str_app, str_chars.
  - apply bool_decide_eq_false. rewrite chars_str.
    rewrite (search_from_None Re.rx_split); [by intros [? [=]]|].
    intros k Hk. rewrite length_take in Hk.
    destruct (decide (k = j)) as [->|Hne].
    + rewrite drop_ge by (rewrite length_take; lia). done.
    + assert (Hlt : (k < j)%nat) by lia.
      destruct (Re.match_here Re.rx_split (drop k (take j (PyStr.chars basename))))
        eqn:Hpre; [|done].
      apply (match_here_app _ _ (drop j (PyStr.chars basename))) in Hpre.
      rewrite <- (Hmin k Hlt), <- Hpre.
      rewrite <- (take_drop j (PyStr.chars basename)) at 3.
      rewrite drop_app_le by (rewrite length_take; lia). done.
Qed.

Lemma rx_split_not_across (d : ascii) (l : list ascii) :
  Re.match_here Re.rx_split l = false →
  Re.match_here Re.rx_split
    (l ++ PyStr.DOT :: d :: PyStr.chars ".rgn.h5") = false.
Proof.
  intros Hl.
  destruct l as [|c1 [|c2 [|c3 [|c4 [|c5 [|c6 [|c7 l]]]]]]];
    try (cbn; rewrite ?andb_false_r; reflexivity).
  rewrite match_here_long; [done|]. simpl. lia.
Qed.

Lemma search_rx_split_part (d : ascii) :
  ∀ l i, Re.search_from Re.rx_split i l = None →
    Re.search_from Re.rx_split i (l ++ PyStr.DOT :: d :: PyStr.chars ".rgn.h5")
    = Some (i + length l + 2)%nat.
Proof.
  induction l as [|c l IH]; intros i; rewrite search_from_unfold.
  - intros _. cbn. rewrite !andb_false_r. f_equal. lia.
  - destruct (Re.match_here Re.rx_split (c :: l)) eqn:Hm; [done|]. intros Hs.
    rewrite search_from_unfold, (rx_split_not_across d (c :: l) Hm).
    cbn [app length]. rewrite (IH _ Hs). f_equal. lia.
Qed.

(** X18: for a file name made of a stem, a dot, one digit and [.rgn.h5],
    where [.rgn\.h5] matches nowhere in the stem, the [movieId] is the stem,
    the dot and the digit, whatever movie name the file declares; the output
    file is then named as the input file. *)
Theorem movieId_part_name (stem movieName : string) (d : ascii) :
  Re.atom_matches Re.Digit d = true →
  Re.search Re.rx_split stem = false →
  movieId (stem ++ String PyStr.DOT (String d ".rgn.h5")) movieName
    = stem ++ String PyStr.DOT (String d EmptyString)
  ∧ movieId (stem ++ String PyStr.DOT (String d ".rgn.h5")) movieName ++ ".rgn.h5"
    = stem ++ String PyStr.DOT (String d ".rgn.h5").
Proof.
  intros Hd Hstem.
  assert (Hid : movieId (stem ++ String PyStr.DOT (String d ".rgn.h5")) movieName
                = stem ++ String PyStr.DOT (String d EmptyString)).
  { unfold movieId, Re.search, Re.split_first. rewrite chars_app.
    change (PyStr.chars (String PyStr.DOT (String d ".rgn.h5")))
      with (PyStr.DOT :: d :: PyStr.chars ".rgn.h5").
    rewrite bool_decide_eq_true_2.
    - apply bool_decide_eq_false in Hstem.
      rewrite (search_rx_split_part d (PyStr.chars stem) 0%nat).
      + replace (0 + length (PyStr.chars stem) + 2)%nat
          with (length (PyStr.chars stem ++ [PyStr.DOT; d]))%nat
          by (rewrite length_app; simpl; lia).
        change (PyStr.DOT :: d :: PyStr.chars ".rgn.h5")
          with ([PyStr.DOT; d] ++ PyStr.chars ".rgn.h5")%list.
        rewrite (assoc_L (++)), take_app_length, str_app, str_chars. done.
      + destruct (Re.search_from _ _ _); [|done]. by destruct Hstem.
    - apply (search_from_is_Some Re.rx).
      cbn [Re.rx app Re.match_here]. rewrite Hd. reflexivity. }
  split; [exact Hid|]. rewrite Hid.
  by rewrite append_assoc.
Qed.

Lemma movieId_part_name_witness :
  movieId "m130226_s1_p0.3.rgn.h5" "M1" = "m130226_s1_p0.3"
  ∧ movieId "m130226_s1_p0.3.rgn.h5" "M1" ++ ".rgn.h5" = "m130226_s1_p0.3.rgn.h5".
Proof.
  apply (movieId_part_name "m130226_s1_p0" "M1" "3"%char).
  - vm_compute; reflexivity.
  - vm_compute; reflexivity.
Defined.
(** ** An output manifest without an extension *)

(** X19: when the output manifest is a plain file name without a directory
    part and without an extension, the output directory,
    [os.path.splitext(outRgnFofn)[0]], is the manifest itself. If nothing
    exists under that name in the working directory, which exists, the
    directory is made under it, and opening the manifest for writing then
    fails with [IOError]: nothing but the directory is written, and no line
    of the input manifest is read. *)
Theorem extensionless_manifest (self : AlignedReadsMasker)
    (alignedReads : AlignmentIndex) (w : World) :
  outRgnFofn self ≠ EmptyString →
  PyStr.SLASH ∉ PyStr.chars (outRgnFofn self) →
  OsPath.splitext_root (outRgnFofn self) = outRgnFofn self →
  exists_node (fs w) (OsPath.abspath (cwd w) (outRgnFofn self)) = false →
  is_dir (fs w) (parent (OsPath.abspath (cwd w) (outRgnFofn self))) = true →
  maskWith self alignedReads w =
    (Exc (IOError (outRgnFofn self)),
     step (<[OsPath.abspath (cwd w) (outRgnFofn self) := Dir]> (fs w))
       [Log INFO (extractedMsg self alignedReads);
        Mkdir (OsPath.abspath (cwd w) (outRgnFofn self))] w).
Proof.
  intros Hname _ Hext Hnew Hparent.
  apply String.eqb_neq in Hname.
  unfold maskWith, logging, emit. py_step. cbv zeta. rewrite Hext.
  rewrite bind_run. unfold os_path_exists at 1. cbn beta iota.
  rewrite ?cwd_step, ?fs_step, Hname, Hnew. cbn [negb andb].
  rewrite bind_run. unfold os_mkdir at 1.
  rewrite ?cwd_step, ?fs_step, Hname, Hnew, Hparent. cbn [orb negb].
  rewrite bind_run. unfold open_w at 1.
  rewrite ?cwd_step, ?fs_step, Hname. unfold is_dir at 1.
  rewrite lookup_insert_eq, bool_decide_eq_true_2 by done.
  rewrite orb_true_r. cbn [orb]. by rewrite step_step.
Qed.

Lemma extensionless_manifest_witness :
  maskWith (mkAlignedReadsMasker "in.cmp.h5" "in.fofn" "out") sampleIndex
    (sampleWorld ["a.rgn.h5"]) =
    (Exc (IOError "out"),
     step (<[OsPath.abspath (cwd (sampleWorld ["a.rgn.h5"])) "out" := Dir]>
             (fs (sampleWorld ["a.rgn.h5"])))
       [Log INFO (extractedMsg (mkAlignedReadsMasker "in.cmp.h5" "in.fofn" "out")
                    sampleIndex);
        Mkdir (OsPath.abspath (cwd (sampleWorld ["a.rgn.h5"])) "out")]
       (sampleWorld ["a.rgn.h5"])).
Proof.
  apply (extensionless_manifest (mkAlignedReadsMasker "in.cmp.h5" "in.fofn" "out")
           sampleIndex (sampleWorld ["a.rgn.h5"])).
  - discriminate.
  - apply (bool_decide_unpack _). vm_compute; reflexivity.
  - vm_compute; reflexivity.
  - vm_compute; reflexivity.
  - vm_compute; reflexivity.
Defined.
